(** * lanup: LAN address selection, change watcher and env-file merge

    A shallow embedding of the Go packages [internal/net] (scanner,
    classifier, selector, watcher), [cmd] (the URL rewrite of the start
    command) and [internal/env] (merge and backup of the env file), with
    the properties the design document states about them; and of the
    code around them: the start, init, doctor and logs commands of [cmd],
    [pkg/errors], [internal/config], [internal/docker], the level check
    of [internal/logger] and [main], with properties read off the code.

    Go strings are byte sequences: they are [string] here, one [ascii] per
    byte.  An [IP] is Go's [net.IP], a byte slice of length 4 or 16. *)

From Stdlib Require Import NArith ZArith Ascii String List Bool Lia.
From Stdlib Require Import DecimalString DecimalPos.
From Stdlib Require Import Strings.Byte.
From stdpp Require Import base option list strings gmap.

Local Open Scope N_scope.

(** ** The part of Go's [strings] package the code calls *)

Module strings.

Definition byteval (c : ascii) : N := N_of_ascii c.

(** [c < utf8.RuneSelf] *)
Definition isASCIIbyte (c : ascii) : bool := byteval c <? 128.

Fixpoint isASCII (s : string) : bool :=
  match s with
  | EmptyString => true
  | String c t => isASCIIbyte c && isASCII t
  end.

(** ['A' <= c && c <= 'Z'] then [c += 'a' - 'A'] *)
Definition lowerByte (c : ascii) : ascii :=
  if (65 <=? byteval c) && (byteval c <=? 90)
  then ascii_of_N (byteval c + 32) else c.

Fixpoint lowerBytes (s : string) : string :=
  match s with
  | EmptyString => EmptyString
  | String c t => String (lowerByte c) (lowerBytes t)
  end.

Definition upperByte (c : ascii) : ascii :=
  if (97 <=? byteval c) && (byteval c <=? 122)
  then ascii_of_N (byteval c - 32) else c.

Fixpoint upperBytes (s : string) : string :=
  match s with
  | EmptyString => EmptyString
  | String c t => String (upperByte c) (upperBytes t)
  end.

(** [strings.HasPrefix(s, prefix)] *)
Fixpoint HasPrefix (s prefix : string) {struct prefix} : bool :=
  match prefix, s with
  | EmptyString, _ => true
  | String p ps, String c cs => Ascii.eqb c p && HasPrefix cs ps
  | String _ _, EmptyString => false
  end.

(** [strings.Contains(s, substr)]: [substr] starts at some offset of [s]. *)
Fixpoint Contains (s substr : string) : bool :=
  HasPrefix s substr ||
  match s with
  | EmptyString => false
  | String _ t => Contains t substr
  end.

(** The scan of [strings.ReplaceAll(s, old, new)] for a non-empty [old]:
    the leftmost instance is replaced, the scan resumes behind it, so the
    replaced instances do not overlap.  [skip] counts the bytes of the
    instance being replaced that are still to be dropped. *)
Fixpoint replaceScan (skip : nat) (s old new : string) : string :=
  match s with
  | EmptyString => EmptyString
  | String c t =>
      match skip with
      | S k => replaceScan k t old new
      | O =>
          if HasPrefix s old
          then new +:+ replaceScan (String.length old - 1) t old new
          else String c (replaceScan 0 t old new)
      end
  end.

(** [strings.ReplaceAll].  With [old == new] Go returns [s] as it is.  An
    empty [old] matches around every UTF-8 sequence; neither caller in
    this program passes one, and the model covers a non-empty [old]
    only (it leaves [s] alone otherwise). *)
Definition ReplaceAll (s old new : string) : string :=
  if String.eqb old new then s
  else match old with
       | EmptyString => s
       | String _ _ => replaceScan 0 s old new
       end.

End strings.

(** ** What the program takes from Go's runtime and leaves to it

    Two routines of Go's standard library are reached by the code but
    rest on tables or formats of Go's own; they are a parameter of the
    development, and every property holds whatever they compute. *)

(** [net.IP] *)
Definition IP : Type := list byte.

Class GoStdlib : Type := {
  (** [strings.Map(unicode.ToLower, s)], the path [strings.ToLower] takes
      for a string with a byte [>= 0x80] *)
  unicodeToLower : string -> string;
  (** [netip.Addr.String] of a 16-byte address that is not IPv4-mapped *)
  formatIPv6 : IP -> string
}.

(** ** Package [internal/net]: scanner, classifier, selector *)

(** [NetworkInfo] *)
Record NetworkInfo := mkNetworkInfo {
  IP_ : string;
  Interface : string;
  Type_ : string  (* wifi, ethernet, virtual *)
}.

(** Go's [error] values this package produces or passes on *)
Inductive error :=
| ErrOS (msg : string)                      (* returned by the operating system *)
| ErrNew (msg : string)                     (* fmt.Errorf(msg) *)
| ErrWrap (msg : string) (cause : error)    (* fmt.Errorf(msg + ": %w", cause) *)
| ErrCanceled                               (* context.Canceled *)
| ErrDeadlineExceeded.                      (* context.DeadlineExceeded *)

(** [net.Addr] as [iface.Addrs()] returns it; the type switch of the
    scanner knows [*net.IPNet] and [*net.IPAddr]. *)
Inductive Addr :=
| IPNet (ip : IP)
| IPAddr (ip : IP)
| OtherAddr.

(** [net.Interface] with what the scanner reads of it; [Addrs] is the
    result of [iface.Addrs()], [inr] when that call fails. *)
Record NetInterface := mkNetInterface {
  Name : string;
  Flags : N;
  Addrs : list Addr + error
}.

Definition FlagUp : N := 1.         (* 1 << 0 *)
Definition FlagLoopback : N := 4.   (* 1 << 2 *)

Definition uint8 (n : N) : byte :=
  match Byte.of_N (n mod 256) with Some b => b | None => x00 end.

(** [ip[i]] as a number *)
Definition octet (ip : IP) (i : nat) : N := Byte.to_N (nth i ip x00).

Definition isDigit (c : ascii) : bool :=
  (48 <=? strings.byteval c) && (strings.byteval c <=? 57).

Definition isDot (c : ascii) : bool := Ascii.eqb c ".".

(** The loop of [netip.parseIPv4]: [prev] is [s[i-1]] ([None] at [i = 0]),
    the rest of the string is empty exactly when [i == len(s)-1]. *)
Fixpoint parseIPv4Loop (s : string) (prev : option ascii)
         (val : N) (pos : nat) (digLen : N) (fields : list byte) : option (list byte) :=
  match s with
  | EmptyString =>
      if (pos <? 3)%nat then None                    (* IPv4 address too short *)
      else Some (<[3%nat := uint8 val]> fields)
  | String c t =>
      if isDigit c then
        if (digLen =? 1) && (val =? 0) then None     (* octet with leading zero *)
        else
          let val := val * 10 + (strings.byteval c - 48) in
          if 255 <? val then None                    (* value >255 *)
          else parseIPv4Loop t (Some c) val pos (digLen + 1) fields
      else if isDot c then
        match prev, t with
        | None, _ => None                            (* .1.2.3 *)
        | _, EmptyString => None                     (* 1.2.3. *)
        | Some p, _ =>
            if isDot p then None                     (* 1..2.3 *)
            else if (pos =? 3)%nat then None         (* 1.2.3.4.5 *)
            else parseIPv4Loop t (Some c) 0 (S pos) 0 (<[pos := uint8 val]> fields)
        end
      else None                                      (* unexpected character *)
  end.

Definition parseIPv4 (s : string) : option (list byte) :=
  parseIPv4Loop s None 0 0%nat 0 [x00; x00; x00; x00].

(** The first of ['.'], [':'], ['%'] in [s], on which [netip.ParseAddr]
    decides how to read it. *)
Fixpoint firstSeparator (s : string) : option ascii :=
  match s with
  | EmptyString => None
  | String c t =>
      if Ascii.eqb c "." || Ascii.eqb c ":" || Ascii.eqb c "%" then Some c
      else firstSeparator t
  end.

Definition v4InV6Prefix : IP :=
  [x00; x00; x00; x00; x00; x00; x00; x00; x00; x00; xff; xff].

(** The value of a hexadecimal digit, as the inner loop of
    [netip.parseIPv6] reads it. *)
Definition hexValue (c : ascii) : option N :=
  let b := strings.byteval c in
  if (48 <=? b) && (b <=? 57) then Some (b - 48)
  else if (97 <=? b) && (b <=? 102) then Some (b - 97 + 10)
  else if (65 <=? b) && (b <=? 70) then Some (b - 65 + 10)
  else None.

(** The inner loop of [netip.parseIPv6]: the hexadecimal number at the
    start of [s].  The result is [off], the number of its digits, its
    value [acc] and [s[off:]]; [off] and [acc] start at 0.  With at most
    four digits [acc] stays below 2^16, far from the 2^32 of its type. *)
Fixpoint hexGroup (s : string) (off : nat) (acc : N) : option (nat * N * string) :=
  match s with
  | EmptyString => Some (off, acc, s)
  | String c t =>
      match hexValue c with
      | None => Some (off, acc, s)
      | Some v =>
          let acc := acc * 16 + v in
          if (3 <? off)%nat then None        (* each group must have 4 or less digits *)
          else if 65535 <? acc then None     (* IPv6 field has value >=2^16 *)
          else hexGroup t (S off) acc
      end
  end.

(** What [parseIPv4Fields] stores into the slice [ip[i:i+4]]. *)
Fixpoint writeFields (i : nat) (fields : list byte) (ip : IP) : IP :=
  match fields with
  | [] => ip
  | b :: rest => writeFields (S i) rest (<[i := b]> ip)
  end.

(** The outer loop [for i < 16] of [netip.parseIPv6], from the state
    [s], [i], [ip], [ellipsis] ([None] is -1) to the state in which the
    loop is left; [None] is an error.  Every turn that goes on stores
    two bytes, so there are eight turns at most: [groups] counts the
    turns that are left and is [0] when [i] is 16. *)
Fixpoint parseIPv6Loop (groups : nat) (s : string) (i : nat) (ip : IP)
         (ellipsis : option nat) : option (string * nat * IP * option nat) :=
  if (16 <=? i)%nat then Some (s, i, ip, ellipsis)
  else
    match groups with
    | O => None
    | S groups =>
        match hexGroup s 0 0 with
        | None => None
        | Some (off, acc, rest) =>
            if (off =? 0)%nat then None        (* no digits found *)
            else if match rest with String c _ => isDot c | EmptyString => false end then
              (* followed by a dot: the trailing IPv4 address *)
              if match ellipsis with None => negb (i =? 12)%nat | Some _ => false end
              then None                        (* not the right place *)
              else if (16 <? i + 4)%nat then None   (* not enough room *)
              else
                match parseIPv4 s with
                | None => None
                | Some fields =>
                    Some (EmptyString, (i + 4)%nat, writeFields i fields ip, ellipsis)
                end
            else
              (* save this 16-bit chunk *)
              let ip := <[S i := uint8 acc]> (<[i := uint8 (acc / 256)]> ip) in
              let i := (i + 2)%nat in
              match rest with
              | EmptyString => Some (EmptyString, i, ip, ellipsis)   (* end of string *)
              | String c t =>
                  if negb (Ascii.eqb c ":") then None   (* unexpected character, want colon *)
                  else
                    match t with
                    | EmptyString => None      (* colon must be followed by more characters *)
                    | String c' t' =>
                        if Ascii.eqb c' ":" then
                          match ellipsis with
                          | Some _ => None     (* multiple :: in address *)
                          | None =>
                              match t' with
                              | EmptyString => Some (EmptyString, i, ip, Some i)
                              | String _ _ => parseIPv6Loop groups t' i ip (Some i)
                              end
                          end
                        else parseIPv6Loop groups t i ip ellipsis
                    end
              end
        end
    end.

(** The expansion of the ellipsis at the end of [netip.parseIPv6]: the
    bytes from [ellipsis] to [i-1] move up by [n = 16 - i], the last one
    first, and the [n] bytes from [ellipsis] on are cleared. *)
Definition expandEllipsis (i ellipsis : nat) (ip : IP) : IP :=
  let n := (16 - i)%nat in
  let moved :=
    foldl (fun ip j => <[(j + n)%nat := nth j ip x00]> ip) ip
          (rev (seq ellipsis (i - ellipsis))) in
  foldl (fun ip j => <[j := x00]> ip) moved (seq ellipsis n).

(** [bytealg.IndexByteString(s, '%') != -1] *)
Fixpoint hasZone (s : string) : bool :=
  match s with
  | EmptyString => false
  | String c t => Ascii.eqb c "%" || hasZone t
  end.

(** [netip.parseIPv6] of Go 1.22, as [net.ParseIP] gets its result: the
    16 bytes of the address, [None] for an error.  A [%] in [s] starts a
    zone; an empty zone is an error, and an address with a zone is
    dropped by [net.parseIP], so [s] with a [%] gives [None] either
    way.  [turns] is the number of turns the loop may take; eight are
    always enough. *)
Definition parseIPv6With (turns : nat) (s : string) : option IP :=
  if hasZone s then None
  else
    let ip := replicate 16 x00 in
    (* might have leading ellipsis *)
    let '(s, ellipsis, onlyEllipsis) :=
      match s with
      | String c (String c' t) =>
          if Ascii.eqb c ":" && Ascii.eqb c' ":"
          then (t, Some 0%nat, match t with EmptyString => true | _ => false end)
          else (s, None, false)
      | _ => (s, None, false)
      end in
    if onlyEllipsis then Some ip               (* IPv6Unspecified *)
    else
      match parseIPv6Loop turns s 0 ip ellipsis with
      | None => None
      | Some (String _ _, _, _, _) => None     (* trailing garbage after address *)
      | Some (EmptyString, i, ip, ellipsis) =>
          if (i <? 16)%nat then
            match ellipsis with
            | None => None                     (* address string too short *)
            | Some e => Some (expandEllipsis i e ip)
            end
          else
            match ellipsis with
            | Some _ => None                   (* the :: must expand to at least one field *)
            | None => Some ip
            end
      end.

Definition parseIPv6 (s : string) : option IP := parseIPv6With 8 s.

Definition isZeros (p : IP) : bool := forallb (fun b => Byte.to_N b =? 0) p.

(** [ip.To4()]; [None] is nil *)
Definition To4 (ip : IP) : option IP :=
  if (length ip =? 4)%nat then Some ip
  else if (length ip =? 16)%nat && isZeros (take 10 ip)
          && (octet ip 10 =? 255) && (octet ip 11 =? 255)
  then Some (take 4 (drop 12 ip))
  else None.

(** [appendDecimal] of [net/netip] *)
Definition appendDecimal (x : N) : string :=
  let d (n : N) : ascii := ascii_of_N (48 + n) in
  (if 100 <=? x then String (d (x / 100)) EmptyString else EmptyString) +:+
  (if 10 <=? x then String (d (x / 10 mod 10)) EmptyString else EmptyString) +:+
  String (d (x mod 10)) EmptyString.

(** Dotted decimal notation of four octets *)
Definition dotted (a b c d : byte) : string :=
  appendDecimal (Byte.to_N a) +:+ "." +:+ appendDecimal (Byte.to_N b) +:+ "." +:+
  appendDecimal (Byte.to_N c) +:+ "." +:+ appendDecimal (Byte.to_N d).

Definition hexDigit (n : N) : ascii :=
  if n <? 10 then ascii_of_N (48 + n) else ascii_of_N (87 + n).

Fixpoint hexString (b : list byte) : string :=
  match b with
  | [] => EmptyString
  | x :: r =>
      String (hexDigit (Byte.to_N x / 16))
        (String (hexDigit (Byte.to_N x mod 16)) (hexString r))
  end.

(** The RFC 1918 test on the first two octets *)
Definition privateOctets (o0 o1 : N) : bool :=
  if o0 =? 10 then true
  else if (o0 =? 172) && (16 <=? o1) && (o1 <=? 31) then true
  else if (o0 =? 192) && (o1 =? 168) then true
  else false.

Section Scanner.

Context {go : GoStdlib}.

(** [strings.ToLower]: an all-ASCII string is lowered byte by byte. *)
Definition ToLower (s : string) : string :=
  if strings.isASCII s then strings.lowerBytes s else unicodeToLower s.

(** [net.ParseIP]: [netip.ParseAddr] reads [s] as IPv4 when its first
    separator is a dot and as IPv6 when it is a colon; the result is the
    16-byte form of the address.  [None] is nil. *)
Definition ParseIP (s : string) : option IP :=
  match firstSeparator s with
  | Some c =>
      if isDot c then
        match parseIPv4 s with
        | Some fields => Some (v4InV6Prefix ++ fields)
        | None => None
        end
      else if Ascii.eqb c ":" then parseIPv6 s
      else None                                    (* missing IPv6 address *)
  | None => None                                   (* unable to parse IP *)
  end.

(** [ip.String()] *)
Definition IP_String (ip : IP) : string :=
  match ip with
  | [] => "<nil>"
  | _ =>
      if negb (length ip =? 4)%nat && negb (length ip =? 16)%nat
      then "?" +:+ hexString ip
      else match To4 ip with
           | Some [a; b; c; d] => dotted a b c d
           | _ => formatIPv6 ip
           end
  end.

(** [IsPrivateIP] *)
Definition IsPrivateIP (ipStr : string) : bool :=
  match ParseIP ipStr with
  | None => false
  | Some ip =>
      match To4 ip with
      | None => false
      | Some ip =>
          if octet ip 0 =? 10 then true
          else if (octet ip 0 =? 172) && (16 <=? octet ip 1) && (octet ip 1 <=? 31)
          then true
          else if (octet ip 0 =? 192) && (octet ip 1 =? 168) then true
          else false
      end
  end.

Definition isVirtualName (nameLower : string) : bool :=
  strings.HasPrefix nameLower "docker" ||
  strings.HasPrefix nameLower "veth" ||
  strings.HasPrefix nameLower "br-" ||
  strings.HasPrefix nameLower "virbr" ||
  strings.HasPrefix nameLower "vmnet" ||
  strings.HasPrefix nameLower "vbox".

Definition isWifiName (nameLower : string) : bool :=
  strings.HasPrefix nameLower "wlan" ||
  strings.HasPrefix nameLower "wl" ||
  strings.HasPrefix nameLower "wifi" ||
  strings.Contains nameLower "wi-fi".

Definition isEthernetName (nameLower : string) : bool :=
  strings.HasPrefix nameLower "eth" ||
  strings.HasPrefix nameLower "en" ||
  strings.HasPrefix nameLower "em" ||
  strings.HasPrefix nameLower "eno" ||
  strings.HasPrefix nameLower "enp" ||
  strings.HasPrefix nameLower "ens".

(** [classifyInterface] *)
Definition classifyInterface (name : string) : string :=
  let nameLower := ToLower name in
  if isVirtualName nameLower then "virtual"
  else if isWifiName nameLower then "wifi"
  else if isEthernetName nameLower then "ethernet"
  else "ethernet".

(** The type switch on [addr]: the [IP] of an [*net.IPNet] or an
    [*net.IPAddr], nil (the empty slice) for anything else. *)
Definition addrIP (addr : Addr) : IP :=
  match addr with
  | IPNet ip => ip
  | IPAddr ip => ip
  | OtherAddr => []
  end.

(** The inner loop of [GetAllInterfaces] over the addresses of one
    interface, appending to [result]. *)
Fixpoint scanAddrs (name : string) (addrs : list Addr) (result : list NetworkInfo)
  : list NetworkInfo :=
  match addrs with
  | [] => result
  | addr :: rest =>
      let ip := addrIP addr in
      match To4 ip with
      | None => scanAddrs name rest result         (* not IPv4 *)
      | Some _ =>
          let ipStr := IP_String ip in
          if negb (IsPrivateIP ipStr) then scanAddrs name rest result
          else
            let netInfo := {| IP_ := ipStr; Interface := name;
                              Type_ := classifyInterface name |} in
            scanAddrs name rest (result ++ [netInfo])
      end
  end.

(** The outer loop of [GetAllInterfaces]. *)
Fixpoint scanInterfaces (ifaces : list NetInterface) (result : list NetworkInfo)
  : list NetworkInfo :=
  match ifaces with
  | [] => result
  | iface :: rest =>
      if N.land (Flags iface) FlagUp =? 0 then scanInterfaces rest result
      else if negb (N.land (Flags iface) FlagLoopback =? 0) then scanInterfaces rest result
      else match Addrs iface with
           | inr _ => scanInterfaces rest result
           | inl addrs => scanInterfaces rest (scanAddrs (Name iface) addrs result)
           end
  end.

(** [GetAllInterfaces]; the argument is what [net.Interfaces()] returns. *)
Definition GetAllInterfaces (os : list NetInterface + error)
  : list NetworkInfo + error :=
  match os with
  | inr err => inr err
  | inl ifaces => inl (scanInterfaces ifaces [])
  end.

Definition isVirtual (i : NetworkInfo) : bool := String.eqb (Type_ i) "virtual".

Definition isWifiOrEthernet (i : NetworkInfo) : bool :=
  String.eqb (Type_ i) "wifi" || String.eqb (Type_ i) "ethernet".

(** The loop that splits [interfaces] into [physical] and [virtual],
    appending in scan order. *)
Fixpoint partitionInterfaces (interfaces physical virtual : list NetworkInfo)
  : list NetworkInfo * list NetworkInfo :=
  match interfaces with
  | [] => (physical, virtual)
  | iface :: rest =>
      if isVirtual iface
      then partitionInterfaces rest physical (virtual ++ [iface])
      else partitionInterfaces rest (physical ++ [iface]) virtual
  end.

(** [for _, iface := range physical { if ... { return &iface } }] *)
Fixpoint firstWifiOrEthernet (physical : list NetworkInfo) : option NetworkInfo :=
  match physical with
  | [] => None
  | iface :: rest =>
      if isWifiOrEthernet iface then Some iface else firstWifiOrEthernet rest
  end.

(** [PrioritizeInterfaces]; [None] is the nil pointer. *)
Definition PrioritizeInterfaces (interfaces : list NetworkInfo) : option NetworkInfo :=
  match interfaces with
  | [] => None
  | _ =>
      let '(physical, virtual) := partitionInterfaces interfaces [] [] in
      match physical with
      | p0 :: _ =>
          match firstWifiOrEthernet physical with
          | Some iface => Some iface
          | None => Some p0
          end
      | [] =>
          match virtual with
          | v0 :: _ => Some v0
          | [] => None
          end
      end
  end.

(** [DetectLocalIP] *)
Definition DetectLocalIP (os : list NetInterface + error) : NetworkInfo + error :=
  match GetAllInterfaces os with
  | inr err => inr (ErrWrap "failed to get network interfaces" err)
  | inl interfaces =>
      match interfaces with
      | [] => inr (ErrNew "no active network interfaces found")
      | _ =>
          match PrioritizeInterfaces interfaces with
          | None => inr (ErrNew "no suitable private IP address found")
          | Some selected => inl selected
          end
      end
  end.

End Scanner.

(** ** Package [internal/net]: the change watcher *)

(** A Go channel that is only ever closed, never sent on. *)
Inductive chanState := ChanNil | ChanOpen | ChanClosed.

(** [IPWatcher].  The callback's effect lives outside the watcher: a call
    is recorded in the trace of the run, and [OnChange] keeps whether one
    is registered ([false] is the nil func).  [Interval] is a
    [time.Duration]: a signed 64-bit count of nanoseconds, which may be
    negative.  The mutex orders the accesses of concurrent goroutines
    and has no state of its own in a sequential run. *)
Record IPWatcher := mkIPWatcher {
  CurrentIP : string;
  Interval : Z;
  OnChange : bool;
  stopCh : chanState;
  stopped : bool
}.

(** What a run of the watcher does that can be observed from outside. *)
Inductive effect :=
| Scanned                                   (* a call of DetectLocalIP *)
| Called (oldIP newIP : string).            (* w.OnChange(oldIP, newIP) *)

(** What the environment does while [Start] runs: the case its [select]
    takes next, or a call of [Stop] from another goroutine. *)
Inductive event :=
| EvCtxDone (err : error)                   (* <-ctx.Done(), ctx.Err() is err *)
| EvStopCh                                  (* <-w.stopCh *)
| EvTick (os : list NetInterface + error)   (* <-ticker.C, and the interfaces at that time *)
| EvStop.                                   (* w.Stop() called elsewhere *)

Inductive outcome :=
| Returned (err : option error)             (* Start has returned err *)
| Running                                   (* Start waits in its select *)
| Panicked (msg : string).

(** [time.Second] *)
Definition second : Z := 1000000000.

(** [NewIPWatcher]: only the zero interval is replaced, a negative one
    is kept. *)
Definition NewIPWatcher (interval : Z) : IPWatcher :=
  let interval := if (interval =? 0)%Z then (5 * second)%Z else interval in
  {| CurrentIP := ""; Interval := interval; OnChange := false;
     stopCh := ChanOpen; stopped := false |}.

(** [time.NewTicker]: it panics unless the interval is positive;
    otherwise the ticks are the [EvTick] events of the run. *)
Definition NewTicker (d : Z) : option string :=
  if (d <=? 0)%Z then Some "non-positive interval for NewTicker" else None.

Definition setCurrentIP (w : IPWatcher) (ip : string) : IPWatcher :=
  {| CurrentIP := ip; Interval := Interval w; OnChange := OnChange w;
     stopCh := stopCh w; stopped := stopped w |}.

(** [close(ch)]: closing a nil or a closed channel panics. *)
Definition close (ch : chanState) : chanState + string :=
  match ch with
  | ChanOpen => inl ChanClosed
  | ChanClosed => inr "close of closed channel"
  | ChanNil => inr "close of nil channel"
  end.

(** [IPWatcher.Stop]; the second component is the panic, if any. *)
Definition Stop (w : IPWatcher) : IPWatcher * option string :=
  if stopped w then (w, None)
  else
    let w := {| CurrentIP := CurrentIP w; Interval := Interval w;
                OnChange := OnChange w; stopCh := stopCh w; stopped := true |} in
    match close (stopCh w) with
    | inl ch =>
        ({| CurrentIP := CurrentIP w; Interval := Interval w;
            OnChange := OnChange w; stopCh := ch; stopped := stopped w |}, None)
    | inr msg => (w, Some msg)
    end.

(** [IPWatcher.GetCurrentIP] *)
Definition GetCurrentIP (w : IPWatcher) : string := CurrentIP w.

Section Watcher.

Context {go : GoStdlib}.

(** [IPWatcher.checkIPChange] *)
Definition checkIPChange (w : IPWatcher) (os : list NetInterface + error)
  : IPWatcher * list effect * option error :=
  match DetectLocalIP os with
  | inr err => (w, [Scanned], Some err)
  | inl netInfo =>
      let oldIP := CurrentIP w in
      let newIP := IP_ netInfo in
      if negb (String.eqb oldIP newIP) then
        let w := setCurrentIP w newIP in
        if OnChange w then (w, [Scanned; Called oldIP newIP], None)
        else (w, [Scanned], None)
      else (w, [Scanned], None)
  end.

(** The monitoring loop of [Start], one iteration per event.  A
    [<-w.stopCh] that the channel cannot deliver (it is not closed) is no
    step of the loop; an error of [checkIPChange] is dropped
    ([continue]). *)
Fixpoint monitor (w : IPWatcher) (evs : list event)
  : IPWatcher * list effect * outcome :=
  match evs with
  | [] => (w, [], Running)
  | EvCtxDone err :: _ => (w, [], Returned (Some err))
  | EvStopCh :: rest =>
      match stopCh w with
      | ChanClosed => (w, [], Returned None)
      | _ => monitor w rest
      end
  | EvStop :: rest =>
      match Stop w with
      | (w, Some msg) => (w, [], Panicked msg)
      | (w, None) => monitor w rest
      end
  | EvTick os :: rest =>
      let '(w, fx, _) := checkIPChange w os in
      let '(w, fx', out) := monitor w rest in
      (w, fx ++ fx', out)
  end.

(** [IPWatcher.Start]: [os0] is what the interfaces are when the initial
    address is detected, [evs] what happens afterwards.  The ticker is
    made after the initial address is stored: with an interval that is
    not positive [Start] panics there, before the loop. *)
Definition Start (w : IPWatcher) (os0 : list NetInterface + error) (evs : list event)
  : IPWatcher * list effect * outcome :=
  if stopped w then (w, [], Returned None)
  else
    match DetectLocalIP os0 with
    | inr err => (w, [Scanned], Returned (Some err))
    | inl netInfo =>
        let w := setCurrentIP w (IP_ netInfo) in
        match NewTicker (Interval w) with
        | Some msg => (w, [Scanned], Panicked msg)
        | None =>
            let '(w, fx, out) := monitor w evs in
            (w, Scanned :: fx, out)
        end
    end.

End Watcher.

(** ** Package [cmd]: the URL rewrite of the start command *)

(** [transformURL] *)
Definition transformURL (url newIP : string) : string :=
  let url := strings.ReplaceAll url "localhost" newIP in
  let url := strings.ReplaceAll url "127.0.0.1" newIP in
  url.

(** ** Package [internal/env]: merge and backup of the env file *)

(** [EnvVar], as the start command builds it and the tests of the package
    read it. *)
Record EnvVar := mkEnvVar {
  Key : string;
  Value : string;
  Managed : bool
}.

(** [EnvWriter] with the two fields its tests set and read. *)
Record EnvWriter := mkEnvWriter {
  FilePath : string;
  BackupEnabled : bool
}.

(** The files the writer works on: their contents by path, the paths the
    process may not read or write, and the writes done so far, oldest
    first. *)
Record FileSystem := mkFileSystem {
  files : gmap string string;
  denied : gset string;
  written : list (string * string)
}.

Inductive fsError :=
| ErrNotExist (path : string)
| ErrPermission (path : string)
| ErrIO (path : string).             (* a write or close that failed on the open file *)

(** [os.ReadFile] *)
Definition ReadFile (fs : FileSystem) (path : string) : string + fsError :=
  match files fs !! path with
  | None => inr (ErrNotExist path)
  | Some content =>
      if decide (path ∈ denied fs) then inr (ErrPermission path) else inl content
  end.

(** How the write of [os.WriteFile] goes once the file is open: it
    completes, or it fails after [n] bytes (all of them, when it is the
    close that fails). *)
Inductive writeOutcome :=
| WriteCompletes
| WriteFailsAfter (n : nat).

(** [os.WriteFile]: [OpenFile] with [O_WRONLY|O_CREATE|O_TRUNC], then
    [Write] and [Close]; the result is the file system after the call
    and the error.  When the file cannot be opened nothing changes.
    Once it is open its old content is gone: a write that fails leaves
    the file with the bytes written by then. *)
Definition os_WriteFile (fs : FileSystem) (path content : string)
           (outcome : writeOutcome) : FileSystem * option fsError :=
  if decide (path ∈ denied fs) then (fs, Some (ErrPermission path))
  else
    match outcome with
    | WriteCompletes =>
        ({| files := <[path := content]> (files fs);
            denied := denied fs;
            written := written fs ++ [(path, content)] |}, None)
    | WriteFailsAfter n =>
        ({| files := <[path := substring 0 n content]> (files fs);
            denied := denied fs;
            written := written fs ++ [(path, substring 0 n content)] |},
         Some (ErrIO path))
    end.

(** Modelled from the spec: the write of a whole file by the env writer
    of package [internal/env], whose source file is missing.  Section 7
    has a write that cannot be done leave no partial file: the writer's
    write is an [os.WriteFile] that, once the file is open, completes. *)
Definition WriteFile (fs : FileSystem) (path content : string)
  : FileSystem * option fsError :=
  os_WriteFile fs path content WriteCompletes.

Definition keyIn (k : string) (vars : list EnvVar) : bool :=
  existsb (fun v => String.eqb (Key v) k) vars.

Definition markManaged (v : EnvVar) : EnvVar :=
  {| Key := Key v; Value := Value v; Managed := true |}.

(** Modelled from the spec: [EnvWriter.Merge] of package [internal/env],
    whose source file is missing (its test [TestEnvWriter_Merge] is at
    hand).  Section 4.6: every key of the new managed set carries the new
    value and is marked managed; an existing key that is absent from the
    new set and was not managed is kept with its value, in its order;
    a managed key absent from the new set is dropped.  The new variables
    come first, as in the merge example of section 8. *)
Definition Merge (newVars existing : list EnvVar) : list EnvVar :=
  map markManaged newVars ++
  filter (fun v => negb (Managed v) && negb (keyIn (Key v) newVars)) existing.

(** Modelled from the spec: [NewEnvWriter] of package [internal/env],
    whose source file is missing; [TestNewEnvWriter] has it keep the path
    and enable the backup. *)
Definition NewEnvWriter (filePath : string) : EnvWriter :=
  {| FilePath := filePath; BackupEnabled := true |}.

Definition backupPath (w : EnvWriter) : string := FilePath w +:+ ".bak".

(** Modelled from the spec: [EnvWriter.Backup] of package [internal/env],
    whose source file is missing.  Sections 4.6 and 6: the current content of the
    file is copied to the sibling path [<output path>.bak]; when no file
    exists yet the step is a no-op, not an error. *)
Definition Backup (w : EnvWriter) (fs : FileSystem) : FileSystem * option fsError :=
  match files fs !! FilePath w with
  | None => (fs, None)
  | Some _ =>
      match ReadFile fs (FilePath w) with
      | inr err => (fs, Some err)
      | inl content => WriteFile fs (backupPath w) content
      end
  end.

Fixpoint managedLines (vars : list EnvVar) : string :=
  match vars with
  | [] => EmptyString
  | v :: rest =>
      (if Managed v
       then "# lanup:managed" +:+
            String "010" (Key v +:+ "=" +:+ Value v +:+ String "010" EmptyString)
       else EmptyString) +:+ managedLines rest
  end.

Fixpoint userLines (vars : list EnvVar) : string :=
  match vars with
  | [] => EmptyString
  | v :: rest =>
      (if Managed v then EmptyString
       else Key v +:+ "=" +:+ Value v +:+ String "010" EmptyString) +:+ userLines rest
  end.

(** Modelled from the spec: the text [EnvWriter.Write] of package
    [internal/env] produces, its source file being missing (section 6): a header with the generation time and the instruction not
    to edit managed lines, each managed variable behind its marker line,
    and the preserved user variables behind a separator comment. *)
Definition formatEnvFile (timestamp : string) (vars : list EnvVar) : string :=
  "# Generated by lanup on " +:+ timestamp +:+ String "010"
  ("# Do not edit the managed variables manually" +:+ String "010" (String "010"
  (managedLines vars +:+
   (if forallb Managed vars then EmptyString
    else String "010" ("# User variables (preserved)" +:+ String "010" (userLines vars)))))).

(** Modelled from the spec: [EnvWriter.Write] of package [internal/env],
    whose source file is missing.  Section 4.6: before the file is overwritten the backup
    step runs; a failure is surfaced and nothing is written.
    [TestEnvWriter_Write_WithBackup] turns [BackupEnabled] on before it
    writes, and the step is taken to depend on that switch. *)
Definition Write (w : EnvWriter) (timestamp : string) (vars : list EnvVar)
           (fs : FileSystem) : FileSystem * option fsError :=
  let backedUp := if BackupEnabled w then Backup w fs else (fs, None) in
  match backedUp with
  | (fs, Some err) => (fs, Some err)
  | (fs, None) => WriteFile fs (FilePath w) (formatEnvFile timestamp vars)
  end.

(** A standard library to run the model with: names and addresses of the
    examples are ASCII and IPv4, so the parameters are never reached. *)
Definition plainGo : GoStdlib :=
  {| unicodeToLower := fun s => s;
     formatIPv6 := fun _ => EmptyString |}.

(** A wifi interface, up, with the address 192.168.1.d. *)
Definition wlan0 (d : byte) : NetInterface :=
  mkNetInterface "wlan0" 3 (inl [IPNet [xc0; xa8; x01; d]]).

(** ** The design document's statements, as definitions *)

(** The three ranks of the policy, each by the first match in the order
    of the input. *)
Definition selectByPolicy (l : list NetworkInfo) : option NetworkInfo :=
  match List.find isWifiOrEthernet l with
  | Some i => Some i
  | None =>
      match List.find (fun i => negb (isVirtual i)) l with
      | Some i => Some i
      | None => List.find isVirtual l
      end
  end.

(** The rule table of the design document: the name prefixes (and the one
    substring) of each class, matched against the lowered name. *)
Definition virtualPrefixes : list string :=
  ["docker"; "veth"; "br-"; "virbr"; "vmnet"; "vbox"].
Definition wifiPrefixes : list string := ["wlan"; "wl"; "wifi"].
Definition wifiSubstring : string := "wi-fi".
Definition ethernetPrefixes : list string :=
  ["eth"; "en"; "em"; "eno"; "enp"; "ens"].

Definition matchesPrefix (prefixes : list string) (nameLower : string) : Prop :=
  exists p, p ∈ prefixes /\ strings.HasPrefix nameLower p = true.

Definition virtualRule (nameLower : string) : Prop :=
  matchesPrefix virtualPrefixes nameLower.
Definition wifiRule (nameLower : string) : Prop :=
  matchesPrefix wifiPrefixes nameLower \/
  strings.Contains nameLower wifiSubstring = true.
Definition ethernetRule (nameLower : string) : Prop :=
  matchesPrefix ethernetPrefixes nameLower.

(** Two names that differ at most in the case of their ASCII letters. *)
Definition sameUpToCase (n1 n2 : string) : Prop :=
  strings.lowerBytes n1 = strings.lowerBytes n2.

(** The callback invocations of a trace, oldest first. *)
Fixpoint callbacks (fx : list effect) : list (string * string) :=
  match fx with
  | [] => []
  | Called oldIP newIP :: rest => (oldIP, newIP) :: callbacks rest
  | Scanned :: rest => callbacks rest
  end.

(** The number of poll ticks among the events. *)
Fixpoint ticks (evs : list event) : nat :=
  match evs with
  | [] => 0
  | EvTick _ :: rest => S (ticks rest)
  | _ :: rest => ticks rest
  end.

Definition stateOf {A} (r : IPWatcher * list effect * A) : IPWatcher := fst (fst r).
Definition traceOf {A} (r : IPWatcher * list effect * A) : list effect := snd (fst r).
Definition outcomeOf (r : IPWatcher * list effect * outcome) : outcome := snd r.

(** The existing variables the merge keeps: not managed, key not in the
    new set. *)
Definition preserved (newVars existing : list EnvVar) : list EnvVar :=
  filter (fun e => negb (Managed e) && negb (keyIn (Key e) newVars)) existing.

(** An IPv4 address as a 32-bit number, and the three RFC 1918 blocks as
    the design document lists them, by their first and last address. *)
Definition quad (a b c d : N) : N := ((a * 256 + b) * 256 + c) * 256 + d.

Definition ipv4Value (a b c d : byte) : N :=
  quad (Byte.to_N a) (Byte.to_N b) (Byte.to_N c) (Byte.to_N d).

Definition inRFC1918 (a b c d : byte) : Prop :=
  quad 10 0 0 0 <= ipv4Value a b c d <= quad 10 255 255 255 \/
  quad 172 16 0 0 <= ipv4Value a b c d <= quad 172 31 255 255 \/
  quad 192 168 0 0 <= ipv4Value a b c d <= quad 192 168 255 255.

(** A byte that the text of an address can hold: a hexadecimal digit, a
    dot or a colon. *)
Definition addressChar (c : ascii) : bool :=
  match hexValue c with
  | Some _ => true
  | None => isDot c || Ascii.eqb c ":"
  end.

Fixpoint addressChars (s : string) : bool :=
  match s with
  | EmptyString => true
  | String c t => addressChar c && addressChars t
  end.

(** The number of decimal digits [appendDecimal] writes. *)
Definition decimalLen (x : N) : N :=
  if 100 <=? x then 3 else if 10 <=? x then 2 else 1.

Definition digitChar (d : N) : ascii := ascii_of_N (48 + d).

Definition lastDigit (x : byte) : ascii := digitChar (Byte.to_N x mod 10).

(** What the parser has read of the octet it is in. *)
Definition readSoFar (val digLen : N) : string :=
  if digLen =? 0 then EmptyString else appendDecimal val.

Fixpoint dottedTail (octets : list byte) : string :=
  match octets with
  | [] => EmptyString
  | x :: rest => "." +:+ appendDecimal (Byte.to_N x) +:+ dottedTail rest
  end.

(** The state of the parser's loop is sound: nothing read of the octet
    yet, or [digLen] digits read that spell [val] without a leading zero. *)
Definition octetState (val digLen : N) : Prop :=
  (digLen = 0 /\ val = 0) \/ (val <= 255 /\ digLen = decimalLen val).

Definition stepOk (val d : N) : bool :=
  String.eqb (appendDecimal (val * 10 + d))
             (appendDecimal val +:+ String (digitChar d) EmptyString) &&
  (decimalLen (val * 10 + d) =? decimalLen val + 1).

Definition isUp (iface : NetInterface) : Prop := N.land (Flags iface) FlagUp <> 0.
Definition isLoopback (iface : NetInterface) : Prop :=
  N.land (Flags iface) FlagLoopback <> 0.

Section ScannerSpecification.

Context {go : GoStdlib}.

(** The IPv4 address a string denotes for [net.ParseIP] and [To4]. *)
Definition parsedIPv4 (s : string) : option IP :=
  match ParseIP s with
  | Some ip => To4 ip
  | None => None
  end.

(** [info] is the candidate for the address [addr] of [iface]: the
    interface is up, not loopback and lists its addresses, the address is
    an IPv4 address of the private blocks, and [info] carries it in
    dotted decimal with the name and the class of the interface. *)
Definition candidateOf (iface : NetInterface) (addr : Addr) (info : NetworkInfo) : Prop :=
  isUp iface /\ ~ isLoopback iface /\
  (exists addrs, Addrs iface = inl addrs /\ addr ∈ addrs) /\
  exists a b c d,
    To4 (addrIP addr) = Some [a; b; c; d] /\ inRFC1918 a b c d /\
    info = {| IP_ := dotted a b c d; Interface := Name iface;
              Type_ := classifyInterface (Name iface) |}.

(** The candidate the inner loop of the scanner adds for one address, if
    any. *)
Definition candidateFor (name : string) (addr : Addr) : option NetworkInfo :=
  match To4 (addrIP addr) with
  | Some [a; b; c; d] =>
      if privateOctets (Byte.to_N a) (Byte.to_N b)
      then Some {| IP_ := dotted a b c d; Interface := name;
                   Type_ := classifyInterface name |}
      else None
  | _ => None
  end.

(** What one interface contributes to the scan. *)
Definition candidatesFor (iface : NetInterface) : list NetworkInfo :=
  if N.land (Flags iface) FlagUp =? 0 then []
  else if negb (N.land (Flags iface) FlagLoopback =? 0) then []
  else match Addrs iface with
       | inr _ => []
       | inl addrs => omap (candidateFor (Name iface)) addrs
       end.

End ScannerSpecification.

Fixpoint dropBytes (n : nat) (s : string) : string :=
  match n, s with
  | S k, String _ t => dropBytes k t
  | _, _ => s
  end.

(** The design document's wording of the rewrite, to compare [transformURL]
    with: one pass over the value in which every literal occurrence of
    [localhost] and of [127.0.0.1] (leftmost first, not overlapping) is
    replaced by the address, and every other byte is kept. *)
Fixpoint replaceEveryToken (skip : nat) (value newIP : string) : string :=
  match value with
  | EmptyString => EmptyString
  | String c t =>
      match skip with
      | S k => replaceEveryToken k t newIP
      | O =>
          if strings.HasPrefix value "localhost" || strings.HasPrefix value "127.0.0.1"
          then newIP +:+ replaceEveryToken 8 t newIP
          else String c (replaceEveryToken 0 t newIP)
      end
  end.

(** ** The watcher over a whole run *)

(** The callbacks of a run form a chain from [ip]: each is called with
    the address stored before it and a different new one, which the next
    call gets as its old address. *)
Fixpoint chained (ip : string) (calls : list (string * string)) : Prop :=
  match calls with
  | [] => True
  | (oldIP, newIP) :: rest => oldIP = ip /\ newIP <> oldIP /\ chained newIP rest
  end.

(** The address the last call of a chain from [ip] announces. *)
Fixpoint lastAnnounced (ip : string) (calls : list (string * string)) : string :=
  match calls with
  | [] => ip
  | (_, newIP) :: rest => lastAnnounced newIP rest
  end.

(** The stop flag and the stop channel agree, as in a watcher made by
    [NewIPWatcher] and touched by its methods only. *)
Definition consistent (w : IPWatcher) : Prop :=
  (stopped w = false /\ stopCh w = ChanOpen) \/
  (stopped w = true /\ stopCh w = ChanClosed).

(** [w.OnChange = f] for a watcher in hand. *)
Definition setOnChange (w : IPWatcher) (registered : bool) : IPWatcher :=
  {| CurrentIP := CurrentIP w; Interval := Interval w; OnChange := registered;
     stopCh := stopCh w; stopped := stopped w |}.

Section WatcherRun.

Context {go : GoStdlib}.

(** The address stored after polls that find the interfaces [polls], one
    after the other: that of the last poll that detected one. *)
Fixpoint addressAfter (ip : string) (polls : list (list NetInterface + error)) : string :=
  match polls with
  | [] => ip
  | os :: rest =>
      match DetectLocalIP os with
      | inl info => addressAfter (IP_ info) rest
      | inr _ => addressAfter ip rest
      end
  end.

End WatcherRun.

(** ** The letters of [localhost] *)

(** One of the letters of [localhost]. *)
Definition localhostChar (c : ascii) : bool :=
  Ascii.eqb c "l" || Ascii.eqb c "o" || Ascii.eqb c "c" || Ascii.eqb c "a" ||
  Ascii.eqb c "h" || Ascii.eqb c "s" || Ascii.eqb c "t".

Fixpoint allLocalhostChars (s : string) : bool :=
  match s with
  | EmptyString => true
  | String c t => localhostChar c && allLocalhostChars t
  end.

(** A text without any letter of [localhost], as every address in dotted
    decimal notation is. *)
Fixpoint noLocalhostChars (s : string) : bool :=
  match s with
  | EmptyString => true
  | String c t => negb (localhostChar c) && noLocalhostChars t
  end.

(** ** Package [internal/docker]: what the start command reads of it *)

Module docker.

(** [PortMapping] *)
Record PortMapping := mkPortMapping {
  HostPort : Z;
  ContainerPort : Z;
  Protocol : string
}.

(** [DockerService] *)
Record DockerService := mkDockerService {
  ContainerID : string;
  Name : string;
  Ports : list PortMapping
}.

End docker.

(** ** Package [internal/config]: the configuration the start command reads *)

(** [AutoDetectConfig] *)
Record AutoDetectConfig := mkAutoDetectConfig {
  Docker : bool;
  Supabase : bool
}.

(** [ProjectConfig] *)
Record ProjectConfig := mkProjectConfig {
  Vars : gmap string string;
  Output : string;
  AutoDetect : AutoDetectConfig
}.

(** [GlobalConfig]; the two numbers are Go [int]s. *)
Record GlobalConfig := mkGlobalConfig {
  LogPath : string;
  LogLevel : string;
  DefaultPort : Z;
  CheckInterval : Z
}.

(** ** Package [cmd]: the variables of the start command *)

(** [strings.Map(unicode.ToUpper, s)], the path [strings.ToUpper] takes for
    a string with a byte [>= 0x80]; Go's tables, a parameter here. *)
Class GoUpper : Type := { unicodeToUpper : string -> string }.

(** What the outside world answers while [executeStart] collects the
    variables: [docker.IsDockerAvailable()], [docker.GetRunningContainers()]
    and [docker.GetSupabaseStatus()], the services of the last in the order
    in which the [range] over the map yields them. *)
Record Detected := mkDetected {
  dockerAvailable : bool;
  runningContainers : list docker.DockerService + error;
  supabaseStatus : list (string * Z) + error
}.

(** [fmt.Sprintf("%d", n)] *)
Definition formatInt (n : Z) : string := NilZero.string_of_int (Z.to_int n).

(** [fmt.Sprintf("http://localhost:%d", port)] *)
Definition localURL (port : Z) : string := "http://localhost:" +:+ formatInt port.

Section StartVariables.

Context {up : GoUpper}.

(** [strings.ToUpper]: an all-ASCII string is raised byte by byte. *)
Definition ToUpper (s : string) : string :=
  if strings.isASCII s then strings.upperBytes s else unicodeToUpper s.

(** [fmt.Sprintf("DOCKER_%s_PORT", strings.ToUpper(strings.ReplaceAll(name, "-", "_")))] *)
Definition dockerVarName (name : string) : string :=
  "DOCKER_" +:+ ToUpper (strings.ReplaceAll name "-" "_") +:+ "_PORT".

(** [fmt.Sprintf("SUPABASE_%s_PORT", strings.ToUpper(strings.ReplaceAll(name, "_", "_")))] *)
Definition supabaseVarName (name : string) : string :=
  "SUPABASE_" +:+ ToUpper (strings.ReplaceAll name "_" "_") +:+ "_PORT".

(** [for _, port := range container.Ports { vars[varName] = ... }] *)
Fixpoint addPorts (name : string) (ports : list docker.PortMapping)
         (vars : gmap string string) : gmap string string :=
  match ports with
  | [] => vars
  | port :: rest =>
      addPorts name rest (<[dockerVarName name := localURL (docker.HostPort port)]> vars)
  end.

(** [for _, container := range containers { ... }] *)
Fixpoint addContainers (containers : list docker.DockerService)
         (vars : gmap string string) : gmap string string :=
  match containers with
  | [] => vars
  | container :: rest =>
      addContainers rest (addPorts (docker.Name container) (docker.Ports container) vars)
  end.

(** [for serviceName, port := range services { vars[varName] = ... }] *)
Fixpoint addServices (services : list (string * Z))
         (vars : gmap string string) : gmap string string :=
  match services with
  | [] => vars
  | (serviceName, port) :: rest =>
      addServices rest (<[supabaseVarName serviceName := localURL port]> vars)
  end.

(** The first part of [executeStart]: the variables of the configuration
    (the loop that copies them into a new map gives that map again), then
    those of the containers, then those of the Supabase services.  A
    detection that is switched off, unavailable or fails adds nothing. *)
Definition collectVars (projectConfig : ProjectConfig) (found : Detected)
  : gmap string string :=
  let vars := Vars projectConfig in
  let vars :=
    if Docker (AutoDetect projectConfig) then
      if dockerAvailable found then
        match runningContainers found with
        | inr _ => vars
        | inl containers => addContainers containers vars
        end
      else vars
    else vars in
  let vars :=
    if Supabase (AutoDetect projectConfig) then
      match supabaseStatus found with
      | inr _ => vars
      | inl services => addServices services vars
      end
    else vars in
  vars.

End StartVariables.

(** The loop of [executeStart] that rewrites the collected variables:
    [order] is the sequence in which the [range] over the map yields its
    entries. *)
Fixpoint transformVars (order : list (string * string)) (ip : string) : list EnvVar :=
  match order with
  | [] => []
  | (key, value) :: rest =>
      {| Key := key; Value := transformURL value ip; Managed := true |}
        :: transformVars rest ip
  end.

(** The value assigned last to [key] in a sequence of assignments. *)
Fixpoint lastAssigned (key : string) (assignments : list (string * string))
  : option string :=
  match assignments with
  | [] => None
  | (k, v) :: rest =>
      match lastAssigned key rest with
      | Some v' => Some v'
      | None => if String.eqb k key then Some v else None
      end
  end.

Section StartVariablesSpecification.

Context {up : GoUpper}.

(** The assignments the start command makes for the containers, in its
    order: container by container, port by port. *)
Definition dockerAssignments (containers : list docker.DockerService)
  : list (string * string) :=
  flat_map (fun c => map (fun p => (dockerVarName (docker.Name c),
                                    localURL (docker.HostPort p)))
                         (docker.Ports c))
           containers.

Definition supabaseAssignments (services : list (string * Z)) : list (string * string) :=
  map (fun '(n, p) => (supabaseVarName n, localURL p)) services.

(** All the assignments of a run of the collection, in their order. *)
Definition detectedAssignments (projectConfig : ProjectConfig) (found : Detected)
  : list (string * string) :=
  (if Docker (AutoDetect projectConfig) && dockerAvailable found then
     match runningContainers found with
     | inl containers => dockerAssignments containers
     | inr _ => []
     end
   else []) ++
  (if Supabase (AutoDetect projectConfig) then
     match supabaseStatus found with
     | inl services => supabaseAssignments services
     | inr _ => []
     end
   else []).

End StartVariablesSpecification.

(** One assignment [vars[key] = value] *)
Definition assign (vars : gmap string string) (kv : string * string) : gmap string string :=
  <[kv.1 := kv.2]> vars.

(** The upper-casing to run the model with: the names of the examples are
    ASCII, so the parameter is never reached. *)
Definition plainUpper : GoUpper := {| unicodeToUpper := fun s => s |}.

(** ** Package [pkg/errors] and the exit status of the process *)

(** Go's [error] interface: a value with an [Error()] method. *)
Class GoError (E : Type) : Type := { Error : E -> string }.

(** The messages of the errors of package [internal/net]. *)
Fixpoint errorMessage (err : error) : string :=
  match err with
  | ErrOS msg => msg
  | ErrNew msg => msg
  | ErrWrap msg cause => msg +:+ ": " +:+ errorMessage cause
  | ErrCanceled => "context canceled"
  | ErrDeadlineExceeded => "context deadline exceeded"
  end.

#[export] Instance error_GoError : GoError error := {| Error := errorMessage |}.

(** [ErrorCode], an [int]; the constants count from [iota + 1]. *)
Definition ErrorCode : Type := Z.
Definition ErrNoNetwork : ErrorCode := 1%Z.
Definition ErrInvalidConfig : ErrorCode := 2%Z.
Definition ErrFileNotFound : ErrorCode := 3%Z.
Definition ErrPermissionDenied : ErrorCode := 4%Z.
Definition ErrInvalidURL : ErrorCode := 5%Z.
Definition ErrDockerUnavailable : ErrorCode := 6%Z.

(** [LanupError]; [Cause] is [None] for the nil error.  [C] is the type of
    the causes. *)
Record LanupError (C : Type) := mkLanupError {
  Code : ErrorCode;
  Message : string;
  Cause : option C
}.
Arguments mkLanupError {C}.
Arguments Code {C}.
Arguments Message {C}.
Arguments Cause {C}.

(** [NewError] *)
Definition NewError {C} (code : ErrorCode) (msg : string) (cause : option C)
  : LanupError C :=
  {| Code := code; Message := msg; Cause := cause |}.

(** [LanupError.Error] *)
Definition LanupError_Error {C} `{GoError C} (e : LanupError C) : string :=
  match Cause e with
  | Some cause => Message e +:+ ": " +:+ Error cause
  | None => Message e
  end.

#[export] Instance LanupError_GoError {C} `{GoError C} : GoError (LanupError C) :=
  {| Error := LanupError_Error |}.

(** [LanupError.ExitCode] *)
Definition ExitCode {C} (e : LanupError C) : Z :=
  if (Code e =? ErrNoNetwork)%Z then 3
  else if (Code e =? ErrInvalidConfig)%Z then 2
  else if (Code e =? ErrFileNotFound)%Z then 1
  else if (Code e =? ErrPermissionDenied)%Z then 4
  else if (Code e =? ErrInvalidURL)%Z then 5
  else if (Code e =? ErrDockerUnavailable)%Z then 1
  else 1.

(** What a command hands to [RootCmd.Execute]: a [*LanupError], or an
    error of another type. *)
Inductive failure (C : Type) :=
| Lanup (e : LanupError C)
| Other (e : error).
Arguments Lanup {C}.
Arguments Other {C}.

#[export] Instance failure_GoError {C} `{GoError C} : GoError (failure C) :=
  {| Error := fun f => match f with Lanup e => Error e | Other e => Error e end |}.

(** A call that may end the process with [os.Exit]. *)
Inductive process (A : Type) :=
| Exit (status : Z)
| Return (a : A).
Arguments Exit {A}.
Arguments Return {A}.

(** [cmd.Execute]; [err] is what [RootCmd.Execute()] returned. *)
Definition Execute {C} (err : option (failure C)) : process (option (failure C)) :=
  match err with
  | Some (Lanup lanupErr) => Exit (ExitCode lanupErr)
  | Some (Other _) => Exit 1
  | None => Return None
  end.

(** ** Package [main] *)

(** The loop of [containsHelper]: [count] iterations are left, [i] is the
    index; [s[i:i+len(substr)]] is in range at each of them. *)
Fixpoint containsLoop (count i : nat) (s substr : string) : bool :=
  match count with
  | O => false
  | S count' =>
      if String.eqb (substring i (String.length substr) s) substr then true
      else containsLoop count' (S i) s substr
  end.

(** [containsHelper]: [i] runs from [0] to [len(s)-len(substr)], so the
    loop is not entered when that is negative. *)
Definition containsHelper (s substr : string) : bool :=
  containsLoop
    (Z.to_nat (Z.of_nat (String.length s) - Z.of_nat (String.length substr) + 1))
    0 s substr.

(** [contains] *)
Definition contains (s substr : string) : bool :=
  (String.length substr <=? String.length s)%nat &&
  (String.eqb s substr || (String.length substr =? 0)%nat ||
   ((0 <? String.length s)%nat && (0 <? String.length substr)%nat &&
    containsHelper s substr)).

(** [getExitCode] *)
Definition getExitCode {E} `{GoError E} (err : option E) : Z :=
  match err with
  | None => 0
  | Some err =>
      let errMsg := Error err in
      if contains errMsg "config" || contains errMsg "configuration" then 2
      else if contains errMsg "network" || contains errMsg "interface"
              || contains errMsg "IP" then 3
      else if contains errMsg "permission" || contains errMsg "denied" then 4
      else if contains errMsg "invalid" || contains errMsg "validation" then 5
      else 1
  end%Z.

(** [main]: the exit status of the process, [err] being what the root
    command returned. *)
Definition main {C} `{GoError C} (err : option (failure C)) : Z :=
  match Execute err with
  | Exit status => status
  | Return (Some err) => getExitCode (Some err)
  | Return None => 0
  end.

(** ** Package [internal/logger], as the start command uses it *)

Module logger.

(** [LogLevel] *)
Inductive LogLevel := DEBUG | INFO | WARN | ERROR.

(** The number of a level: [DEBUG LogLevel = iota]. *)
Definition rank (level : LogLevel) : N :=
  match level with DEBUG => 0 | INFO => 1 | WARN => 2 | ERROR => 3 end.

(** The value of a field, an [interface{}]: the start command passes
    strings, integers and booleans. *)
Inductive Value :=
| StringValue (s : string)
| IntValue (n : Z)
| BoolValue (b : bool).

(** [Field] *)
Record Field := mkField {
  Key : string;
  Value_ : Value
}.

(** [Logger]; [file] is whether a log file is open ([false] is nil). *)
Record Logger := mkLogger {
  Level : LogLevel;
  FilePath : string;
  MaxSize : Z;
  MaxBackups : Z;
  Console : bool;
  Colors : bool;
  file : bool;
  size : Z
}.

(** What [Logger.log] does with an entry that the level lets through:
    it formats the entry with the time of the call, appends it to the
    open log file, counts its bytes, rotates the log file and its
    backups when the size has reached [MaxSize], and prints the entry
    when [Console] is set.  The clock, the outcome of the write and the
    listing of the backups by modification time are the operating
    system's: this step is a parameter of the development, from the
    logger and the files before it to the logger and the files after
    it, and every property holds whatever it does. *)
Class LogOutput : Type := {
  emit : Logger -> LogLevel -> string -> list Field -> FileSystem -> Logger * FileSystem
}.

Section Log.

Context {out : LogOutput}.

(** [Logger.log], which [Logger.Info] and [Logger.Warn] call with their
    level: an entry below the level of the logger is dropped before
    anything is done; of the logger itself only [file] and [size] are
    ever assigned. *)
Definition log (l : Logger) (level : LogLevel) (msg : string) (fields : list Field)
           (fs : FileSystem) : Logger * FileSystem :=
  if rank level <? rank (Level l) then (l, fs)
  else
    let '(l', fs) := emit l level msg fields fs in
    ({| Level := Level l; FilePath := FilePath l; MaxSize := MaxSize l;
        MaxBackups := MaxBackups l; Console := Console l; Colors := Colors l;
        file := file l'; size := size l' |}, fs).

End Log.

End logger.

(** A log output to run the model with: the message and a line feed are
    appended to the log file, and counted. *)
Definition plainLog : logger.LogOutput :=
  {| logger.emit := fun l level msg fields fs =>
       let path := logger.FilePath l in
       let entry := msg +:+ String "010" EmptyString in
       ({| logger.Level := logger.Level l; logger.FilePath := path;
           logger.MaxSize := logger.MaxSize l; logger.MaxBackups := logger.MaxBackups l;
           logger.Console := logger.Console l; logger.Colors := logger.Colors l;
           logger.file := logger.file l;
           logger.size := (logger.size l + Z.of_nat (String.length entry))%Z |},
        {| files := <[path := default EmptyString (files fs !! path) +:+ entry]> (files fs);
           denied := denied fs;
           written := written fs ++ [(path, entry)] |}) |}.

(** ** Package [cmd]: the start command *)

(** [StartCmd]; [logger] is [None] for the nil pointer. *)
Record StartCmd := mkStartCmd {
  Watch : bool;
  NoEnv : bool;
  DryRun : bool;
  Log : bool;
  logger : option logger.Logger
}.

(** A logger that drops what [executeStart] logs, which is of level
    [INFO] or [WARN]: there is none, or its level is [ERROR]. *)
Definition quiet (l : option logger.Logger) : Prop :=
  l = None \/ exists l', l = Some l' /\ logger.Level l' = logger.ERROR.

(** The logger of [c] after a call has changed the one it points to. *)
Definition setLogger (c : StartCmd) (l : option logger.Logger) : StartCmd :=
  {| Watch := Watch c; NoEnv := NoEnv c; DryRun := DryRun c; Log := Log c;
     logger := l |}.

(** A 64-bit signed integer: the value an arithmetic result wraps to. *)
Definition int64 (z : Z) : Z := ((z + 2 ^ 63) mod 2 ^ 64 - 2 ^ 63)%Z.

(** The check interval of [watchMode], a [time.Duration] in nanoseconds;
    [globalCfg] is [None] for the nil pointer.  [int] has 64 bits. *)
Definition watchInterval (globalCfg : option GlobalConfig) : Z :=
  let interval := (5 * second)%Z in
  match globalCfg with
  | Some cfg =>
      if (0 <? CheckInterval cfg)%Z
      then int64 (CheckInterval cfg * second)
      else interval
  | None => interval
  end.

Section Start.

Context {go : GoStdlib} {up : GoUpper} {out : logger.LogOutput}.

(** The order in which [for key, value := range vars] yields the entries
    of the collected map. *)
Variable rangeVars : gmap string string -> list (string * string).

(** [if c.logger != nil { c.logger.Info(msg, fields...) }], and the same
    with [Warn]; [level] is [INFO] or [WARN] accordingly.  The call is
    skipped without a logger. *)
Definition logged (l : option logger.Logger) (level : logger.LogLevel) (msg : string)
           (fields : list logger.Field) (fs : FileSystem)
  : option logger.Logger * FileSystem :=
  match l with
  | None => (None, fs)
  | Some l =>
      let '(l, fs) := logger.log l level msg fields fs in (Some l, fs)
  end.

(** [StartCmd.executeStart].  The answers of the outside world are
    arguments: the interfaces [os], the detections [found], what
    [envWriter.Read()] returns ([existing]) and the time of the write.
    The result is the command with its logger and the file system behind
    the call, and the error returned; the calls of the logger are made
    where the code makes them, what is printed is left out. *)
Definition executeStart (c : StartCmd) (projectConfig : ProjectConfig)
           (os : list NetInterface + error) (found : Detected)
           (existing : list EnvVar + fsError) (timestamp : string)
           (fs : FileSystem)
  : StartCmd * FileSystem * option (LanupError (error + fsError)) :=
  match DetectLocalIP os with
  | inr err =>
      (c, fs, Some (NewError ErrNoNetwork "Failed to detect local IP address"
                             (Some (inl err))))
  | inl netInfo =>
      let '(l, fs) :=
        logged (logger c) logger.INFO "Detected IP"
               [logger.mkField "ip" (logger.StringValue (IP_ netInfo));
                logger.mkField "interface" (logger.StringValue (Interface netInfo));
                logger.mkField "type" (logger.StringValue (Type_ netInfo))] fs in
      (* collect variables from configuration *)
      let vars := Vars projectConfig in
      (* Docker auto-detection *)
      let '(vars, l, fs) :=
        if Docker (AutoDetect projectConfig) then
          if dockerAvailable found then
            match runningContainers found with
            | inr err =>
                let '(l, fs) :=
                  logged l logger.WARN "Failed to get Docker containers"
                         [logger.mkField "error" (logger.StringValue (Error err))] fs in
                (vars, l, fs)
            | inl containers =>
                let '(l, fs) :=
                  logged l logger.INFO "Detected Docker containers"
                         [logger.mkField "count"
                            (logger.IntValue (Z.of_nat (length containers)))] fs in
                (addContainers containers vars, l, fs)
            end
          else (vars, l, fs)
        else (vars, l, fs) in
      (* Supabase auto-detection *)
      let '(vars, l, fs) :=
        if Supabase (AutoDetect projectConfig) then
          match supabaseStatus found with
          | inr err =>
              let '(l, fs) :=
                logged l logger.WARN "Failed to get Supabase status"
                       [logger.mkField "error" (logger.StringValue (Error err))] fs in
              (vars, l, fs)
          | inl services =>
              let '(l, fs) :=
                logged l logger.INFO "Detected Supabase services"
                       [logger.mkField "count"
                          (logger.IntValue (Z.of_nat (length services)))] fs in
              (addServices services vars, l, fs)
          end
        else (vars, l, fs) in
      let transformedVars := transformVars (rangeVars vars) (IP_ netInfo) in
      if NoEnv c || DryRun c then (setLogger c l, fs, None)
      else
        let envWriter := NewEnvWriter (Output projectConfig) in
        match existing with
        | inr err =>
            (setLogger c l, fs,
             Some (NewError ErrFileNotFound "Failed to read existing env file"
                            (Some (inr err))))
        | inl existingVars =>
            let mergedVars := Merge transformedVars existingVars in
            match Write envWriter timestamp mergedVars fs with
            | (fs, Some err) =>
                (setLogger c l, fs,
                 Some (NewError ErrPermissionDenied "Failed to write env file"
                                (Some (inr err))))
            | (fs, None) =>
                let '(l, fs) :=
                  logged l logger.INFO "Updated env file"
                         [logger.mkField "path" (logger.StringValue (Output projectConfig));
                          logger.mkField "vars"
                            (logger.IntValue (Z.of_nat (length transformedVars)))] fs in
                (setLogger c l, fs, None)
            end
        end
  end.

(** The entries [executeStart] hands to its logger between the detection
    of the address and its work on the env file, in the order of the
    calls. *)
Definition detectionEntries (projectConfig : ProjectConfig) (found : Detected)
           (netInfo : NetworkInfo)
  : list (logger.LogLevel * string * list logger.Field) :=
  [(logger.INFO, "Detected IP",
    [logger.mkField "ip" (logger.StringValue (IP_ netInfo));
     logger.mkField "interface" (logger.StringValue (Interface netInfo));
     logger.mkField "type" (logger.StringValue (Type_ netInfo))])] ++
  (if Docker (AutoDetect projectConfig) && dockerAvailable found then
     match runningContainers found with
     | inr err =>
         [(logger.WARN, "Failed to get Docker containers",
           [logger.mkField "error" (logger.StringValue (Error err))])]
     | inl containers =>
         [(logger.INFO, "Detected Docker containers",
           [logger.mkField "count" (logger.IntValue (Z.of_nat (length containers)))])]
     end
   else []) ++
  (if Supabase (AutoDetect projectConfig) then
     match supabaseStatus found with
     | inr err =>
         [(logger.WARN, "Failed to get Supabase status",
           [logger.mkField "error" (logger.StringValue (Error err))])]
     | inl services =>
         [(logger.INFO, "Detected Supabase services",
           [logger.mkField "count" (logger.IntValue (Z.of_nat (length services)))])]
     end
   else []).

(** The entry of a run that has written the env file. *)
Definition updatedEntry (projectConfig : ProjectConfig) (transformedVars : list EnvVar)
  : logger.LogLevel * string * list logger.Field :=
  (logger.INFO, "Updated env file",
   [logger.mkField "path" (logger.StringValue (Output projectConfig));
    logger.mkField "vars" (logger.IntValue (Z.of_nat (length transformedVars)))]).

(** The calls of the logger for a sequence of entries, one after the
    other. *)
Fixpoint logAll (l : option logger.Logger)
         (entries : list (logger.LogLevel * string * list logger.Field))
         (fs : FileSystem) : option logger.Logger * FileSystem :=
  match entries with
  | [] => (l, fs)
  | (level, msg, fields) :: rest =>
      let '(l, fs) := logged l level msg fields fs in logAll l rest fs
  end.

End Start.

(** ** Package [internal/config]: validation and defaults of the project
    configuration *)

(** The loop of [ProjectConfig.Validate] over the variables, in the order
    in which the [range] yields them. *)
Fixpoint validateVars (order : list (string * string)) : option error :=
  match order with
  | [] => None
  | (key, value) :: rest =>
      if String.eqb key "" then Some (ErrNew "variable key cannot be empty")
      else if String.eqb value ""
           then Some (ErrNew ("variable " +:+ key +:+ " has empty value"))
           else validateVars rest
  end.

(** [ProjectConfig.Validate]; a nil [Vars] and the empty map it is
    replaced by are the same map here, so the configuration is not
    changed. *)
Definition ProjectConfig_Validate (rangeVars : gmap string string -> list (string * string))
           (c : ProjectConfig) : option error :=
  if String.eqb (Output c) "" then Some (ErrNew "output file path cannot be empty")
  else validateVars (rangeVars (Vars c)).

(** [GetDefaultProjectConfig] *)
Definition GetDefaultProjectConfig : ProjectConfig :=
  {| Vars := <["SUPABASE_URL" := "http://localhost:54321"]>
             (<["SUPABASE_ANON_KEY" := "your-anon-key"]>
             (<["API_URL" := "http://localhost:8000"]>
             (<["DASHBOARD_URL" := "http://localhost:3000"]> ∅)));
     Output := ".env.local";
     AutoDetect := {| Docker := true; Supabase := true |} |}.

(** What [SaveProjectConfig] fails with. *)
Inductive saveError :=
| SaveInvalid (cause : error)      (* "invalid configuration: %w" *)
| SaveMarshal (cause : error)      (* "failed to marshal config: %w" *)
| SaveWrite (cause : fsError).     (* "failed to write config file: %w" *)

Section ProjectFile.

Variable rangeVars : gmap string string -> list (string * string).

(** [yaml.Marshal] of a project configuration *)
Variable marshal : ProjectConfig -> string + error.

(** [SaveProjectConfig]; [outcome] is how the write goes once the file
    is open. *)
Definition SaveProjectConfig (path : string) (config : ProjectConfig)
           (outcome : writeOutcome) (fs : FileSystem)
  : FileSystem * option saveError :=
  let path := if String.eqb path "" then ".lanup.yaml" else path in
  match ProjectConfig_Validate rangeVars config with
  | Some err => (fs, Some (SaveInvalid err))
  | None =>
      match marshal config with
      | inr err => (fs, Some (SaveMarshal err))
      | inl data =>
          match os_WriteFile fs path data outcome with
          | (fs, Some err) => (fs, Some (SaveWrite err))
          | (fs, None) => (fs, None)
          end
      end
  end.

(** [InitCmd] *)
Record InitCmd := mkInitCmd {
  Format : string;
  Force : bool
}.

(** [InitCmd.Run]: the file system behind the call and the error
    returned; [os.Stat] succeeds on a path that holds a file, [outcome]
    is how the write of the file goes once it is open.  What is printed
    is left out. *)
Definition InitCmd_Run (c : InitCmd) (outcome : writeOutcome) (fs : FileSystem)
  : FileSystem * option (LanupError saveError) :=
  if negb (String.eqb (Format c) "yaml") && negb (String.eqb (Format c) "toml") then
    (fs, Some (NewError ErrInvalidConfig
                 ("Unsupported format: " +:+ Format c +:+ " (supported: yaml, toml)")
                 None))
  else if String.eqb (Format c) "toml" then
    (fs, Some (NewError ErrInvalidConfig
                 "TOML format is not yet supported, please use yaml" None))
  else
    let configPath := ".lanup.yaml" in
    if bool_decide (is_Some (files fs !! configPath)) && negb (Force c) then
      (fs, Some (NewError ErrFileNotFound
                   ("Configuration file already exists at " +:+ configPath +:+
                    String "010" "Use --force to overwrite")
                   None))
    else
      let defaultConfig := GetDefaultProjectConfig in
      match SaveProjectConfig configPath defaultConfig outcome fs with
      | (fs, Some err) =>
          (fs, Some (NewError ErrPermissionDenied
                       "Failed to create configuration file" (Some err)))
      | (fs, None) => (fs, None)
      end.

End ProjectFile.

(** ** Package [cmd]: the doctor command *)

Module doctor.

(** [HealthCheck] *)
Record HealthCheck := mkHealthCheck {
  Name : string;
  Status : bool;
  Message : string
}.

Section Checks.

Context {go : GoStdlib}.

(** [checkNetworkInterfaces] *)
Definition checkNetworkInterfaces (os : list NetInterface + error) : HealthCheck :=
  match DetectLocalIP os with
  | inr err =>
      {| Name := "Network Interfaces"; Status := false;
         Message := "Failed to detect local IP: " +:+ Error err |}
  | inl netInfo =>
      {| Name := "Network Interfaces"; Status := true;
         Message := "Detected IP: " +:+ IP_ netInfo +:+ " on interface " +:+
                    Interface netInfo +:+ " (" +:+ Type_ netInfo +:+ ")" |}
  end.

(** [checkDocker] *)
Definition checkDocker (found : Detected) : HealthCheck :=
  if negb (dockerAvailable found) then
    {| Name := "Docker"; Status := false;
       Message := "Docker is not installed or not running" |}
  else
    match runningContainers found with
    | inr err =>
        {| Name := "Docker"; Status := false;
           Message := "Docker is available but failed to list containers: " +:+
                      Error err |}
    | inl containers =>
        if (length containers =? 0)%nat then
          {| Name := "Docker"; Status := true;
             Message := "Docker is running (no containers currently active)" |}
        else
          {| Name := "Docker"; Status := true;
             Message := "Docker is running with " +:+
                        formatInt (Z.of_nat (length containers)) +:+
                        " active container(s)" |}
    end.

(** [checkSupabase] *)
Definition checkSupabase (found : Detected) : HealthCheck :=
  match supabaseStatus found with
  | inr err =>
      {| Name := "Supabase"; Status := false;
         Message := "Supabase local is not running: " +:+ Error err |}
  | inl services =>
      if (length services =? 0)%nat then
        {| Name := "Supabase"; Status := false;
           Message := "Supabase CLI is available but no services detected" |}
      else
        {| Name := "Supabase"; Status := true;
           Message := "Supabase local is running with " +:+
                      formatInt (Z.of_nat (length services)) +:+ " service(s)" |}
  end.

(** The loop of [DoctorCmd.Run] over the checks: [allPassed] behind it. *)
Fixpoint allPassed (passed : bool) (checks : list HealthCheck) : bool :=
  match checks with
  | [] => passed
  | check :: rest => allPassed (if Status check then passed else false) rest
  end.

(** [DoctorCmd.Run]; what is printed is left out. *)
Definition Run (os : list NetInterface + error) (found : Detected)
  : option (LanupError error) :=
  let checks := [checkNetworkInterfaces os; checkDocker found; checkSupabase found] in
  if allPassed true checks then None
  else Some (NewError ErrNoNetwork "Health checks failed" None).

End Checks.

End doctor.

(** ** Package [cmd]: the tail of the log file *)

(** [strings.Split(s, sep)] for a separator of one byte. *)
Fixpoint Split (s : string) (sep : ascii) : list string :=
  match s with
  | EmptyString => [EmptyString]
  | String c t =>
      if Ascii.eqb c sep then EmptyString :: Split t sep
      else match Split t sep with
           | first :: rest => String c first :: rest
           | [] => [String c EmptyString]
           end
  end.

(** An open [*os.File] as [readLastNLines] uses it: [Stat().Size()], and
    [ReadAt] of so many bytes at an offset, which gives the bytes or
    fails. *)
Record File := mkFile {
  Stat : N + error;
  ReadAt : N -> N -> string + error
}.

Definition bufferSize : N := 4096.

Definition newline : ascii := "010"%char.

(** The first loop of [readLastNLines]: chunks are read from the end of
    the file until [n] lines are at hand or the start is reached.  One
    turn lowers [offset], which bounds the turns; [fuel] counts them. *)
Fixpoint readChunks (fuel : nat) (file : File) (n : Z) (lines : list string)
         (buffer : string) (offset : N) : list string + error :=
  match fuel with
  | O => inl lines
  | S fuel' =>
      if (0 <? offset) && (Z.of_nat (length lines) <? n)%Z then
        let readSize := if offset <? bufferSize then offset else bufferSize in
        let offset := offset - readSize in
        match ReadAt file readSize offset with
        | inr err => inr err
        | inl chunk =>
            let buffer := chunk +:+ buffer in
            let allLines := Split buffer newline in
            if 0 <? offset
            then readChunks fuel' file n (tail allLines ++ lines)
                            (hd EmptyString allLines) offset
            else readChunks fuel' file n (allLines ++ lines) EmptyString offset
        end
      else inl lines
  end.

(** The second loop of [readLastNLines], from the last line backwards:
    [reversed] holds the lines still to visit, last first. *)
Fixpoint collectLines (n : Z) (reversed : list string) (result : list string)
  : list string :=
  match reversed with
  | [] => result
  | line :: rest =>
      if (Z.of_nat (length result) <? n)%Z then
        collectLines n rest
          (if negb (String.eqb line EmptyString)
           then (line +:+ String newline EmptyString) :: result
           else result)
      else result
  end.

(** [readLastNLines] *)
Definition readLastNLines (file : File) (n : Z) : list string + error :=
  match Stat file with
  | inr err => inr err
  | inl fileSize =>
      match readChunks (S (N.to_nat fileSize)) file n [] EmptyString fileSize with
      | inr err => inr err
      | inl lines => inl (collectLines n (rev lines) [])
      end
  end.

(** The non-empty lines of a text, each with its newline. *)
Definition printedLines (lines : list string) : list string :=
  map (fun line => line +:+ String newline EmptyString)
      (filter (fun line => line <> EmptyString) lines).

(** The last [k] elements of a list. *)
Definition lastn {A} (k : nat) (l : list A) : list A := drop (length l - k) l.

(** A file that holds [data] and can be read. *)
Definition holds (file : File) (data : string) : Prop :=
  Stat file = inl (N.of_nat (String.length data)) /\
  forall size offset,
    (N.to_nat offset + N.to_nat size <= String.length data)%nat ->
    ReadAt file size offset =
      inl (substring (N.to_nat offset) (N.to_nat size) data).

Definition fileOf (data : string) : File :=
  {| Stat := inl (N.of_nat (String.length data));
     ReadAt := fun size offset =>
                 inl (substring (N.to_nat offset) (N.to_nat size) data) |}.

(** What the first loop keeps: the lines at hand are the lines of the
    text behind [offset], but for the first of them, which is still in
    the buffer while the start of the file is not reached. *)
Definition tailState (data : string) (lines : list string) (buffer : string)
           (offset : N) : Prop :=
  (N.to_nat offset <= String.length data)%nat /\
  ((0 < offset /\ Split (dropBytes (N.to_nat offset) data) newline = buffer :: lines) \/
   (offset = 0 /\ (lines = Split data newline \/ lines = []))).

(** ** Package [internal/docker]: the listing of [docker ps] *)

(** [asciiSpace] of Go's [strings]: tab, newline, vertical tab, form feed,
    carriage return, space. *)
Definition asciiSpace (c : ascii) : bool :=
  let n := strings.byteval c in
  (n =? 9) || (n =? 10) || (n =? 11) || (n =? 12) || (n =? 13) || (n =? 32).

(** [strings.TrimFunc(s, unicode.IsSpace)] and
    [strings.TrimRightFunc(s, unicode.IsSpace)], which [strings.TrimSpace]
    falls back to when it meets a byte [>= 0x80]; Go's tables, a parameter
    here. *)
Class GoSpace : Type := {
  trimFuncSpace : string -> string;
  trimRightFuncSpace : string -> string
}.

(** The second loop of [strings.TrimSpace], which runs from the end of
    [s[start:]]: all of it was ASCII space, or the loop stopped at an
    ASCII byte that is no space and keeps [s[start:stop]], or it met a
    byte [>= 0x80], the last of [s[start:stop]]. *)
Inductive trimmed :=
| AllSpace
| Kept (s : string)
| Wide (s : string).

Fixpoint trimStop (s : string) : trimmed :=
  match s with
  | EmptyString => AllSpace
  | String c t =>
      match trimStop t with
      | AllSpace =>
          if negb (strings.isASCIIbyte c) then Wide (String c EmptyString)
          else if asciiSpace c then AllSpace
          else Kept (String c EmptyString)
      | Kept t' => Kept (String c t')
      | Wide t' => Wide (String c t')
      end
  end.

Section Trim.

Context {sp : GoSpace}.

(** [strings.TrimSpace]; the recursion is its first loop. *)
Fixpoint TrimSpace (s : string) : string :=
  match s with
  | EmptyString => EmptyString
  | String c t =>
      if negb (strings.isASCIIbyte c) then trimFuncSpace s
      else if asciiSpace c then TrimSpace t
      else match trimStop s with
           | AllSpace => EmptyString
           | Kept r => r
           | Wide r => trimRightFuncSpace r
           end
  end.

End Trim.

(** The regular expressions of the package, in the syntax of Go's
    [regexp]: a literal text, [[class]+], [r?], [r1|r2], [r1r2] and a
    capturing group [(r)]; [+] and [?] are greedy. *)
Inductive regex :=
| Lit (text : string)
| Plus (class : ascii -> bool)
| Opt (r : regex)
| Alt (r1 r2 : regex)
| Seq (r1 r2 : regex)
| Capture (r : regex).

(** [[class]+] at the start of [s], the longest run first; [k] is the
    match of what follows in the expression. *)
Fixpoint plusLoop {A} (class : ascii -> bool) (s : string)
         (k : string -> option A) : option A :=
  match s with
  | EmptyString => None
  | String c t =>
      if class c then
        match plusLoop class t k with
        | Some m => Some m
        | None => k t
        end
      else None
  end.

(** The match of [r] at the start of [s] that a backtracking search finds
    first, which is the one Go's [regexp] returns among those that start
    there.  [caps] holds the texts of the groups closed so far, [k] is
    the match of what follows [r]. *)
Fixpoint matchHere {A} (r : regex) (s : string) (caps : list string)
         (k : string -> list string -> option A) : option A :=
  match r with
  | Lit text =>
      if strings.HasPrefix s text then k (dropBytes (String.length text) s) caps
      else None
  | Plus class => plusLoop class s (fun rest => k rest caps)
  | Opt r =>
      match matchHere r s caps k with
      | Some m => Some m
      | None => k s caps
      end
  | Alt r1 r2 =>
      match matchHere r1 s caps k with
      | Some m => Some m
      | None => matchHere r2 s caps k
      end
  | Seq r1 r2 => matchHere r1 s caps (fun rest caps => matchHere r2 rest caps k)
  | Capture r =>
      matchHere r s caps
        (fun rest caps =>
           k rest (caps ++ [substring 0 (String.length s - String.length rest) s]))
  end.

(** [Regexp.FindStringSubmatch] for an expression all of whose groups
    take part in every match: the leftmost match, as the matched text
    followed by the texts of the groups; nil without a match. *)
Fixpoint FindStringSubmatch (re : regex) (s : string) : list string :=
  match matchHere re s []
          (fun rest caps =>
             Some (substring 0 (String.length s - String.length rest) s :: caps)) with
  | Some matches => matches
  | None =>
      match s with
      | EmptyString => []
      | String _ t => FindStringSubmatch re t
      end
  end.

(** [(?:0\.0\.0\.0|:::)?:?(\d+)->(\d+)/(tcp|udp)] *)
Definition portRegex : regex :=
  Seq (Opt (Alt (Lit "0.0.0.0") (Lit ":::")))
 (Seq (Opt (Lit ":"))
 (Seq (Capture (Plus isDigit))
 (Seq (Lit "->")
 (Seq (Capture (Plus isDigit))
 (Seq (Lit "/")
      (Capture (Alt (Lit "tcp") (Lit "udp")))))))).

(** The two errors of [strconv]. *)
Inductive numError :=
| ErrSyntax
| ErrRange.

(** The fast path of [strconv.Atoi], for a text of fewer than 19 bytes:
    [ch -= '0'] is byte arithmetic. *)
Fixpoint atoiDigits (n : Z) (s : string) : option Z :=
  match s with
  | EmptyString => Some n
  | String ch t =>
      let ch := (strings.byteval ch + 256 - 48) mod 256 in
      if 9 <? ch then None else atoiDigits (n * 10 + Z.of_N ch) t
  end.

(** The loop of [strconv.ParseUint(s, 10, 64)]: in base 10 every byte
    that is no digit is a syntax error. *)
Fixpoint parseUintLoop (n : N) (s : string) : N * option numError :=
  let cutoff := 18446744073709551615 / 10 + 1 in
  let maxVal := 18446744073709551615 in
  match s with
  | EmptyString => (n, None)
  | String c t =>
      if isDigit c then
        let d := strings.byteval c - 48 in
        if cutoff <=? n then (maxVal, Some ErrRange)
        else
          let n := n * 10 in
          let n1 := (n + d) mod 2 ^ 64 in
          if (n1 <? n) || (maxVal <? n1) then (maxVal, Some ErrRange)
          else parseUintLoop n1 t
      else (0, Some ErrSyntax)
  end.

(** [strconv.ParseUint(s, 10, 64)] *)
Definition ParseUint (s : string) : N * option numError :=
  match s with
  | EmptyString => (0, Some ErrSyntax)
  | _ => parseUintLoop 0 s
  end.

(** [strconv.ParseInt(s, 10, 0)], [int] having 64 bits *)
Definition ParseInt (s : string) : Z * option numError :=
  match s with
  | EmptyString => (0%Z, Some ErrSyntax)
  | String c t =>
      let neg := Ascii.eqb c "-" in
      let s := if Ascii.eqb c "+" || Ascii.eqb c "-" then t else s in
      match ParseUint s with
      | (_, Some ErrSyntax) => (0%Z, Some ErrSyntax)
      | (un, _) =>
          let cutoff := 2 ^ 63 in
          if negb neg && (cutoff <=? un) then (Z.of_N (cutoff - 1), Some ErrRange)
          else if neg && (cutoff <? un) then (- Z.of_N cutoff, Some ErrRange)%Z
          else ((if neg then - Z.of_N un else Z.of_N un)%Z, None)
      end
  end.

(** [strconv.Atoi], [int] having 64 bits *)
Definition Atoi (s : string) : Z * option numError :=
  if ((0 <? String.length s) && (String.length s <? 19))%nat then
    match s with
    | EmptyString => (0%Z, Some ErrSyntax)
    | String c t =>
        let digits := if Ascii.eqb c "-" || Ascii.eqb c "+" then t else s in
        if (String.length digits <? 1)%nat then (0%Z, Some ErrSyntax)
        else match atoiDigits 0 digits with
             | None => (0%Z, Some ErrSyntax)
             | Some n => ((if Ascii.eqb c "-" then - n else n)%Z, None)
             end
    end
  else ParseInt s.

Section DockerPS.

Context {sp : GoSpace}.

(** The loop of [parsePortMappings] over the parts of the column *)
Fixpoint portMappings (portParts : list string) : list docker.PortMapping :=
  match portParts with
  | [] => []
  | part :: rest =>
      let matches := FindStringSubmatch portRegex (TrimSpace part) in
      if (length matches =? 4)%nat then
        {| docker.HostPort := fst (Atoi (nth 1 matches EmptyString));
           docker.ContainerPort := fst (Atoi (nth 2 matches EmptyString));
           docker.Protocol := nth 3 matches EmptyString |}
          :: portMappings rest
      else portMappings rest
  end.

(** [parsePortMappings] *)
Definition parsePortMappings (portsStr : string) : list docker.PortMapping :=
  if String.eqb (TrimSpace portsStr) "" then []
  else portMappings (Split portsStr ",").

(** The loop of [ParseDockerPS] over the lines *)
Fixpoint dockerServices (lines : list string) : list docker.DockerService :=
  match lines with
  | [] => []
  | line :: rest =>
      let parts := Split line "|" in
      if (length parts <? 3)%nat then dockerServices rest
      else
        {| docker.ContainerID := TrimSpace (nth 0 parts EmptyString);
           docker.Name := TrimSpace (nth 1 parts EmptyString);
           docker.Ports := parsePortMappings (nth 2 parts EmptyString) |}
          :: dockerServices rest
  end.

(** [ParseDockerPS] *)
Definition ParseDockerPS (output : string) : list docker.DockerService + error :=
  if String.eqb (TrimSpace output) "" then inl []
  else inl (dockerServices (Split (TrimSpace output) newline)).

(** [GetRunningContainers]: [available] is what [IsDockerAvailable()]
    answers, [ps] the output of [docker ps] or the error of its run. *)
Definition GetRunningContainers (available : bool) (ps : string + error)
  : list docker.DockerService + error :=
  if negb available then inr (ErrNew "docker is not available")
  else match ps with
       | inr err => inr (ErrWrap "failed to execute docker ps" err)
       | inl out => ParseDockerPS out
       end.

End DockerPS.

(** The trimming to run the model with: the listings of the examples are
    ASCII, so the parameters are never reached. *)
Definition plainSpace : GoSpace :=
  {| trimFuncSpace := fun s => s; trimRightFuncSpace := fun s => s |}.

(** *** The listings the parser is written for *)

(** An entry of the ports column of [docker ps]: a published port, with
    the address it is bound to in front, or an exposed port, which has no
    arrow. *)
Inductive portItem :=
| Published (addr : string) (m : docker.PortMapping)
| Exposed (text : string).

Definition itemText (i : portItem) : string :=
  match i with
  | Published addr m =>
      addr +:+ formatInt (docker.HostPort m) +:+ "->" +:+
      formatInt (docker.ContainerPort m) +:+ "/" +:+ docker.Protocol m
  | Exposed text => text
  end.

(** An ASCII byte that is no space. *)
Definition solid (c : ascii) : bool :=
  strings.isASCIIbyte c && negb (asciiSpace c).

(** A byte of a field of a line: solid and not the separator of the
    fields. *)
Definition fieldChar (c : ascii) : bool := solid c && negb (Ascii.eqb c "|").

(** A byte of an entry of the ports column: it is none of the separators. *)
Definition itemChar (c : ascii) : bool := fieldChar c && negb (Ascii.eqb c ",").

Fixpoint allChars (p : ascii -> bool) (s : string) : bool :=
  match s with
  | EmptyString => true
  | String c t => p c && allChars p t
  end.

Definition wellFormedItem (i : portItem) : Prop :=
  match i with
  | Published addr m =>
      addr ∈ ["0.0.0.0:"; ":::"; ":"; ""] /\
      (0 <= docker.HostPort m < 2 ^ 63)%Z /\
      (0 <= docker.ContainerPort m < 2 ^ 63)%Z /\
      docker.Protocol m ∈ ["tcp"; "udp"]
  | Exposed text =>
      text <> EmptyString /\
      allChars (fun c => itemChar c && negb (Ascii.eqb c ">")) text = true
  end.

(** [strings.Join(l, sep)] *)
Fixpoint joinWith (sep : string) (l : list string) : string :=
  match l with
  | [] => EmptyString
  | [x] => x
  | x :: rest => x +:+ sep +:+ joinWith sep rest
  end.

Definition portsColumn (items : list portItem) : string :=
  joinWith ", " (map itemText items).

Definition publishedPorts (items : list portItem) : list docker.PortMapping :=
  omap (fun i => match i with Published _ m => Some m | Exposed _ => None end) items.

(** A container as [docker ps] lists it. *)
Record listed := mkListed {
  listedID : string;
  listedName : string;
  listedPorts : list portItem
}.

Definition wellFormedListed (l : listed) : Prop :=
  allChars fieldChar (listedID l) = true /\
  allChars fieldChar (listedName l) = true /\
  Forall wellFormedItem (listedPorts l).

(** The line of [docker ps --format "{{.ID}}|{{.Names}}|{{.Ports}}"] for a
    container, with its newline. *)
Definition psLine (l : listed) : string :=
  listedID l +:+ "|" +:+ listedName l +:+ "|" +:+ portsColumn (listedPorts l).

Fixpoint psOutput (ls : list listed) : string :=
  match ls with
  | [] => EmptyString
  | l :: rest => psLine l +:+ String newline (psOutput rest)
  end.

Definition serviceOf (l : listed) : docker.DockerService :=
  {| docker.ContainerID := listedID l;
     docker.Name := listedName l;
     docker.Ports := publishedPorts (listedPorts l) |}.

(** The expression behind the address and its colon:
    [(\d+)->(\d+)/(tcp|udp)]. *)
Definition portTail : regex :=
  Seq (Capture (Plus isDigit))
 (Seq (Lit "->")
 (Seq (Capture (Plus isDigit))
 (Seq (Lit "/")
      (Capture (Alt (Lit "tcp") (Lit "udp")))))).

(** [:?(\d+)->(\d+)/(tcp|udp)] *)
Definition portColon : regex := Seq (Opt (Lit ":")) portTail.

(** The value of a decimal numeral, digit by digit from [n]. *)
Fixpoint decimalValue (n : N) (s : string) : N :=
  match s with
  | EmptyString => n
  | String c t => decimalValue (n * 10 + (strings.byteval c - 48)) t
  end.

(** No [>]: a text of such bytes holds no arrow. *)
Definition noArrow (c : ascii) : bool := negb (Ascii.eqb c ">").

(** The text of a published port behind its address: two numerals and a
    protocol. *)
Definition mappingText (h c p rest : string) : string :=
  h +:+ "->" +:+ c +:+ "/" +:+ p +:+ rest.

(** A byte of the ports column, and a byte of a line. *)
Definition columnChar (c : ascii) : bool :=
  itemChar c || Ascii.eqb c "," || Ascii.eqb c " ".

Definition lineChar (c : ascii) : bool :=
  negb (Ascii.eqb c newline).

(** * Properties *)

(** ** Selector *)

Section SelectorProperties.

Implicit Types (l physical virtual : list NetworkInfo) (i : NetworkInfo).

Lemma isWifiOrEthernet_physical i :
  isWifiOrEthernet i = true -> isVirtual i = false.
Proof.
  unfold isWifiOrEthernet, isVirtual.
  intros H. apply orb_true_iff in H as [H | H];
    apply String.eqb_eq in H; rewrite H; reflexivity.
Qed.

Lemma partitionInterfaces_filter l physical virtual :
  partitionInterfaces l physical virtual =
    (physical ++ List.filter (fun i => negb (isVirtual i)) l,
     virtual ++ List.filter isVirtual l).
Proof.
  revert physical virtual.
  induction l as [|i l IH]; intros physical virtual; simpl.
  - by rewrite !app_nil_r.
  - destruct (isVirtual i); simpl; rewrite IH, <- app_assoc; reflexivity.
Qed.

Lemma firstWifiOrEthernet_find l :
  firstWifiOrEthernet l = List.find isWifiOrEthernet l.
Proof. induction l as [|i l IH]; simpl; [|rewrite IH]; reflexivity. Qed.

Lemma find_filter_implied (f g : NetworkInfo -> bool) l :
  (forall i, f i = true -> g i = true) ->
  List.find f (List.filter g l) = List.find f l.
Proof.
  intros Himp. induction l as [|i l IH]; simpl; [reflexivity|].
  destruct (g i) eqn:Hg; simpl.
  - rewrite IH. reflexivity.
  - destruct (f i) eqn:Hf; [|exact IH].
    apply Himp in Hf. congruence.
Qed.

Lemma head_filter_find (g : NetworkInfo -> bool) l :
  head (List.filter g l) = List.find g l.
Proof.
  induction l as [|i l IH]; simpl; [reflexivity|].
  destruct (g i); simpl; [reflexivity | exact IH].
Qed.

(** When [find] returns an element, it is the first one in list order
    that passes the test. *)
Lemma find_first (f : NetworkInfo -> bool) l i :
  List.find f l = Some i ->
  exists before after,
    l = before ++ i :: after /\ f i = true /\
    Forall (fun j => f j = false) before.
Proof.
  induction l as [|j l IH]; simpl; [discriminate|].
  destruct (f j) eqn:Hj.
  - intros [= ->]. exists [], l. repeat split; [assumption | constructor].
  - intros H. destruct (IH H) as (before & after & -> & Hi & Hall).
    exists (j :: before), after. repeat split; [assumption |].
    constructor; assumption.
Qed.

Lemma find_none (f : NetworkInfo -> bool) l :
  List.find f l = None -> Forall (fun j => f j = false) l.
Proof.
  induction l as [|j l IH]; simpl; [constructor|].
  destruct (f j) eqn:Hj; [discriminate|]. intros H. constructor; auto.
Qed.

Lemma PrioritizeInterfaces_selectByPolicy l :
  PrioritizeInterfaces l = selectByPolicy l.
Proof.
  transitivity
    (let '(physical, virtual) := partitionInterfaces l [] [] in
     match physical with
     | p0 :: _ =>
         match firstWifiOrEthernet physical with
         | Some i => Some i
         | None => Some p0
         end
     | [] => head virtual
     end).
  { destruct l; [reflexivity|]. unfold PrioritizeInterfaces.
    destruct (partitionInterfaces _ _ _) as [physical [|v0 virtual]]; reflexivity. }
  unfold selectByPolicy.
  rewrite partitionInterfaces_filter, !app_nil_l.
  rewrite <- (find_filter_implied isWifiOrEthernet (fun i => negb (isVirtual i)) l)
    by (intros i H; apply isWifiOrEthernet_physical in H; rewrite H; reflexivity).
  rewrite <- (head_filter_find (fun i => negb (isVirtual i)) l).
  rewrite <- (head_filter_find isVirtual l).
  rewrite firstWifiOrEthernet_find.
  destruct (List.filter (fun i => negb (isVirtual i)) l) as [|p0 ps]; [reflexivity|].
  destruct (List.find isWifiOrEthernet (p0 :: ps)); reflexivity.
Qed.

(** C4. The selector returns the first candidate in list order whose
    class is wifi or ethernet when there is one; otherwise the first
    candidate that is not virtual when there is one; otherwise the first
    virtual candidate when there is one; and nothing for the empty list.
    "First" is by position in the input: the chosen candidate splits the
    input into the candidates before it, none of which passes the test of
    its rank, and those after it. *)
Theorem PrioritizeInterfaces_policy l :
  PrioritizeInterfaces [] = None /\
  PrioritizeInterfaces l =
    match List.find isWifiOrEthernet l with
    | Some i => Some i
    | None =>
        match List.find (fun i => negb (isVirtual i)) l with
        | Some i => Some i
        | None => List.find isVirtual l
        end
    end /\
  (forall i, PrioritizeInterfaces l = Some i ->
     exists before after, l = before ++ i :: after /\
       ((isWifiOrEthernet i = true /\
         Forall (fun j => isWifiOrEthernet j = false) before) \/
        (Forall (fun j => isWifiOrEthernet j = false) l /\
         isVirtual i = false /\
         Forall (fun j => isVirtual j = true) before) \/
        (Forall (fun j => isVirtual j = true) l /\ before = []))) /\
  (PrioritizeInterfaces l = None <-> l = []).
Proof.
  split; [reflexivity|].
  split; [apply PrioritizeInterfaces_selectByPolicy|].
  rewrite PrioritizeInterfaces_selectByPolicy. unfold selectByPolicy.
  destruct (List.find isWifiOrEthernet l) as [w|] eqn:Hw.
  { split.
    - intros i [= <-]. destruct (find_first _ _ _ Hw) as (b & a & -> & Hi & Hb).
      exists b, a. split; [reflexivity | left; split; assumption].
    - split; [discriminate | intros ->; discriminate]. }
  pose proof (find_none _ _ Hw) as Hnone.
  destruct (List.find (fun i => negb (isVirtual i)) l) as [p|] eqn:Hp.
  { split.
    - intros i [= <-]. destruct (find_first _ _ _ Hp) as (b & a & -> & Hi & Hb).
      exists b, a. split; [reflexivity | right; left].
      split; [assumption|]. split; [by apply negb_true_iff in Hi|].
      eapply Forall_impl; [exact Hb|]. intros j Hj. by apply negb_false_iff in Hj.
    - split; [discriminate | intros ->; discriminate]. }
  pose proof (find_none _ _ Hp) as Hvirt.
  assert (Hall : Forall (fun j => isVirtual j = true) l).
  { eapply Forall_impl; [exact Hvirt|]. intros j Hj. by apply negb_false_iff in Hj. }
  split.
  - intros i Hi. destruct l as [|j l']; [discriminate|].
    inversion Hall as [|? ? Hj _]; subst. simpl in Hi. rewrite Hj in Hi.
    injection Hi as <-. exists [], l'. split; [reflexivity|].
    right; right. split; [assumption | reflexivity].
  - destruct l as [|j l']; [split; reflexivity|].
    inversion Hall as [|? ? Hj _]; subst. simpl. rewrite Hj.
    split; discriminate.
Qed.

End SelectorProperties.

(** ** Classifier *)

(** Case analysis on the eight bits of a byte. *)
Ltac byte_cases c := destruct c as [[] [] [] [] [] [] [] []].

Section ClassifierProperties.

Context {go : GoStdlib}.

Lemma matchesPrefix_existsb prefixes nameLower :
  matchesPrefix prefixes nameLower <->
  existsb (strings.HasPrefix nameLower) prefixes = true.
Proof.
  unfold matchesPrefix. rewrite existsb_exists.
  split; intros (p & Hp & H); exists p; split; try assumption;
    by apply list_elem_of_In.
Qed.

Lemma isVirtualName_rule nameLower :
  isVirtualName nameLower = true <-> virtualRule nameLower.
Proof.
  unfold virtualRule. rewrite matchesPrefix_existsb.
  unfold isVirtualName, virtualPrefixes; simpl.
  rewrite orb_false_r, !orb_assoc. reflexivity.
Qed.

Lemma isWifiName_rule nameLower :
  isWifiName nameLower = true <-> wifiRule nameLower.
Proof.
  unfold wifiRule. rewrite matchesPrefix_existsb.
  unfold isWifiName, wifiPrefixes, wifiSubstring; simpl.
  rewrite orb_false_r, <- orb_true_iff, !orb_assoc. reflexivity.
Qed.

Lemma isEthernetName_rule nameLower :
  isEthernetName nameLower = true <-> ethernetRule nameLower.
Proof.
  unfold ethernetRule. rewrite matchesPrefix_existsb.
  unfold isEthernetName, ethernetPrefixes; simpl.
  rewrite orb_false_r, !orb_assoc. reflexivity.
Qed.

Lemma isASCII_lowerBytes s :
  strings.isASCII (strings.lowerBytes s) = strings.isASCII s.
Proof.
  induction s as [|c s IH]; simpl; [reflexivity|]. rewrite IH. f_equal.
  byte_cases c; reflexivity.
Qed.

Lemma lowerByte_idem c : strings.lowerByte (strings.lowerByte c) = strings.lowerByte c.
Proof. byte_cases c; reflexivity. Qed.

Lemma lowerByte_upperByte c :
  strings.lowerByte (strings.upperByte c) = strings.lowerByte c.
Proof. byte_cases c; reflexivity. Qed.

Lemma lowerBytes_idem s :
  strings.lowerBytes (strings.lowerBytes s) = strings.lowerBytes s.
Proof. induction s as [|c s IH]; simpl; [|rewrite IH, lowerByte_idem]; reflexivity. Qed.

Lemma lowerBytes_upperBytes s :
  strings.lowerBytes (strings.upperBytes s) = strings.lowerBytes s.
Proof.
  induction s as [|c s IH]; simpl; [|rewrite IH, lowerByte_upperByte]; reflexivity.
Qed.

Lemma sameUpToCase_isASCII n1 n2 :
  sameUpToCase n1 n2 -> strings.isASCII n1 = strings.isASCII n2.
Proof.
  unfold sameUpToCase. intros H.
  rewrite <- (isASCII_lowerBytes n1), <- (isASCII_lowerBytes n2), H. reflexivity.
Qed.

(** On ASCII names [ToLower] forgets exactly the case of the letters. *)
Lemma ToLower_sameUpToCase n1 n2 :
  strings.isASCII n1 = true -> sameUpToCase n1 n2 -> ToLower n1 = ToLower n2.
Proof.
  intros Ha H. unfold ToLower.
  rewrite <- (sameUpToCase_isASCII _ _ H), Ha. exact H.
Qed.

Lemma classifyInterface_cases name :
  classifyInterface name =
    if isVirtualName (ToLower name) then "virtual"
    else if isWifiName (ToLower name) then "wifi" else "ethernet".
Proof.
  unfold classifyInterface; cbv zeta.
  destruct (isVirtualName (ToLower name)), (isWifiName (ToLower name)),
           (isEthernetName (ToLower name)); reflexivity.
Qed.

(** C3. [classifyInterface] is a function of the lowered name alone, so
    names that differ only in case get the same class (for ASCII names
    that is any change of letter case, the upper-cased and the
    lower-cased name included); its value is one of wifi, ethernet,
    virtual; the virtual rules decide first, then the wifi rules, then
    the ethernet rules; and a name that matches no rule is ethernet:
    virtual is returned for the virtual prefixes only. *)
Theorem classifyInterface_rules (name : string) :
  (classifyInterface name = "wifi" \/ classifyInterface name = "ethernet" \/
   classifyInterface name = "virtual") /\
  (virtualRule (ToLower name) -> classifyInterface name = "virtual") /\
  (~ virtualRule (ToLower name) -> wifiRule (ToLower name) ->
   classifyInterface name = "wifi") /\
  (~ virtualRule (ToLower name) -> ~ wifiRule (ToLower name) ->
   ethernetRule (ToLower name) -> classifyInterface name = "ethernet") /\
  (~ virtualRule (ToLower name) -> ~ wifiRule (ToLower name) ->
   ~ ethernetRule (ToLower name) -> classifyInterface name = "ethernet") /\
  (classifyInterface name = "virtual" <-> virtualRule (ToLower name)) /\
  (forall other, ToLower other = ToLower name ->
     classifyInterface other = classifyInterface name) /\
  (strings.isASCII name = true ->
   (forall other, sameUpToCase name other ->
      classifyInterface other = classifyInterface name) /\
   classifyInterface (strings.upperBytes name) = classifyInterface name /\
   classifyInterface (strings.lowerBytes name) = classifyInterface name).
Proof.
  rewrite <- isVirtualName_rule, <- isWifiName_rule, <- isEthernetName_rule.
  assert (Hfun : forall other, ToLower other = ToLower name ->
                   classifyInterface other = classifyInterface name).
  { intros other H. rewrite !classifyInterface_cases, H. reflexivity. }
  assert (Hcase : strings.isASCII name = true ->
                  forall other, sameUpToCase name other ->
                    classifyInterface other = classifyInterface name).
  { intros Ha other H. apply Hfun. symmetry. by apply ToLower_sameUpToCase. }
  rewrite classifyInterface_cases.
  split.
  { destruct (isVirtualName (ToLower name)), (isWifiName (ToLower name)); auto. }
  split.
  { intros ->. reflexivity. }
  split.
  { intros Hv ->. apply not_true_is_false in Hv. rewrite Hv. reflexivity. }
  split.
  { intros Hv Hw _. apply not_true_is_false in Hv, Hw. rewrite Hv, Hw. reflexivity. }
  split.
  { intros Hv Hw _. apply not_true_is_false in Hv, Hw. rewrite Hv, Hw. reflexivity. }
  split.
  { destruct (isVirtualName (ToLower name)), (isWifiName (ToLower name));
      split; intros H; try reflexivity; discriminate. }
  rewrite <- classifyInterface_cases.
  split; [exact Hfun|].
  intros Ha. split; [by apply Hcase|].
  split; apply Hcase; try assumption; unfold sameUpToCase.
  - by rewrite lowerBytes_upperBytes.
  - by rewrite lowerBytes_idem.
Qed.

End ClassifierProperties.

(** ** Watcher *)

Section WatcherProperties.

Context {go : GoStdlib}.

Implicit Types (w : IPWatcher) (os : list NetInterface + error)
         (evs rest : list event).

Lemma callbacks_app fx1 fx2 : callbacks (fx1 ++ fx2) = callbacks fx1 ++ callbacks fx2.
Proof.
  induction fx1 as [|[|o n] fx1 IH]; simpl; [reflexivity | exact IH |].
  rewrite IH. reflexivity.
Qed.

Lemma monitor_tick w os rest :
  monitor w (EvTick os :: rest) =
    (stateOf (monitor (stateOf (checkIPChange w os)) rest),
     traceOf (checkIPChange w os) ++ traceOf (monitor (stateOf (checkIPChange w os)) rest),
     outcomeOf (monitor (stateOf (checkIPChange w os)) rest)).
Proof.
  simpl. destruct (checkIPChange w os) as [[w1 fx1] e1].
  unfold stateOf, traceOf, outcomeOf; simpl.
  destruct (monitor w1 rest) as [[w2 fx2] out]. reflexivity.
Qed.

Lemma checkIPChange_same w os info :
  DetectLocalIP os = inl info -> IP_ info = CurrentIP w ->
  checkIPChange w os = (w, [Scanned], None).
Proof.
  intros Hd Hip. unfold checkIPChange. rewrite Hd, Hip, String.eqb_refl.
  reflexivity.
Qed.

Lemma checkIPChange_changed w os info :
  DetectLocalIP os = inl info -> IP_ info <> CurrentIP w ->
  checkIPChange w os =
    (setCurrentIP w (IP_ info),
     if OnChange w then [Scanned; Called (CurrentIP w) (IP_ info)] else [Scanned],
     None).
Proof.
  intros Hd Hip. unfold checkIPChange. rewrite Hd.
  destruct (String.eqb (CurrentIP w) (IP_ info)) eqn:E.
  - apply String.eqb_eq in E. congruence.
  - simpl. destruct (OnChange w); reflexivity.
Qed.

Lemma checkIPChange_failed w os err :
  DetectLocalIP os = inr err -> checkIPChange w os = (w, [Scanned], Some err).
Proof. intros Hd. unfold checkIPChange. rewrite Hd. reflexivity. Qed.

Lemma checkIPChange_callbacks w os :
  (length (callbacks (traceOf (checkIPChange w os))) <= 1)%nat.
Proof.
  unfold checkIPChange.
  destruct (DetectLocalIP os) as [info|err]; [|simpl; lia].
  destruct (negb _); [|simpl; lia].
  destruct (OnChange _); simpl; lia.
Qed.

(** Every callback of the loop belongs to a poll tick, one at most to
    each. *)
Lemma monitor_callbacks w evs :
  (length (callbacks (traceOf (monitor w evs))) <= ticks evs)%nat.
Proof.
  revert w. induction evs as [|ev evs IH]; intros w; [simpl; lia|].
  destruct ev as [err| |os|].
  - simpl. lia.
  - simpl. destruct (stopCh w); solve [apply IH | simpl; lia].
  - rewrite monitor_tick. unfold traceOf at 1; simpl.
    rewrite callbacks_app, length_app.
    pose proof (checkIPChange_callbacks w os).
    pose proof (IH (stateOf (checkIPChange w os))). lia.
  - simpl. destruct (Stop w) as [w' [msg|]]; [simpl; lia | apply IH].
Qed.

Lemma NewTicker_positive (d : Z) : (0 < d)%Z -> NewTicker d = None.
Proof. intros Hd. unfold NewTicker. destruct (Z.leb_spec d 0); [lia | reflexivity]. Qed.

Lemma NewTicker_panics (d : Z) :
  (d <= 0)%Z -> NewTicker d = Some "non-positive interval for NewTicker".
Proof. intros Hd. unfold NewTicker. destruct (Z.leb_spec d 0); [reflexivity | lia]. Qed.

Lemma Start_running w os0 evs info :
  stopped w = false -> DetectLocalIP os0 = inl info -> (0 < Interval w)%Z ->
  Start w os0 evs =
    (stateOf (monitor (setCurrentIP w (IP_ info)) evs),
     Scanned :: traceOf (monitor (setCurrentIP w (IP_ info)) evs),
     outcomeOf (monitor (setCurrentIP w (IP_ info)) evs)).
Proof.
  intros Hs Hd Hi. unfold Start. rewrite Hs, Hd.
  change (Interval (setCurrentIP w (IP_ info))) with (Interval w).
  rewrite (NewTicker_positive _ Hi).
  destruct (monitor _ evs) as [[w' fx] out]. reflexivity.
Qed.

Lemma Start_panics w os0 evs info :
  stopped w = false -> DetectLocalIP os0 = inl info -> (Interval w <= 0)%Z ->
  Start w os0 evs =
    (setCurrentIP w (IP_ info), [Scanned],
     Panicked "non-positive interval for NewTicker").
Proof.
  intros Hs Hd Hi. unfold Start. rewrite Hs, Hd.
  change (Interval (setCurrentIP w (IP_ info))) with (Interval w).
  rewrite (NewTicker_panics _ Hi). reflexivity.
Qed.

Lemma Start_callbacks w os0 evs :
  (length (callbacks (traceOf (Start w os0 evs))) <= ticks evs)%nat.
Proof.
  unfold Start. destruct (stopped w); [simpl; lia|].
  destruct (DetectLocalIP os0) as [info|err]; [|simpl; lia].
  destruct (NewTicker _); [simpl; lia|].
  pose proof (monitor_callbacks (setCurrentIP w (IP_ info)) evs) as H.
  destruct (monitor _ evs) as [[w' fx] out]. exact H.
Qed.

(** C6. The callback is never invoked for the initial address: a run
    invokes it at most once per poll tick, so not at all before the first
    tick, and establishing the initial address leaves the trace without a
    call: with a positive interval [Start] then waits in its loop, with
    any other interval the ticker cannot be made and [Start] panics
    there, in both cases with the initial address stored and nothing
    called.  On a tick that detects an address different from the stored
    one, a registered callback fires exactly once, with the previous and
    the new address, and the new address is stored; on a tick that
    detects the stored address, nothing is called and nothing changes.
    So a run of [Start] with a positive interval whose first tick finds
    another address than the initial one makes exactly that one call,
    and none when the tick finds the initial address again. *)
Theorem watcher_callback_on_change w os0 os evs rest info0 info :
  stopped w = false ->
  OnChange w = true ->
  DetectLocalIP os0 = inl info0 ->
  DetectLocalIP os = inl info ->
  (length (callbacks (traceOf (Start w os0 evs))) <= ticks evs)%nat /\
  ((0 < Interval w)%Z ->
     Start w os0 [] = (setCurrentIP w (IP_ info0), [Scanned], Running) /\
     (IP_ info <> IP_ info0 ->
        Start w os0 [EvTick os] =
          (setCurrentIP w (IP_ info),
           [Scanned; Scanned; Called (IP_ info0) (IP_ info)], Running)) /\
     (IP_ info = IP_ info0 ->
        Start w os0 [EvTick os] =
          (setCurrentIP w (IP_ info0), [Scanned; Scanned], Running))) /\
  ((Interval w <= 0)%Z ->
     Start w os0 evs =
       (setCurrentIP w (IP_ info0), [Scanned],
        Panicked "non-positive interval for NewTicker")) /\
  (IP_ info <> CurrentIP w ->
     checkIPChange w os =
       (setCurrentIP w (IP_ info), [Scanned; Called (CurrentIP w) (IP_ info)], None) /\
     callbacks (traceOf (monitor w (EvTick os :: rest))) =
       (CurrentIP w, IP_ info) ::
         callbacks (traceOf (monitor (setCurrentIP w (IP_ info)) rest)) /\
     callbacks (traceOf (monitor w [EvTick os])) = [(CurrentIP w, IP_ info)] /\
     CurrentIP (stateOf (monitor w [EvTick os])) = IP_ info) /\
  (IP_ info = CurrentIP w ->
     checkIPChange w os = (w, [Scanned], None) /\
     monitor w (EvTick os :: rest) =
       (stateOf (monitor w rest), Scanned :: traceOf (monitor w rest),
        outcomeOf (monitor w rest)) /\
     callbacks (traceOf (monitor w [EvTick os])) = [] /\
     stateOf (monitor w [EvTick os]) = w).
Proof.
  intros Hs Hcb Hd0 Hd.
  split; [apply Start_callbacks|].
  split.
  { intros Hi. split; [rewrite (Start_running _ _ _ _ Hs Hd0 Hi); reflexivity|].
    split.
    - intros Hne. rewrite (Start_running _ _ _ _ Hs Hd0 Hi), monitor_tick.
      rewrite (checkIPChange_changed (setCurrentIP w (IP_ info0)) _ _ Hd Hne).
      simpl. rewrite Hcb. reflexivity.
    - intros Heq. rewrite (Start_running _ _ _ _ Hs Hd0 Hi), monitor_tick.
      rewrite (checkIPChange_same (setCurrentIP w (IP_ info0)) _ _ Hd Heq).
      reflexivity. }
  split; [intros Hi; exact (Start_panics _ _ _ _ Hs Hd0 Hi)|].
  split.
  - intros Hne. pose proof (checkIPChange_changed _ _ _ Hd Hne) as Hc.
    rewrite Hcb in Hc.
    split; [exact Hc|].
    rewrite !monitor_tick, Hc. unfold traceOf, stateOf; simpl.
    repeat split; reflexivity.
  - intros Heq. pose proof (checkIPChange_same _ _ _ Hd Heq) as Hc.
    split; [exact Hc|].
    rewrite !monitor_tick, Hc. unfold traceOf, stateOf, outcomeOf; simpl.
    repeat split; reflexivity.
Qed.

(** C7. A poll tick whose scan fails leaves the watcher as it was, calls
    nothing, and the loop goes on with the next event as if from the same
    state: it is still running when nothing else happens.  When
    detecting the initial address fails, [Start] returns that error at
    once: no event is looked at, nothing is called, the watcher is
    unchanged. *)
Theorem watcher_scan_failure w os evs rest err :
  DetectLocalIP os = inr err ->
  checkIPChange w os = (w, [Scanned], Some err) /\
  monitor w (EvTick os :: rest) =
    (stateOf (monitor w rest), Scanned :: traceOf (monitor w rest),
     outcomeOf (monitor w rest)) /\
  monitor w [EvTick os] = (w, [Scanned], Running) /\
  (stopped w = false -> Start w os evs = (w, [Scanned], Returned (Some err))).
Proof.
  intros Hd. pose proof (checkIPChange_failed w _ _ Hd) as Hc.
  split; [exact Hc|].
  rewrite !monitor_tick, Hc. unfold stateOf, traceOf, outcomeOf; simpl.
  repeat split; try reflexivity.
  intros Hs. unfold Start. rewrite Hs, Hd. reflexivity.
Qed.

Lemma Stop_stopped w : stopped (fst (Stop w)) = true.
Proof.
  unfold Stop. destruct (stopped w) eqn:Hs; [exact Hs|].
  simpl. destruct (close (stopCh w)); reflexivity.
Qed.

Lemma Stop_again w : stopped w = true -> Stop w = (w, None).
Proof. intros Hs. unfold Stop. rewrite Hs. reflexivity. Qed.

(** C10. After a first call of [Stop] the watcher is stopped, and every
    further call, however many, returns without a panic and leaves the
    watcher exactly as it is; the first call on a new watcher closes the
    channel without a panic.  [Start] on the stopped watcher returns nil
    at once, whatever the interfaces and the events are: no address is
    detected, no event of the loop is taken, nothing is called. *)
Theorem Stop_idempotent_Start_noop w os0 evs (n : nat) (interval : Z) :
  stopped (fst (Stop w)) = true /\
  Stop (fst (Stop w)) = (fst (Stop w), None) /\
  Nat.iter n (fun w' => fst (Stop w')) (fst (Stop w)) = fst (Stop w) /\
  Stop (NewIPWatcher interval) =
    ({| CurrentIP := ""; Interval := Interval (NewIPWatcher interval);
        OnChange := false; stopCh := ChanClosed; stopped := true |}, None) /\
  Start (fst (Stop w)) os0 evs = (fst (Stop w), [], Returned None).
Proof.
  pose proof (Stop_stopped w) as Hs.
  split; [exact Hs|].
  split; [apply Stop_again, Hs|].
  split.
  { induction n as [|n IH]; simpl; [reflexivity|].
    rewrite IH, (Stop_again _ Hs). reflexivity. }
  split; [reflexivity|].
  unfold Start. rewrite Hs. reflexivity.
Qed.

End WatcherProperties.

(** ** Strings *)

Section StringFacts.

Implicit Types (s t u : string) (c : ascii).

Lemma append_nil_l s : EmptyString +:+ s = s.
Proof. reflexivity. Qed.

Lemma append_cons c s t : String c s +:+ t = String c (s +:+ t).
Proof. reflexivity. Qed.

Lemma append_nil_r s : s +:+ EmptyString = s.
Proof. induction s as [|c s IH]; [reflexivity|]. by rewrite append_cons, IH. Qed.

Lemma append_assoc s t u : (s +:+ t) +:+ u = s +:+ (t +:+ u).
Proof. induction s as [|c s IH]; [reflexivity|]. by rewrite !append_cons, IH. Qed.

Lemma length_append s t :
  String.length (s +:+ t) = (String.length s + String.length t)%nat.
Proof.
  induction s as [|c s IH]; [reflexivity|].
  rewrite append_cons. simpl. by rewrite IH.
Qed.

Lemma append_ne_self s t : t <> EmptyString -> s +:+ t <> s.
Proof.
  intros Ht H. apply (f_equal String.length) in H.
  rewrite length_append in H. destruct t; [congruence | simpl in H; lia].
Qed.

End StringFacts.

(** ** Env file: merge and backup *)

Section EnvProperties.

Implicit Types (v e : EnvVar) (newVars existing : list EnvVar)
         (fs : FileSystem) (path : string).

Lemma keyIn_elem v newVars : v ∈ newVars -> keyIn (Key v) newVars = true.
Proof.
  intros Hin. unfold keyIn. apply existsb_exists.
  exists v. split; [by apply list_elem_of_In | apply String.eqb_refl].
Qed.

Lemma keyIn_markManaged k newVars :
  keyIn k (map markManaged newVars) = keyIn k newVars.
Proof. induction newVars as [|v l IH]; simpl; [|rewrite IH]; reflexivity. Qed.

Lemma elem_of_preserved e newVars existing :
  e ∈ preserved newVars existing <->
  e ∈ existing /\ Managed e = false /\ keyIn (Key e) newVars = false.
Proof.
  unfold preserved. rewrite list_elem_of_filter.
  destruct (Managed e), (keyIn (Key e) newVars); simpl; intuition congruence.
Qed.

Lemma elem_of_Merge e newVars existing :
  e ∈ Merge newVars existing <->
  (exists v, v ∈ newVars /\ e = markManaged v) \/ e ∈ preserved newVars existing.
Proof.
  unfold Merge. fold (preserved newVars existing).
  rewrite elem_of_app, list_elem_of_fmap.
  split; (intros [(v & H1 & H2) | H]; [left; exists v; auto | right; exact H]).
Qed.

(** C8. In the merged list: every variable of the new set appears with
    its key, its new value and managed set; an entry whose key is in the
    new set is one of the new ones, so no prior value of such a key is
    left, managed or not; the existing variables that were not managed
    and whose key is absent from the new set are all there unchanged,
    behind the new ones and in their original order; and an existing
    managed variable whose key is absent from the new set is not in the
    result. *)
Theorem Merge_contract newVars existing :
  (forall v, v ∈ newVars ->
     {| Key := Key v; Value := Value v; Managed := true |} ∈ Merge newVars existing) /\
  (forall e, e ∈ Merge newVars existing -> keyIn (Key e) newVars = true ->
     Managed e = true /\
     exists v, v ∈ newVars /\ Key e = Key v /\ Value e = Value v) /\
  (forall e, e ∈ existing -> Managed e = false -> keyIn (Key e) newVars = false ->
     e ∈ Merge newVars existing) /\
  Merge newVars existing = map markManaged newVars ++ preserved newVars existing /\
  preserved newVars existing `sublist_of` existing /\
  (forall e, e ∈ Merge newVars existing -> keyIn (Key e) newVars = false ->
     e ∈ existing /\ Managed e = false) /\
  (forall e, e ∈ existing -> Managed e = true -> keyIn (Key e) newVars = false ->
     e ∉ Merge newVars existing).
Proof.
  split.
  { intros v Hv. apply elem_of_Merge. left. exists v. split; [exact Hv | reflexivity]. }
  split.
  { intros e He Hk. apply elem_of_Merge in He as [(v & Hv & ->) | He].
    - split; [reflexivity|]. exists v. repeat split; assumption.
    - apply elem_of_preserved in He as (_ & _ & Hk'). congruence. }
  split.
  { intros e He Hm Hk. apply elem_of_Merge. right.
    apply elem_of_preserved. repeat split; assumption. }
  split; [reflexivity|].
  split; [apply sublist_filter|].
  split.
  { intros e He Hk. apply elem_of_Merge in He as [(v & Hv & ->) | He].
    - simpl in Hk. rewrite (keyIn_elem _ _ Hv) in Hk. discriminate.
    - apply elem_of_preserved in He as (? & ? & _). split; assumption. }
  intros e He Hm Hk Hin.
  apply elem_of_Merge in Hin as [(v & Hv & ->) | Hin].
  - simpl in Hk. rewrite (keyIn_elem _ _ Hv) in Hk. discriminate.
  - apply elem_of_preserved in Hin as (_ & Hm' & _). congruence.
Qed.

(** The merge example of the design document: A updated, C added, B
    preserved. *)
Example Merge_example :
  Merge [mkEnvVar "A" "new" true; mkEnvVar "C" "new" true]
        [mkEnvVar "A" "old" true; mkEnvVar "B" "b" false] =
  [mkEnvVar "A" "new" true; mkEnvVar "C" "new" true; mkEnvVar "B" "b" false].
Proof. reflexivity. Qed.

Lemma backupPath_ne path : path +:+ ".bak" <> path.
Proof. apply append_ne_self. discriminate. Qed.

(** C9. A write through a writer made by [NewEnvWriter]: when a file
    exists at the output path, whatever the outcome the only writes are
    the copy of its exact prior content to [<path>.bak] and, after it,
    the new content to the path, so the file is never overwritten before
    the copy is made; when both paths can be written the write succeeds,
    the backup holds the prior content and the file the new one.  When
    no file exists at the path, the backup step changes nothing and
    reports no error, and the write goes on to the file itself. *)
Theorem Write_backup_first path timestamp vars fs :
  (forall old, files fs !! path = Some old ->
     (exists done,
        written (fst (Write (NewEnvWriter path) timestamp vars fs)) =
          written fs ++ done /\
        (done = [] \/ done = [(path +:+ ".bak", old)] \/
         done = [(path +:+ ".bak", old); (path, formatEnvFile timestamp vars)])) /\
     (path ∉ denied fs -> path +:+ ".bak" ∉ denied fs ->
      Write (NewEnvWriter path) timestamp vars fs =
        ({| files := <[path := formatEnvFile timestamp vars]>
                       (<[path +:+ ".bak" := old]> (files fs));
            denied := denied fs;
            written := written fs ++
              [(path +:+ ".bak", old); (path, formatEnvFile timestamp vars)] |},
         None) /\
      files (fst (Write (NewEnvWriter path) timestamp vars fs)) !! (path +:+ ".bak")
        = Some old /\
      files (fst (Write (NewEnvWriter path) timestamp vars fs)) !! path
        = Some (formatEnvFile timestamp vars))) /\
  (files fs !! path = None ->
     Backup (NewEnvWriter path) fs = (fs, None) /\
     Write (NewEnvWriter path) timestamp vars fs =
       WriteFile fs path (formatEnvFile timestamp vars) /\
     (path ∉ denied fs ->
      Write (NewEnvWriter path) timestamp vars fs =
        ({| files := <[path := formatEnvFile timestamp vars]> (files fs);
            denied := denied fs;
            written := written fs ++ [(path, formatEnvFile timestamp vars)] |},
         None))).
Proof.
  unfold Write, Backup, ReadFile, WriteFile, os_WriteFile, backupPath, NewEnvWriter; simpl.
  split.
  - intros old Hold. rewrite Hold.
    destruct (decide (path ∈ denied fs)) as [Hp|Hp]; simpl.
    { split; [|tauto]. exists []. rewrite app_nil_r. auto. }
    destruct (decide (path +:+ ".bak" ∈ denied fs)) as [Hb|Hb]; simpl.
    { split; [|tauto]. exists []. rewrite app_nil_r. auto. }
    rewrite (decide_False (P := path ∈ denied fs)) by exact Hp. simpl.
    split.
    + eexists. rewrite <- app_assoc. split; [reflexivity|]. right; right. reflexivity.
    + intros _ _. rewrite <- app_assoc. split; [reflexivity|].
      split.
      * rewrite lookup_insert_ne by (apply not_eq_sym, backupPath_ne).
        apply lookup_insert_eq.
      * apply lookup_insert_eq.
  - intros Hnone. rewrite Hnone. simpl.
    split; [reflexivity|]. split; [reflexivity|].
    intros Hp. rewrite (decide_False (P := path ∈ denied fs)) by exact Hp.
    reflexivity.
Qed.

End EnvProperties.

(** ** Private-range test *)

Section PrivateRange.

Lemma to_N_lt (x : byte) : Byte.to_N x < 256.
Proof. destruct x; reflexivity. Qed.

Lemma uint8_to_N (x : byte) : uint8 (Byte.to_N x) = x.
Proof. destruct x; reflexivity. Qed.

Lemma to_N_uint8 (n : N) : n <= 255 -> Byte.to_N (uint8 n) = n.
Proof.
  intros H. unfold uint8. rewrite N.mod_small by lia.
  destruct (Byte.of_N n) as [b|] eqn:E.
  - apply Byte.to_of_N in E. exact E.
  - apply Byte.of_N_None_iff in E. lia.
Qed.

Lemma isDigit_char c :
  isDigit c = true ->
  c = digitChar (strings.byteval c - 48) /\ strings.byteval c - 48 <= 9 /\
  isDot c = false.
Proof.
  byte_cases c; try discriminate;
    intros _; vm_compute; repeat split; congruence.
Qed.

Lemma stepOk_all :
  forallb (fun v => forallb (fun d => stepOk (N.of_nat v) (N.of_nat d)) (seq 0 10))
          (seq 1 25) = true.
Proof. vm_compute. reflexivity. Qed.

Lemma appendDecimal_step val d :
  1 <= val -> d <= 9 -> val * 10 + d <= 255 ->
  appendDecimal (val * 10 + d) = appendDecimal val +:+ String (digitChar d) EmptyString /\
  decimalLen (val * 10 + d) = decimalLen val + 1.
Proof.
  intros Hv Hd Hle.
  pose proof stepOk_all as H. rewrite forallb_forall in H.
  specialize (H (N.to_nat val)). rewrite forallb_forall in H.
  assert (Hin : In (N.to_nat val) (seq 1 25)) by (apply in_seq; lia).
  specialize (H Hin (N.to_nat d)).
  assert (Hin' : In (N.to_nat d) (seq 0 10)) by (apply in_seq; lia).
  specialize (H Hin'). rewrite !N2Nat.id in H.
  unfold stepOk in H. apply andb_true_iff in H as [H1 H2].
  apply String.eqb_eq in H1. apply N.eqb_eq in H2. split; assumption.
Qed.

Lemma appendDecimal_digit d :
  d <= 9 -> appendDecimal d = String (digitChar d) EmptyString /\ decimalLen d = 1.
Proof.
  intros Hd. unfold appendDecimal, decimalLen.
  rewrite (proj2 (N.leb_gt 100 d)) by lia. rewrite (proj2 (N.leb_gt 10 d)) by lia.
  rewrite N.mod_small by lia. split; reflexivity.
Qed.

Lemma decimalLen_pos x : decimalLen x <> 0.
Proof. unfold decimalLen. destruct (100 <=? x), (10 <=? x); discriminate. Qed.

Lemma decimalLen_one x : decimalLen x = 1 -> x <= 9.
Proof.
  unfold decimalLen. destruct (100 <=? x) eqn:E1; [discriminate|].
  destruct (10 <=? x) eqn:E2; [discriminate|]. apply N.leb_gt in E2. lia.
Qed.

Lemma parseIPv4Loop_sound s : forall prev val pos digLen fields r,
  parseIPv4Loop s prev val pos digLen fields = Some r ->
  octetState val digLen ->
  length fields = 4%nat ->
  (pos <= 3)%nat ->
  (digLen = 0 -> (pos = 0%nat /\ prev = None) \/ (prev = Some "."%char /\ s <> EmptyString)) ->
  (digLen <> 0 -> exists p, prev = Some p /\ isDot p = false) ->
  exists (x : byte) (tail : list byte),
    r = take pos fields ++ x :: tail /\
    length tail = (3 - pos)%nat /\
    readSoFar val digLen +:+ s = appendDecimal (Byte.to_N x) +:+ dottedTail tail.
Proof.
  induction s as [|c t IH]; intros prev val pos digLen fields r Hrun Hst Hlen Hpos H0 H1.
  - simpl in Hrun. destruct (pos <? 3)%nat eqn:Hlt; [discriminate|].
    apply Nat.ltb_ge in Hlt. assert (pos = 3%nat) as -> by lia.
    injection Hrun as <-.
    destruct (N.eq_dec digLen 0) as [Hz|Hnz].
    { destruct (H0 Hz) as [[? _]|[_ ?]]; [lia | congruence]. }
    destruct Hst as [[? _]|[Hval Hdl]]; [congruence|].
    exists (uint8 val), []. split.
    { destruct fields as [|f0 [|f1 [|f2 [|f3 [|]]]]]; try discriminate. reflexivity. }
    split; [reflexivity|].
    unfold readSoFar. rewrite (proj2 (N.eqb_neq _ _) Hnz).
    rewrite to_N_uint8 by exact Hval. simpl. rewrite !append_nil_r. reflexivity.
  - simpl in Hrun. destruct (isDigit c) eqn:Hdig.
    + destruct ((digLen =? 1) && (val =? 0)) eqn:Hlead; [discriminate|].
      destruct (255 <? val * 10 + (strings.byteval c - 48)) eqn:Hbig; [discriminate|].
      apply N.ltb_ge in Hbig.
      destruct (isDigit_char c Hdig) as (Hc & Hd & Hnd).
      set (d := strings.byteval c - 48) in *.
      assert (Hnext : readSoFar (val * 10 + d) (digLen + 1) =
                      readSoFar val digLen +:+ String c EmptyString /\
                      octetState (val * 10 + d) (digLen + 1)).
      { unfold readSoFar. rewrite (proj2 (N.eqb_neq (digLen + 1) 0)) by lia.
        destruct Hst as [[-> ->]|[Hval Hdl]].
        - change (0 * 10 + d) with d. change (0 =? 0) with true. cbv iota.
          destruct (appendDecimal_digit d Hd) as [-> Hl].
          rewrite <- Hc. split; [reflexivity|]. right. split; [lia|]. by rewrite Hl.
        - assert (1 <= val).
          { destruct (N.eq_dec val 0) as [->|]; [|lia].
            subst digLen. simpl in Hlead. discriminate. }
          destruct (appendDecimal_step val d) as [-> Hl]; try assumption.
          rewrite (proj2 (N.eqb_neq digLen 0))
            by (rewrite Hdl; apply decimalLen_pos).
          rewrite <- Hc. split; [reflexivity|]. right. split; [lia|]. by rewrite Hl, Hdl. }
      destruct Hnext as [Hread Hst'].
      destruct (IH _ _ _ _ _ _ Hrun Hst' Hlen Hpos) as (x & tail & Hr & Htl & Hs).
      { intros ?; lia. }
      { intros _. exists c. split; [reflexivity | exact Hnd]. }
      exists x, tail. split; [exact Hr|]. split; [exact Htl|].
      rewrite <- Hs, Hread, append_assoc. reflexivity.
    + destruct (isDot c) eqn:Hdot; [|discriminate].
      destruct prev as [p|]; [|discriminate].
      destruct t as [|c' t']; [discriminate|].
      destruct (isDot p) eqn:Hp; [discriminate|].
      destruct (pos =? 3)%nat eqn:Hp3; [discriminate|].
      apply Nat.eqb_neq in Hp3.
      assert (Hnz : digLen <> 0).
      { intros Hz. destruct (H0 Hz) as [[_ ?]|[Hprev _]]; [discriminate|].
        injection Hprev as ->. discriminate. }
      destruct Hst as [[? _]|[Hval Hdl]]; [congruence|].
      destruct (IH _ _ _ _ _ _ Hrun) as (x & tail & Hr & Htl & Hs).
      { left. split; reflexivity. }
      { by rewrite length_insert. }
      { lia. }
      { intros _. right. 
        apply Ascii.eqb_eq in Hdot. subst c. split; [reflexivity | discriminate]. }
      { intros ?; congruence. }
      exists (uint8 val), (x :: tail). split.
      { rewrite Hr. rewrite (take_S_r _ pos (uint8 val)).
        - rewrite take_insert_ge by lia. rewrite <- app_assoc. reflexivity.
        - apply list_lookup_insert_eq. lia. }
      split; [simpl; lia|].
      unfold readSoFar. rewrite (proj2 (N.eqb_neq _ _) Hnz).
      rewrite to_N_uint8 by exact Hval.
      apply Ascii.eqb_eq in Hdot. subst c.
      unfold readSoFar in Hs. simpl in Hs. simpl dottedTail.
      rewrite <- Hs. reflexivity.
Qed.

Lemma lastDigit_not_dot x : isDot (lastDigit x) = false.
Proof. destruct x; reflexivity. Qed.

Lemma appendDecimal_cons n : exists c t, appendDecimal n = String c t.
Proof.
  unfold appendDecimal. destruct (100 <=? n), (10 <=? n);
    rewrite ?append_cons, ?append_nil_l; eauto.
Qed.

Lemma parseIPv4Loop_octet (x : byte) rest prev pos fields :
  parseIPv4Loop (appendDecimal (Byte.to_N x) +:+ rest) prev 0 pos 0 fields =
  parseIPv4Loop rest (Some (lastDigit x)) (Byte.to_N x) pos
                (decimalLen (Byte.to_N x)) fields.
Proof. destruct x; reflexivity. Qed.

Lemma parseIPv4Loop_dot p c t val pos digLen fields :
  isDot p = false -> (pos < 3)%nat ->
  parseIPv4Loop (String "." (String c t)) (Some p) val pos digLen fields =
  parseIPv4Loop (String c t) (Some "."%char) 0 (S pos) 0 (<[pos := uint8 val]> fields).
Proof.
  intros Hp Hpos.
  change (parseIPv4Loop (String "." (String c t)) (Some p) val pos digLen fields)
    with (if isDot p then None
          else if (pos =? 3)%nat then None
               else parseIPv4Loop (String c t) (Some "."%char) 0 (S pos) 0
                                  (<[pos := uint8 val]> fields)).
  rewrite Hp, (proj2 (Nat.eqb_neq pos 3)) by lia. reflexivity.
Qed.

Lemma parseIPv4Loop_dot_octet (x y : byte) rest val pos digLen fields :
  (pos < 3)%nat ->
  parseIPv4Loop ("." +:+ appendDecimal (Byte.to_N y) +:+ rest)
                (Some (lastDigit x)) val pos digLen fields =
  parseIPv4Loop rest (Some (lastDigit y)) (Byte.to_N y) (S pos)
                (decimalLen (Byte.to_N y)) (<[pos := uint8 val]> fields).
Proof.
  intros Hpos. rewrite <- (parseIPv4Loop_octet y rest (Some "."%char)).
  destruct (appendDecimal_cons (Byte.to_N y)) as (c & t & ->).
  rewrite !append_cons, append_nil_l.
  apply parseIPv4Loop_dot; [apply lastDigit_not_dot | exact Hpos].
Qed.

(** Dotted decimal notation parses back to its four octets. *)
Lemma parseIPv4_dotted a b c d : parseIPv4 (dotted a b c d) = Some [a; b; c; d].
Proof.
  unfold parseIPv4, dotted.
  rewrite <- (append_nil_r (appendDecimal (Byte.to_N d))).
  rewrite parseIPv4Loop_octet.
  rewrite !parseIPv4Loop_dot_octet by lia.
  simpl. rewrite !uint8_to_N. reflexivity.
Qed.

(** And nothing else parses. *)
Lemma parseIPv4_sound s r :
  parseIPv4 s = Some r ->
  exists a b c d, r = [a; b; c; d] /\ s = dotted a b c d.
Proof.
  intros H. apply parseIPv4Loop_sound in H as (x & tail & Hr & Htl & Hs).
  - destruct tail as [|b [|c [|d [|]]]]; try discriminate.
    exists x, b, c, d. split; [exact Hr|].
    change (readSoFar 0 0 +:+ s) with s in Hs. rewrite Hs.
    unfold dotted. cbn [dottedTail].
    rewrite append_nil_r. reflexivity.
  - left. split; reflexivity.
  - reflexivity.
  - lia.
  - intros _. left. split; reflexivity.
  - intros H'. congruence.
Qed.

Lemma firstSeparator_dotted a b c d : firstSeparator (dotted a b c d) = Some "."%char.
Proof. unfold dotted. destruct a; reflexivity. Qed.

Lemma To4_mapped a b c d : To4 (v4InV6Prefix ++ [a; b; c; d]) = Some [a; b; c; d].
Proof. reflexivity. Qed.

Lemma To4_length ip ip4 : To4 ip = Some ip4 -> exists a b c d, ip4 = [a; b; c; d].
Proof.
  unfold To4. destruct (length ip =? 4)%nat eqn:E4.
  - intros [= <-]. apply Nat.eqb_eq in E4.
    destruct ip as [|a [|b [|c [|d [|]]]]]; try discriminate. eauto.
  - destruct (_ && _ && _ && _) eqn:E; [|discriminate].
    intros [= <-]. apply andb_true_iff in E as [E _].
    apply andb_true_iff in E as [E _]. apply andb_true_iff in E as [E _].
    apply Nat.eqb_eq in E.
    do 16 (destruct ip as [|? ip]; [discriminate|]). simpl. eauto.
Qed.

Lemma privateOctets_inRFC1918 a b c d :
  privateOctets (Byte.to_N a) (Byte.to_N b) = true <-> inRFC1918 a b c d.
Proof.
  pose proof (to_N_lt a). pose proof (to_N_lt b).
  pose proof (to_N_lt c). pose proof (to_N_lt d).
  unfold privateOctets, inRFC1918, ipv4Value, quad.
  destruct (N.eqb_spec (Byte.to_N a) 10); [split; [lia | reflexivity]|].
  destruct (N.eqb_spec (Byte.to_N a) 172); simpl.
  - destruct (N.leb_spec 16 (Byte.to_N b)); simpl.
    + destruct (N.leb_spec (Byte.to_N b) 31); simpl; [split; [lia | reflexivity]|].
      destruct (N.eqb_spec (Byte.to_N a) 192); simpl; [lia|]. split; [discriminate | lia].
    + destruct (N.eqb_spec (Byte.to_N a) 192); simpl; [lia|]. split; [discriminate | lia].
  - destruct (N.eqb_spec (Byte.to_N a) 192); simpl; [|split; [discriminate | lia]].
    destruct (N.eqb_spec (Byte.to_N b) 168); split; try discriminate; try reflexivity; lia.
Qed.

Context {go : GoStdlib}.

Lemma IsPrivateIP_parsed s :
  IsPrivateIP s =
    match parsedIPv4 s with
    | Some ip => privateOctets (octet ip 0) (octet ip 1)
    | None => false
    end.
Proof.
  unfold IsPrivateIP, parsedIPv4.
  destruct (ParseIP s) as [ip|]; [|reflexivity].
  destruct (To4 ip); reflexivity.
Qed.

Lemma parsedIPv4_dotted a b c d : parsedIPv4 (dotted a b c d) = Some [a; b; c; d].
Proof.
  unfold parsedIPv4, ParseIP.
  rewrite firstSeparator_dotted, parseIPv4_dotted. reflexivity.
Qed.

Lemma IsPrivateIP_dotted a b c d :
  IsPrivateIP (dotted a b c d) = privateOctets (Byte.to_N a) (Byte.to_N b).
Proof. rewrite IsPrivateIP_parsed, parsedIPv4_dotted. reflexivity. Qed.

(** A string with a dot as first separator denotes an address exactly
    when it is that address in dotted decimal notation; a string with no
    separator, or with a percent sign first, denotes none. *)
Lemma parsedIPv4_text s ip :
  firstSeparator s <> Some ":"%char ->
  parsedIPv4 s = Some ip <->
  exists a b c d, ip = [a; b; c; d] /\ s = dotted a b c d.
Proof.
  intros Hsep. split.
  - unfold parsedIPv4, ParseIP.
    destruct (firstSeparator s) as [c|]; [|discriminate].
    destruct (isDot c).
    + destruct (parseIPv4 s) as [r|] eqn:Hp; [|discriminate].
      apply parseIPv4_sound in Hp as (a & b & c' & d & -> & ->).
      rewrite To4_mapped. intros [= <-]. eauto 6.
    + destruct (Ascii.eqb c ":") eqn:E; [|discriminate].
      apply Ascii.eqb_eq in E. congruence.
  - intros (a & b & c & d & -> & ->). apply parsedIPv4_dotted.
Qed.

Lemma parseIPv6Loop_unfold groups s i ip ellipsis :
  parseIPv6Loop groups s i ip ellipsis =
  if (16 <=? i)%nat then Some (s, i, ip, ellipsis)
  else
    match groups with
    | O => None
    | S groups =>
        match hexGroup s 0 0 with
        | None => None
        | Some (off, acc, rest) =>
            if (off =? 0)%nat then None
            else if match rest with String c _ => isDot c | EmptyString => false end then
              if match ellipsis with None => negb (i =? 12)%nat | Some _ => false end
              then None
              else if (16 <? i + 4)%nat then None
              else
                match parseIPv4 s with
                | None => None
                | Some fields =>
                    Some (EmptyString, (i + 4)%nat, writeFields i fields ip, ellipsis)
                end
            else
              let ip := <[S i := uint8 acc]> (<[i := uint8 (acc / 256)]> ip) in
              let i := (i + 2)%nat in
              match rest with
              | EmptyString => Some (EmptyString, i, ip, ellipsis)
              | String c t =>
                  if negb (Ascii.eqb c ":") then None
                  else
                    match t with
                    | EmptyString => None
                    | String c' t' =>
                        if Ascii.eqb c' ":" then
                          match ellipsis with
                          | Some _ => None
                          | None =>
                              match t' with
                              | EmptyString => Some (EmptyString, i, ip, Some i)
                              | String _ _ => parseIPv6Loop groups t' i ip (Some i)
                              end
                          end
                        else parseIPv6Loop groups t i ip ellipsis
                    end
              end
        end
    end.
Proof. destruct groups; reflexivity. Qed.

(** Eight turns are enough: more change nothing. *)
Lemma parseIPv6Loop_turns n : forall m s i ip ellipsis,
  (16 <= i + 2 * n)%nat -> (16 <= i + 2 * m)%nat ->
  parseIPv6Loop n s i ip ellipsis = parseIPv6Loop m s i ip ellipsis.
Proof.
  induction n as [|n IH]; intros m s i ip ellipsis Hn Hm.
  - rewrite !parseIPv6Loop_unfold.
    destruct (Nat.leb_spec 16 i); [reflexivity | lia].
  - rewrite (parseIPv6Loop_unfold (S n)), (parseIPv6Loop_unfold m).
    destruct (Nat.leb_spec 16 i); [reflexivity|].
    destruct m as [|m]; [lia|].
    destruct (hexGroup s 0 0) as [[[off acc] rest]|]; [|reflexivity].
    destruct (off =? 0)%nat; [reflexivity|].
    destruct (match rest with String c _ => isDot c | EmptyString => false end);
      [reflexivity|].
    cbn zeta.
    destruct rest as [|c t]; [reflexivity|].
    destruct (negb (Ascii.eqb c ":")); [reflexivity|].
    destruct t as [|c' t']; [reflexivity|].
    destruct (Ascii.eqb c' ":").
    + destruct ellipsis; [reflexivity|]. destruct t'; [reflexivity|].
      apply IH; lia.
    + apply IH; lia.
Qed.

Lemma writeFields_length fields : forall i ip, length (writeFields i fields ip) = length ip.
Proof.
  induction fields as [|b fields IH]; intros i ip; [reflexivity|].
  simpl. rewrite IH. apply length_insert.
Qed.

Lemma parseIPv6Loop_length n : forall s i ip ellipsis s' i' ip' ellipsis',
  parseIPv6Loop n s i ip ellipsis = Some (s', i', ip', ellipsis') ->
  length ip' = length ip.
Proof.
  induction n as [|n IH]; intros s i ip ellipsis s' i' ip' ellipsis';
    rewrite parseIPv6Loop_unfold;
    (destruct (16 <=? i)%nat; [intros [= <- <- <- <-]; reflexivity|]); [discriminate|].
  destruct (hexGroup s 0 0) as [[[off acc] rest]|]; [|discriminate].
  destruct (off =? 0)%nat; [discriminate|].
  destruct (match rest with String c _ => isDot c | EmptyString => false end).
  { destruct (match ellipsis with None => _ | Some _ => _ end); [discriminate|].
    destruct (16 <? i + 4)%nat; [discriminate|].
    destruct (parseIPv4 s); [|discriminate].
    intros [= <- <- <- <-]. apply writeFields_length. }
  cbn zeta.
  assert (Hlen : length (<[S i := uint8 acc]> (<[i := uint8 (acc / 256)]> ip)) = length ip)
    by (etrans; apply length_insert).
  destruct rest as [|c t]; [intros [= <- <- <- <-]; exact Hlen|].
  destruct (negb (Ascii.eqb c ":")); [discriminate|].
  destruct t as [|c' t']; [discriminate|].
  destruct (Ascii.eqb c' ":").
  - destruct ellipsis; [discriminate|].
    destruct t'; [intros [= <- <- <- <-]; exact Hlen|].
    intros H. rewrite (IH _ _ _ _ _ _ _ _ H). exact Hlen.
  - intros H. rewrite (IH _ _ _ _ _ _ _ _ H). exact Hlen.
Qed.

Lemma foldl_insert_length {A} (f : list A -> nat -> nat) (g : list A -> nat -> A) js :
  forall l, length (foldl (fun l j => <[f l j := g l j]> l) l js) = length l.
Proof.
  induction js as [|j js IH]; intros l; [reflexivity|].
  simpl. rewrite IH. apply length_insert.
Qed.

Lemma expandEllipsis_length i e ip : length (expandEllipsis i e ip) = length ip.
Proof.
  unfold expandEllipsis.
  rewrite (foldl_insert_length (fun _ j => j) (fun _ _ => x00)).
  apply (foldl_insert_length (fun _ j => (j + (16 - i))%nat) (fun l j => nth j l x00)).
Qed.

Lemma parseIPv6_length s ip : parseIPv6 s = Some ip -> length ip = 16%nat.
Proof.
  unfold parseIPv6, parseIPv6With. destruct (hasZone s); [discriminate|].
  destruct (match s with
            | String c (String c' t) =>
                if Ascii.eqb c ":" && Ascii.eqb c' ":"
                then (t, Some 0%nat, match t with EmptyString => true | _ => false end)
                else (s, None, false)
            | _ => (s, None, false)
            end) as [[s0 e0] only].
  destruct only; [intros [= <-]; reflexivity|].
  destruct (parseIPv6Loop 8 s0 0 (replicate 16 x00) e0) as [[[[s' i'] ip'] e']|] eqn:Hl;
    [|discriminate].
  apply parseIPv6Loop_length in Hl.
  destruct s'; [|discriminate].
  destruct (i' <? 16)%nat.
  - destruct e'; [|discriminate]. intros [= <-]. rewrite expandEllipsis_length. exact Hl.
  - destruct e'; [discriminate|]. intros [= <-]. exact Hl.
Qed.

Lemma to_N_zero (b : byte) : Byte.to_N b = 0 -> b = x00.
Proof. destruct b; (reflexivity || discriminate). Qed.

Lemma to_N_255 (b : byte) : Byte.to_N b = 255 -> b = xff.
Proof. destruct b; (reflexivity || discriminate). Qed.

(** Of a 16-byte address [To4] is the last four bytes, when the first
    twelve are those of an IPv4-mapped address. *)
Lemma To4_sixteen ip ip4 :
  length ip = 16%nat -> To4 ip = Some ip4 -> ip = v4InV6Prefix ++ ip4.
Proof.
  intros Hlen. unfold To4. rewrite Hlen. simpl.
  do 16 (destruct ip as [|? ip]; [discriminate|]). destruct ip; [|discriminate].
  unfold octet. simpl.
  destruct (_ && _ && _) eqn:E; [|discriminate].
  intros [= <-].
  repeat (apply andb_true_iff in E as [E ?]).
  repeat match goal with
    | E : (Byte.to_N _ =? 0) = true |- _ => apply N.eqb_eq, to_N_zero in E; subst
    | E : (Byte.to_N _ =? 255) = true |- _ => apply N.eqb_eq, to_N_255 in E; subst
    | E : _ && _ = true |- _ => apply andb_true_iff in E as [? ?]
    end.
  reflexivity.
Qed.

Lemma addressChars_app s t : addressChars (s +:+ t) = addressChars s && addressChars t.
Proof.
  induction s as [|c s IH]; [reflexivity|].
  change (String c s +:+ t) with (String c (s +:+ t)). simpl.
  rewrite IH. apply andb_assoc.
Qed.

Lemma hexGroup_chars s : forall off acc k v rest,
  hexGroup s off acc = Some (k, v, rest) ->
  addressChars rest = true -> addressChars s = true.
Proof.
  induction s as [|c s IH]; intros off acc k v rest; simpl.
  - intros [= <- <- <-]. trivial.
  - unfold addressChar. destruct (hexValue c) as [x|] eqn:Hv.
    + destruct (3 <? off)%nat; [discriminate|].
      destruct (65535 <? acc * 16 + x); [discriminate|].
      intros H Hr. simpl. eapply IH; eassumption.
    + intros H Hr. assert (E : rest = String c s) by congruence.
      rewrite E in Hr. simpl in Hr. unfold addressChar in Hr. rewrite Hv in Hr.
      exact Hr.
Qed.

Lemma appendDecimal_chars (x : byte) : addressChars (appendDecimal (Byte.to_N x)) = true.
Proof. destruct x; reflexivity. Qed.

Lemma dotted_chars a b c d : addressChars (dotted a b c d) = true.
Proof.
  unfold dotted. rewrite !addressChars_app, !appendDecimal_chars. reflexivity.
Qed.

Lemma hasZone_chars s : addressChars s = true -> hasZone s = false.
Proof.
  induction s as [|c s IH]; [reflexivity|]. simpl.
  intros H. apply andb_true_iff in H as [Hc Hs]. rewrite (IH Hs), orb_false_r.
  destruct (Ascii.eqb_spec c "%") as [->|]; [discriminate | reflexivity].
Qed.

Lemma parseIPv4_chars s r : parseIPv4 s = Some r -> addressChars s = true.
Proof.
  intros H. apply parseIPv4_sound in H as (a & b & c & d & _ & ->). apply dotted_chars.
Qed.

Lemma parseIPv6Loop_chars n : forall s i ip ellipsis s' i' ip' ellipsis',
  parseIPv6Loop n s i ip ellipsis = Some (s', i', ip', ellipsis') ->
  addressChars s' = true -> addressChars s = true.
Proof.
  induction n as [|n IH]; intros s i ip ellipsis s' i' ip' ellipsis';
    rewrite parseIPv6Loop_unfold;
    (destruct (16 <=? i)%nat; [intros [= <- <- <- <-]; trivial|]); [discriminate|].
  destruct (hexGroup s 0 0) as [[[off acc] rest]|] eqn:Hg; [|discriminate].
  destruct (off =? 0)%nat; [discriminate|].
  destruct (match rest with String c _ => isDot c | EmptyString => false end).
  { destruct (match ellipsis with None => _ | Some _ => _ end); [discriminate|].
    destruct (16 <? i + 4)%nat; [discriminate|].
    destruct (parseIPv4 s) eqn:H4; [|discriminate].
    intros _ _. eapply parseIPv4_chars, H4. }
  cbn zeta.
  destruct rest as [|c t]; [intros _ _; eapply hexGroup_chars; [exact Hg | reflexivity]|].
  destruct (Ascii.eqb_spec c ":") as [->|]; [|discriminate]. cbn [negb].
  destruct t as [|c' t']; [discriminate|].
  destruct (Ascii.eqb_spec c' ":") as [->|].
  - destruct ellipsis; [discriminate|].
    destruct t' as [|c'' t''].
    + intros _ _. eapply hexGroup_chars; [exact Hg | reflexivity].
    + intros H Hs'. eapply hexGroup_chars; [exact Hg|].
      change (addressChars (String c'' t'') = true). eapply IH; eassumption.
  - intros H Hs'. eapply hexGroup_chars; [exact Hg|].
    change (addressChars (String c' t') = true). eapply IH; eassumption.
Qed.

Lemma parseIPv6_chars s ip : parseIPv6 s = Some ip -> addressChars s = true.
Proof.
  unfold parseIPv6, parseIPv6With. destruct (hasZone s); [discriminate|].
  assert (Hloop : forall e,
    match parseIPv6Loop 8 s 0 (replicate 16 x00) e with
    | Some (EmptyString, i, ip0, ellipsis) =>
        if (i <? 16)%nat
        then match ellipsis with
             | Some e => Some (expandEllipsis i e ip0)
             | None => None
             end
        else match ellipsis with
             | Some _ => None
             | None => Some ip0
             end
    | _ => None
    end = Some ip -> addressChars s = true).
  { intros e. destruct (parseIPv6Loop 8 s 0 _ e) as [[[[s' i'] ip'] e']|] eqn:Hl;
      [|discriminate].
    destruct s'; [|discriminate]. intros _. eapply parseIPv6Loop_chars; [exact Hl | reflexivity]. }
  destruct s as [|c [|c' t]]; [apply (Hloop None) | apply (Hloop None) |].
  destruct (Ascii.eqb_spec c ":") as [->|]; [|apply (Hloop None)].
  destruct (Ascii.eqb_spec c' ":") as [->|]; [|apply (Hloop None)].
  cbn [andb]. destruct t as [|c'' t'']; [reflexivity|]. cbn iota.
  destruct (parseIPv6Loop 8 _ 0 _ (Some 0%nat)) as [[[[s' i'] ip'] e']|] eqn:Hl;
    [|discriminate].
  destruct s'; [|discriminate]. intros _.
  change (addressChars (String c'' t'') = true).
  eapply parseIPv6Loop_chars; [exact Hl | reflexivity].
Qed.

Lemma dotted_head a b c d :
  exists c0 t0, dotted a b c d = String c0 t0 /\ Ascii.eqb c0 ":" = false.
Proof. unfold dotted. destruct a; eexists _, _; split; reflexivity. Qed.

Lemma hexGroup_dotted a b c d :
  exists k v r, hexGroup (dotted a b c d) 0 0 = Some (S k, v, String "." r).
Proof. unfold dotted. destruct a; eexists _, _, _; reflexivity. Qed.

(** The IPv4-mapped notation of an address is read as that address. *)
Lemma parseIPv6_mapped a b c d :
  parseIPv6 ("::ffff:" +:+ dotted a b c d) = Some (v4InV6Prefix ++ [a; b; c; d]).
Proof.
  unfold parseIPv6, parseIPv6With.
  rewrite hasZone_chars by (rewrite addressChars_app, dotted_chars; reflexivity).
  change ("::ffff:" +:+ dotted a b c d)
    with (String ":" (String ":" (String "f" ("fff:" +:+ dotted a b c d)))).
  cbn -[parseIPv6Loop dotted replicate expandEllipsis].
  change (String "f" ("fff:" +:+ dotted a b c d)) with ("ffff:" +:+ dotted a b c d).
  rewrite parseIPv6Loop_unfold.
  change (hexGroup ("ffff:" +:+ dotted a b c d) 0 0)
    with (Some (4%nat, 65535, String ":" (dotted a b c d))).
  destruct (dotted_head a b c d) as (c0 & t0 & E & Hc0).
  cbn -[parseIPv6Loop dotted replicate]. rewrite E, Hc0, <- E.
  rewrite parseIPv6Loop_unfold.
  destruct (hexGroup_dotted a b c d) as (k & v & r & ->).
  rewrite parseIPv4_dotted. reflexivity.
Qed.

(** C1.  [IsPrivateIP] is true of the dotted decimal notation of four
    octets exactly when the address is in 10.0.0.0-10.255.255.255,
    172.16.0.0-172.31.255.255 or 192.168.0.0-192.168.255.255, and it is
    true of the IPv4-mapped notation [::ffff:a.b.c.d] under the same
    condition: the claim, which has every input other than an address of
    the ranges false, does not hold of that notation.  For every string
    the answer is true exactly when the string is the dotted decimal
    notation of an address of the ranges, or has a colon as first
    separator and is read by [netip.parseIPv6] as the IPv4-mapped form
    of such an address.  Every other input is false: text that is not
    an address, leading zeros, octets over 255, missing or extra octets,
    a zone, and any string with a byte that is no hexadecimal digit, dot
    or colon.  In particular the boundary values 172.15.255.255 and
    172.32.0.0, the loopback 127.0.0.1 and malformed strings are false,
    and the first and last address of each block are true.  The eight
    turns of the loop of [netip.parseIPv6] are all it ever takes. *)
Theorem IsPrivateIP_exact (s : string) :
  (forall a b c d, IsPrivateIP (dotted a b c d) = true <-> inRFC1918 a b c d) /\
  (forall a b c d,
     IsPrivateIP ("::ffff:" +:+ dotted a b c d) = true <-> inRFC1918 a b c d) /\
  (IsPrivateIP s = true <->
     (exists a b c d, s = dotted a b c d /\ inRFC1918 a b c d) \/
     (firstSeparator s = Some ":"%char /\
      exists a b c d, parseIPv6 s = Some (v4InV6Prefix ++ [a; b; c; d]) /\
                      inRFC1918 a b c d)) /\
  (IsPrivateIP s = true -> addressChars s = true) /\
  (forall turns, (8 <= turns)%nat -> parseIPv6With turns s = parseIPv6 s) /\
  map IsPrivateIP ["172.15.255.255"; "172.32.0.0"; "127.0.0.1"; "9.255.255.255";
                   "11.0.0.0"; "192.167.255.255"; "192.169.0.0"; "8.8.8.8"]
    = [false; false; false; false; false; false; false; false] /\
  map IsPrivateIP ["invalid"; ""; "256.1.1.1"; "192.168.1"; "10.0.0.1.";
                   "010.0.0.1"; "10.0.0.1.1"; "10..0.1"; " 10.0.0.1"; "10.0.0.1/8"]
    = [false; false; false; false; false; false; false; false; false; false] /\
  map IsPrivateIP ["10.0.0.0"; "10.255.255.255"; "172.16.0.0"; "172.31.255.255";
                   "192.168.0.0"; "192.168.255.255"]
    = [true; true; true; true; true; true] /\
  map IsPrivateIP ["::ffff:10.0.0.1"; "::ffff:a00:1"; "::FFFF:192.168.1.100";
                   "0:0:0:0:0:ffff:172.16.0.1"; "::ffff:ac1f:ffff"]
    = [true; true; true; true; true] /\
  map IsPrivateIP ["not:an:address"; "::1"; "::"; "::ffff:8.8.8.8"; "::10.0.0.1";
                   "fe80::1"; "::ffff:10.0.0.1%eth0"; "10.0.0.1%eth0";
                   "::ffff:10.0.0.256"; "::ffff:010.0.0.1"; ":10.0.0.1";
                   "::ffff:10.0.0.1:"; "::ffff:172.15.255.255"; "::ffff:172.32.0.0";
                   "1::ffff:10.0.0.1"; "0:0:0:0:1:ffff:10.0.0.1"; "::fffe:10.0.0.1"]
    = [false; false; false; false; false; false; false; false; false; false; false;
       false; false; false; false; false; false].
Proof.
  assert (Hden : forall s', IsPrivateIP s' = true <->
            exists a b c d, parsedIPv4 s' = Some [a; b; c; d] /\ inRFC1918 a b c d).
  { intros s'. rewrite IsPrivateIP_parsed. split.
    - destruct (parsedIPv4 s') as [ip|] eqn:Hp; [|discriminate].
      unfold parsedIPv4 in Hp. destruct (ParseIP s') as [ip'|]; [|discriminate].
      destruct (To4_length _ _ Hp) as (a & b & c & d & ->).
      intros H. exists a, b, c, d. split; [reflexivity|].
      by apply privateOctets_inRFC1918.
    - intros (a & b & c & d & -> & H). by apply (privateOctets_inRFC1918 a b c d). }
  assert (Hchar : IsPrivateIP s = true <->
     (exists a b c d, s = dotted a b c d /\ inRFC1918 a b c d) \/
     (firstSeparator s = Some ":"%char /\
      exists a b c d, parseIPv6 s = Some (v4InV6Prefix ++ [a; b; c; d]) /\
                      inRFC1918 a b c d)).
  { rewrite Hden.
    destruct (decide (firstSeparator s = Some ":"%char)) as [Hsep|Hsep].
    - split.
      + intros (a & b & c & d & Hp & Hin). right. split; [exact Hsep|].
        unfold parsedIPv4, ParseIP in Hp. rewrite Hsep in Hp. simpl in Hp.
        destruct (parseIPv6 s) as [ip|] eqn:H6; [|discriminate].
        exists a, b, c, d. split; [|exact Hin].
        f_equal. apply To4_sixteen; [eapply parseIPv6_length, H6 | exact Hp].
      + intros [(a & b & c & d & -> & _) | (_ & a & b & c & d & H6 & Hin)].
        { rewrite firstSeparator_dotted in Hsep. discriminate. }
        exists a, b, c, d. split; [|exact Hin].
        unfold parsedIPv4, ParseIP. rewrite Hsep. simpl. rewrite H6. reflexivity.
    - split.
      + intros (a & b & c & d & Hp & Hin). left.
        apply (parsedIPv4_text _ _ Hsep) in Hp as (a' & b' & c' & d' & [= -> -> -> ->] & ->).
        eauto 6.
      + intros [(a & b & c & d & -> & Hin) | (Hc & _)]; [|contradiction].
        exists a, b, c, d. split; [apply parsedIPv4_dotted | exact Hin]. }
  split.
  { intros a b c d. rewrite IsPrivateIP_dotted. apply privateOctets_inRFC1918. }
  split.
  { intros a b c d. rewrite <- (privateOctets_inRFC1918 a b c d).
    unfold IsPrivateIP, ParseIP.
    change (firstSeparator ("::ffff:" +:+ dotted a b c d)) with (Some ":"%char).
    cbn [isDot Ascii.eqb]. change (Ascii.eqb ":" ".") with false.
    change (Ascii.eqb ":" ":") with true. cbv beta iota.
    rewrite parseIPv6_mapped. reflexivity. }
  split; [exact Hchar|].
  split.
  { intros H. apply Hchar in H as [(a & b & c & d & -> & _) | (_ & a & b & c & d & H6 & _)].
    - apply dotted_chars.
    - eapply parseIPv6_chars, H6. }
  split.
  { intros turns Hturns. unfold parseIPv6, parseIPv6With.
    destruct (hasZone s); [reflexivity|].
    destruct (match s with
              | String c (String c' t) =>
                  if Ascii.eqb c ":" && Ascii.eqb c' ":"
                  then (t, Some 0%nat, match t with EmptyString => true | _ => false end)
                  else (s, None, false)
              | _ => (s, None, false)
              end) as [[s0 e0] only].
    destruct only; [reflexivity|].
    rewrite (parseIPv6Loop_turns turns 8) by lia. reflexivity. }
  repeat split; reflexivity.
Qed.

End PrivateRange.

(** ** Scanner *)

Section ScannerProperties.

Context {go : GoStdlib}.

Lemma IP_String_To4 ip a b c d :
  To4 ip = Some [a; b; c; d] -> IP_String ip = dotted a b c d.
Proof.
  intros H. unfold IP_String.
  assert (Hlen : (length ip =? 4)%nat = true \/ (length ip =? 16)%nat = true).
  { unfold To4 in H. destruct (length ip =? 4)%nat; [by left|].
    destruct (length ip =? 16)%nat; [by right|]. discriminate. }
  destruct ip as [|x ip]; [destruct Hlen; discriminate|].
  rewrite H. destruct Hlen as [-> | ->]; simpl; [reflexivity|].
  rewrite andb_false_r. reflexivity.
Qed.

Lemma scanAddrs_omap name addrs result :
  scanAddrs name addrs result = result ++ omap (candidateFor name) addrs.
Proof.
  revert result. induction addrs as [|addr addrs IH]; intros result; simpl.
  - by rewrite app_nil_r.
  - unfold candidateFor at 1.
    destruct (To4 (addrIP addr)) as [ip4|] eqn:H4; [|apply IH].
    destruct (To4_length _ _ H4) as (a & b & c & d & ->).
    rewrite (IP_String_To4 _ _ _ _ _ H4), IsPrivateIP_dotted.
    destruct (privateOctets _ _); simpl; [|apply IH].
    rewrite IH, <- app_assoc. reflexivity.
Qed.

Lemma scanInterfaces_concat ifaces result :
  scanInterfaces ifaces result = result ++ concat (map candidatesFor ifaces).
Proof.
  revert result. induction ifaces as [|iface ifaces IH]; intros result; simpl.
  - by rewrite app_nil_r.
  - unfold candidatesFor at 1.
    destruct (_ =? 0); [apply IH|].
    destruct (negb _); [apply IH|].
    destruct (Addrs iface) as [addrs|err]; [|apply IH].
    rewrite IH, scanAddrs_omap, <- app_assoc. reflexivity.
Qed.

Lemma elem_of_candidatesFor iface info :
  info ∈ candidatesFor iface <-> exists addr, candidateOf iface addr info.
Proof.
  unfold candidatesFor, candidateOf, isUp, isLoopback.
  destruct (N.eqb_spec (N.land (Flags iface) FlagUp) 0) as [Hup|Hup].
  { split; [intros H; by apply elem_of_nil in H | intros (? & ? & _); contradiction]. }
  destruct (N.eqb_spec (N.land (Flags iface) FlagLoopback) 0) as [Hlo|Hlo]; simpl.
  2: { split; [intros H; by apply elem_of_nil in H | intros (? & _ & ? & _); contradiction]. }
  destruct (Addrs iface) as [addrs|err].
  2: { split; [intros H; by apply elem_of_nil in H|].
       intros (? & _ & _ & (? & ? & _) & _). discriminate. }
  rewrite list_elem_of_omap. split.
  - intros (addr & Hin & Hc). exists addr.
    split; [exact Hup|]. split; [intros H; by apply H, Hlo|].
    split; [exists addrs; auto|].
    unfold candidateFor in Hc.
    destruct (To4 (addrIP addr)) as [ip4|] eqn:H4; [|discriminate].
    destruct (To4_length _ _ H4) as (a & b & c & d & ->).
    destruct (privateOctets _ _) eqn:Hpriv; [|discriminate].
    injection Hc as <-. exists a, b, c, d.
    split; [reflexivity|]. split; [|reflexivity].
    by apply privateOctets_inRFC1918.
  - intros (addr & _ & _ & (addrs' & [= <-] & Hin) & a & b & c & d & H4 & Hpriv & ->).
    exists addr. split; [exact Hin|].
    unfold candidateFor. rewrite H4.
    apply (privateOctets_inRFC1918 a b c d) in Hpriv. rewrite Hpriv. reflexivity.
Qed.

Lemma elem_of_concat_map info ifaces :
  info ∈ concat (map candidatesFor ifaces) <->
  exists iface, iface ∈ ifaces /\ info ∈ candidatesFor iface.
Proof.
  induction ifaces as [|iface ifaces IH]; simpl.
  - split; [intros H; by apply elem_of_nil in H|].
    intros (? & H & _). by apply elem_of_nil in H.
  - rewrite elem_of_app, IH. split.
    + intros [H | (i & Hi & H)]; [exists iface | exists i]; split; auto;
        [apply list_elem_of_here | by apply list_elem_of_further].
    + intros (i & Hi & H). apply elem_of_cons in Hi as [-> | Hi]; [by left|].
      right. eauto.
Qed.

(** C2. Whatever interfaces the operating system lists, the scanner
    returns a candidate exactly for each address of theirs that is an
    IPv4 address of the private blocks on an interface that is up and not
    loopback.  So every candidate has a private address, which
    [IsPrivateIP] accepts, and comes from such an interface; and an
    interface that is down or loopback, an address that is not IPv4, and
    an address outside the blocks contribute no candidate. *)
Theorem GetAllInterfaces_private_only (ifaces : list NetInterface) :
  exists result,
    GetAllInterfaces (inl ifaces) = inl result /\
    (forall info, info ∈ result <->
       exists iface addr, iface ∈ ifaces /\ candidateOf iface addr info) /\
    (forall info, info ∈ result -> IsPrivateIP (IP_ info) = true) /\
    (forall iface, iface ∈ ifaces -> ~ isUp iface \/ isLoopback iface ->
       forall addr info, ~ candidateOf iface addr info) /\
    (forall iface addr info,
       To4 (addrIP addr) = None -> ~ candidateOf iface addr info) /\
    (forall iface addr info a b c d,
       To4 (addrIP addr) = Some [a; b; c; d] -> ~ inRFC1918 a b c d ->
       ~ candidateOf iface addr info).
Proof.
  exists (scanInterfaces ifaces []). split; [reflexivity|].
  assert (Hmem : forall info, info ∈ scanInterfaces ifaces [] <->
            exists iface addr, iface ∈ ifaces /\ candidateOf iface addr info).
  { intros info. rewrite scanInterfaces_concat, app_nil_l, elem_of_concat_map.
    split.
    - intros (iface & Hif & Hin).
      apply elem_of_candidatesFor in Hin as (addr & Hc). eauto.
    - intros (iface & addr & Hif & Hc). exists iface. split; [exact Hif|].
      apply elem_of_candidatesFor. eauto. }
  split; [exact Hmem|].
  split.
  { intros info Hin. apply Hmem in Hin as (iface & addr & _ & Hc).
    destruct Hc as (_ & _ & _ & a & b & c & d & _ & Hpriv & ->). simpl.
    rewrite IsPrivateIP_dotted. by apply (privateOctets_inRFC1918 a b c d). }
  split.
  { intros iface _ [Hdown|Hloop] addr info (Hup & Hnl & _); tauto. }
  split.
  { intros iface addr info Hnone (_ & _ & _ & a & b & c & d & H4 & _). congruence. }
  intros iface addr info a b c d H4 Hout (_ & _ & _ & a' & b' & c' & d' & H4' & Hin & _).
  rewrite H4 in H4'. injection H4' as <- <- <- <-. contradiction.
Qed.

End ScannerProperties.

(** ** URL rewrite *)

Section RewriteProperties.

Import strings.

Implicit Types (s t r old new value newIP : string) (c : ascii).

Lemma HasPrefix_append p r : HasPrefix (p +:+ r) p = true.
Proof.
  induction p as [|c p IH]; [reflexivity|].
  rewrite append_cons. simpl. rewrite Ascii.eqb_refl. exact IH.
Qed.

Lemma HasPrefix_split s p : HasPrefix s p = true -> exists r, s = p +:+ r.
Proof.
  revert s. induction p as [|c p IH]; intros s H.
  - exists s. reflexivity.
  - destruct s as [|c' s]; [discriminate|]. simpl in H.
    apply andb_true_iff in H as [Hc H]. apply Ascii.eqb_eq in Hc as ->.
    destruct (IH _ H) as (r & ->). exists r. reflexivity.
Qed.

Lemma Contains_HasPrefix s sub : Contains s sub = false -> HasPrefix s sub = false.
Proof. destruct s; simpl; intros H; apply orb_false_iff in H as [H _]; exact H. Qed.

Lemma Contains_tail c s sub : Contains (String c s) sub = false -> Contains s sub = false.
Proof. simpl. intros H. apply orb_false_iff in H as [_ H]. exact H. Qed.

Lemma replaceScan_skip x y old new :
  replaceScan (String.length x) (x +:+ y) old new = replaceScan 0 y old new.
Proof.
  induction x as [|c x IH]; [reflexivity|].
  rewrite append_cons. simpl. destruct y; exact IH.
Qed.

(** A leading instance of [old] is replaced, and the scan goes on behind
    it. *)
Lemma replaceScan_token c old' r new :
  replaceScan 0 (String c old' +:+ r) (String c old') new =
  new +:+ replaceScan 0 r (String c old') new.
Proof.
  rewrite append_cons.
  change (replaceScan 0 (String c (old' +:+ r)) (String c old') new)
    with (if HasPrefix (String c (old' +:+ r)) (String c old')
          then new +:+ replaceScan (String.length (String c old') - 1)
                                   (old' +:+ r) (String c old') new
          else String c (replaceScan 0 (old' +:+ r) (String c old') new)).
  rewrite <- append_cons, HasPrefix_append.
  replace (String.length (String c old') - 1)%nat with (String.length old')
    by (simpl; lia).
  rewrite replaceScan_skip. reflexivity.
Qed.

(** A byte that starts no instance of [old] is kept. *)
Lemma replaceScan_byte c t old new :
  HasPrefix (String c t) old = false ->
  replaceScan 0 (String c t) old new = String c (replaceScan 0 t old new).
Proof.
  intros H.
  change (replaceScan 0 (String c t) old new)
    with (if HasPrefix (String c t) old
          then new +:+ replaceScan (String.length old - 1) t old new
          else String c (replaceScan 0 t old new)).
  rewrite H. reflexivity.
Qed.

Lemma replaceScan_absent s old new :
  Contains s old = false -> replaceScan 0 s old new = s.
Proof.
  induction s as [|c s IH]; intros H; [reflexivity|].
  rewrite replaceScan_byte by (apply Contains_HasPrefix, H).
  rewrite IH by (eapply Contains_tail, H). reflexivity.
Qed.

Lemma replaceScan_same n : forall s c old',
  (String.length s <= n)%nat ->
  replaceScan 0 s (String c old') (String c old') = s.
Proof.
  induction n as [|n IH]; intros s c old' Hlen.
  - destruct s; [reflexivity | simpl in Hlen; lia].
  - destruct s as [|c' t]; [reflexivity|].
    destruct (HasPrefix (String c' t) (String c old')) eqn:Hp.
    + apply HasPrefix_split in Hp as (r & Hr). rewrite Hr.
      rewrite replaceScan_token, IH; [reflexivity|].
      apply (f_equal String.length) in Hr. rewrite length_append in Hr.
      simpl in Hr, Hlen. lia.
    + rewrite replaceScan_byte by exact Hp. rewrite IH; [reflexivity|].
      simpl in Hlen. lia.
Qed.

(** For a non-empty [old], [ReplaceAll] is the scan. *)
Lemma ReplaceAll_scan s c old' new :
  ReplaceAll s (String c old') new = replaceScan 0 s (String c old') new.
Proof.
  unfold ReplaceAll. destruct (String.eqb_spec (String c old') new) as [<-|]; [|reflexivity].
  symmetry. apply (replaceScan_same (String.length s)). lia.
Qed.

Lemma ReplaceAll_absent s c old' new :
  Contains s (String c old') = false -> ReplaceAll s (String c old') new = s.
Proof. intros H. rewrite ReplaceAll_scan. by apply replaceScan_absent. Qed.

Lemma transformURL_scan value newIP :
  transformURL value newIP =
  replaceScan 0 (replaceScan 0 value "localhost" newIP) "127.0.0.1" newIP.
Proof. unfold transformURL. rewrite !ReplaceAll_scan. reflexivity. Qed.

(** The three cases of the one-pass rewrite. *)
Lemma replaceEveryToken_localhost r newIP :
  replaceEveryToken 0 ("localhost" +:+ r) newIP = newIP +:+ replaceEveryToken 0 r newIP.
Proof. destruct r; reflexivity. Qed.

Lemma replaceEveryToken_loopback r newIP :
  replaceEveryToken 0 ("127.0.0.1" +:+ r) newIP = newIP +:+ replaceEveryToken 0 r newIP.
Proof. destruct r; reflexivity. Qed.

Lemma replaceEveryToken_byte c t newIP :
  HasPrefix (String c t) "localhost" = false ->
  HasPrefix (String c t) "127.0.0.1" = false ->
  replaceEveryToken 0 (String c t) newIP = String c (replaceEveryToken 0 t newIP).
Proof.
  intros H1 H2.
  change (replaceEveryToken 0 (String c t) newIP)
    with (if HasPrefix (String c t) "localhost" || HasPrefix (String c t) "127.0.0.1"
          then newIP +:+ replaceEveryToken 8 t newIP
          else String c (replaceEveryToken 0 t newIP)).
  rewrite H1, H2. reflexivity.
Qed.

Lemma replaceScan_first_pass newIP :
  replaceScan 0 "127.0.0.localhost" "localhost" newIP = "127.0.0." +:+ newIP.
Proof.
  rewrite !replaceScan_byte by reflexivity.
  change "localhost" with ("localhost" +:+ EmptyString) at 1.
  rewrite replaceScan_token. simpl. rewrite append_nil_r. reflexivity.
Qed.

Lemma replaceEveryToken_cascade newIP :
  replaceEveryToken 0 "127.0.0.localhost" newIP = "127.0.0." +:+ newIP.
Proof.
  rewrite !replaceEveryToken_byte by reflexivity.
  change "localhost" with ("localhost" +:+ EmptyString).
  rewrite replaceEveryToken_localhost. simpl. rewrite append_nil_r. reflexivity.
Qed.

(** With an address that starts with [1], the first pass on
    [127.0.0.localhost] makes a [127.0.0.1] that the second pass
    replaces. *)
Lemma transformURL_completes c rest :
  transformURL "127.0.0.localhost" (String "1" (String c rest)) =
  String "1" (String c rest) +:+
    replaceScan 0 (String c rest) "127.0.0.1" (String "1" (String c rest)).
Proof.
  rewrite transformURL_scan, replaceScan_first_pass.
  change ("127.0.0." +:+ String "1" (String c rest))
    with ("127.0.0.1" +:+ String c rest).
  apply replaceScan_token.
Qed.

(** Every address of the private ranges starts with [1] and goes on with
    a digit other than [2]. *)
Lemma dotted_private_head (a b c d : byte) :
  inRFC1918 a b c d ->
  exists e rest, dotted a b c d = String "1" (String e rest) /\ e <> "2"%char.
Proof.
  intros H. apply privateOctets_inRFC1918 in H. unfold privateOctets in H.
  unfold dotted.
  destruct (N.eqb_spec (Byte.to_N a) 10) as [E|_].
  { rewrite E. change (appendDecimal 10) with "10". eexists _, _.
    split; [reflexivity | discriminate]. }
  destruct (N.eqb_spec (Byte.to_N a) 172) as [E|_].
  { rewrite E. change (appendDecimal 172) with "172". eexists _, _.
    split; [reflexivity | discriminate]. }
  destruct (N.eqb_spec (Byte.to_N a) 192) as [E|_]; [|discriminate].
  rewrite E. change (appendDecimal 192) with "192". eexists _, _.
  split; [reflexivity | discriminate].
Qed.

(** C5. What holds of the claim: a value that contains neither token is
    returned unchanged, and the example of the design document comes out
    as written there.  What does not: [transformURL] makes two passes,
    the second over the result of the first, so it also replaces a
    [127.0.0.1] that an inserted address completes.  On the value
    [127.0.0.localhost], which holds one [localhost] and no [127.0.0.1],
    this happens with every address of the private ranges, all of which
    start with [1]: the value with its one token replaced is [127.0.0.]
    followed by the address, and [transformURL] returns a text that
    starts with the address instead. *)
Theorem transformURL_cascade (a b c d : byte) value newIP :
  (Contains value "localhost" = false -> Contains value "127.0.0.1" = false ->
   transformURL value newIP = value) /\
  transformURL "http://localhost:8000?x=http://localhost:3000" "192.168.1.100" =
    "http://192.168.1.100:8000?x=http://192.168.1.100:3000" /\
  Contains "127.0.0.localhost" "127.0.0.1" = false /\
  replaceEveryToken 0 "127.0.0.localhost" newIP = "127.0.0." +:+ newIP /\
  (inRFC1918 a b c d ->
   HasPrefix (transformURL "127.0.0.localhost" (dotted a b c d)) (dotted a b c d) = true /\
   HasPrefix (transformURL "127.0.0.localhost" (dotted a b c d)) "127.0.0." = false /\
   transformURL "127.0.0.localhost" (dotted a b c d) <>
     replaceEveryToken 0 "127.0.0.localhost" (dotted a b c d)).
Proof.
  split.
  { intros Hl Ht. unfold transformURL.
    rewrite (ReplaceAll_absent _ _ _ _ Hl). apply (ReplaceAll_absent _ _ _ _ Ht). }
  split; [reflexivity|]. split; [reflexivity|].
  split; [apply replaceEveryToken_cascade|].
  intros Hpriv. destruct (dotted_private_head a b c d Hpriv) as (e & rest & -> & He).
  rewrite transformURL_completes, replaceEveryToken_cascade.
  split; [apply HasPrefix_append|].
  split.
  - rewrite !append_cons. simpl. destruct (Ascii.eqb_spec e "2"); [contradiction | reflexivity].
  - rewrite !append_cons. intros [= E]. contradiction.
Qed.

End RewriteProperties.

(** ** The examples of the design document and of the tests *)

Section Examples.

Import strings.

Example classifyInterface_tests :
  map (classifyInterface (go := plainGo))
      ["wlan0"; "WLAN0"; "docker0"; "eth0"; "en0"; "unknownIface0"; "br-123456";
       "vboxnet0"; "wl0"; "my-wi-fi"; "ETH0"; "DOCKER0"]
  = ["wifi"; "wifi"; "virtual"; "ethernet"; "ethernet"; "ethernet"; "virtual";
     "virtual"; "wifi"; "wifi"; "ethernet"; "virtual"].
Proof. reflexivity. Qed.

Example PrioritizeInterfaces_tests :
  PrioritizeInterfaces
    [mkNetworkInfo "172.17.0.1" "docker0" "virtual";
     mkNetworkInfo "192.168.1.100" "wlan0" "wifi"]
  = Some (mkNetworkInfo "192.168.1.100" "wlan0" "wifi") /\
  PrioritizeInterfaces
    [mkNetworkInfo "192.168.1.50" "eth0" "ethernet";
     mkNetworkInfo "192.168.1.100" "wlan0" "wifi"]
  = Some (mkNetworkInfo "192.168.1.50" "eth0" "ethernet") /\
  PrioritizeInterfaces
    [mkNetworkInfo "172.17.0.1" "docker0" "virtual";
     mkNetworkInfo "172.18.0.1" "br-123" "virtual"]
  = Some (mkNetworkInfo "172.17.0.1" "docker0" "virtual") /\
  PrioritizeInterfaces [] = None.
Proof. repeat split; reflexivity. Qed.

(** A loopback interface, a bridge of a container runtime, and a wifi
    interface with a private and a public address. *)
Example DetectLocalIP_example :
  DetectLocalIP (go := plainGo)
    (inl [mkNetInterface "lo" 5 (inl [IPNet [x7f; x00; x00; x01]]);
          mkNetInterface "docker0" 1 (inl [IPNet [xac; x11; x00; x01]]);
          mkNetInterface "eth1" 2 (inl [IPNet [x0a; x00; x00; x07]]);
          mkNetInterface "wlan0" 3
            (inl [IPNet [x08; x08; x08; x08]; IPNet [xc0; xa8; x01; x64];
                  IPAddr (v4InV6Prefix ++ [x0a; x01; x02; x03])])])
  = inl (mkNetworkInfo "192.168.1.100" "wlan0" "wifi").
Proof. reflexivity. Qed.

(** C1, the input on which the claim as stated fails: the text is no
    address of the three ranges in dotted decimal notation, it is the
    IPv4-mapped IPv6 notation of one, and [IsPrivateIP] is true of it. *)
Lemma IsPrivateIP_counterexample :
  IsPrivateIP "::ffff:10.0.0.1" = true /\
  firstSeparator "::ffff:10.0.0.1" = Some ":"%char /\
  parseIPv4 "::ffff:10.0.0.1" = None /\
  parseIPv6 "::ffff:10.0.0.1" = Some (v4InV6Prefix ++ [x0a; x00; x00; x01]) /\
  (forall a b c d, "::ffff:10.0.0.1" <> dotted a b c d).
Proof.
  split; [reflexivity|]. split; [reflexivity|]. split; [reflexivity|].
  split; [reflexivity|].
  intros a b c d H. apply (f_equal firstSeparator) in H.
  rewrite firstSeparator_dotted in H. discriminate.
Qed.

(** C5, the input on which the claim as stated fails: the value holds
    one [localhost] and no [127.0.0.1], so the value with every occurrence
    replaced is [127.0.0.192.168.1.100]; the second pass of
    [transformURL] finds a [127.0.0.1] that the first pass has made. *)
Lemma transformURL_counterexample :
  Contains "127.0.0.localhost" "127.0.0.1" = false /\
  replaceEveryToken 0 "127.0.0.localhost" "192.168.1.100" = "127.0.0.192.168.1.100" /\
  transformURL "127.0.0.localhost" "192.168.1.100" = "192.168.1.10092.168.1.100" /\
  transformURL "127.0.0.localhost" "192.168.1.100" <>
    replaceEveryToken 0 "127.0.0.localhost" "192.168.1.100".
Proof. repeat split; try reflexivity. discriminate. Qed.

(** C5 at the address of the design document. *)
Lemma transformURL_cascade_witness :
  inRFC1918 xc0 xa8 x01 x64 /\
  dotted xc0 xa8 x01 x64 = "192.168.1.100" /\
  transformURL "127.0.0.localhost" "192.168.1.100" <>
    replaceEveryToken 0 "127.0.0.localhost" "192.168.1.100" /\
  (Contains "http://192.168.1.50:8000" "localhost" = false /\
   Contains "http://192.168.1.50:8000" "127.0.0.1" = false /\
   transformURL "http://192.168.1.50:8000" "192.168.1.100" = "http://192.168.1.50:8000").
Proof.
  assert (Hp : inRFC1918 xc0 xa8 x01 x64).
  { right. right. unfold ipv4Value, quad. simpl. lia. }
  split; [exact Hp|]. split; [reflexivity|].
  split.
  { exact (proj2 (proj2 (proj2 (proj2 (proj2 (proj2
      (transformURL_cascade xc0 xa8 x01 x64 EmptyString EmptyString)))) Hp))). }
  split; [reflexivity|]. split; [reflexivity|].
  apply (proj1 (transformURL_cascade x00 x00 x00 x00
                  "http://192.168.1.50:8000" "192.168.1.100")); reflexivity.
Defined.

(** C3 on the names of the tests: case does not matter. *)
Lemma classifyInterface_rules_witness :
  isASCII "wlan0" = true /\ sameUpToCase "wlan0" "WLAN0" /\
  classifyInterface (go := plainGo) "WLAN0" = classifyInterface (go := plainGo) "wlan0" /\
  virtualRule (ToLower (go := plainGo) "DOCKER0") /\
  classifyInterface (go := plainGo) "DOCKER0" = "virtual".
Proof.
  split; [reflexivity|]. split; [reflexivity|].
  split.
  { apply (proj2 (proj2 (proj2 (proj2 (proj2 (proj2 (proj2
             (classifyInterface_rules (go := plainGo) "wlan0")))))))); reflexivity. }
  assert (Hv : virtualRule (ToLower (go := plainGo) "DOCKER0")).
  { exists "docker". split; [apply list_elem_of_here | reflexivity]. }
  split; [exact Hv|].
  apply (proj1 (proj2 (classifyInterface_rules (go := plainGo) "DOCKER0"))), Hv.
Defined.

(** C6, the run of the design document: the watcher holds 192.168.1.100,
    the next poll finds 192.168.1.101, the one after finds it again. *)
Lemma watcher_callback_on_change_witness :
  let w := mkIPWatcher "192.168.1.100" (5 * second)%Z true ChanOpen false in
  stopped w = false /\ OnChange w = true /\
  DetectLocalIP (go := plainGo) (inl [wlan0 x64])
    = inl (mkNetworkInfo "192.168.1.100" "wlan0" "wifi") /\
  DetectLocalIP (go := plainGo) (inl [wlan0 x65])
    = inl (mkNetworkInfo "192.168.1.101" "wlan0" "wifi") /\
  callbacks (traceOf (monitor (go := plainGo) w [EvTick (inl [wlan0 x65])]))
    = [("192.168.1.100", "192.168.1.101")] /\
  callbacks (traceOf (monitor (go := plainGo) w
                        [EvTick (inl [wlan0 x65]); EvTick (inl [wlan0 x65])]))
    = [("192.168.1.100", "192.168.1.101")] /\
  callbacks (traceOf (monitor (go := plainGo) w [EvTick (inl [wlan0 x64])])) = [] /\
  Start (go := plainGo) w (inl [wlan0 x64]) [EvTick (inl [wlan0 x65])]
    = (setCurrentIP w "192.168.1.101",
       [Scanned; Scanned; Called "192.168.1.100" "192.168.1.101"], Running).
Proof.
  intros w.
  assert (Hs : stopped w = false) by reflexivity.
  assert (Hc : OnChange w = true) by reflexivity.
  assert (H0 : DetectLocalIP (go := plainGo) (inl [wlan0 x64])
               = inl (mkNetworkInfo "192.168.1.100" "wlan0" "wifi")) by reflexivity.
  assert (H1 : DetectLocalIP (go := plainGo) (inl [wlan0 x65])
               = inl (mkNetworkInfo "192.168.1.101" "wlan0" "wifi")) by reflexivity.
  repeat (split; [assumption|]).
  pose proof (watcher_callback_on_change (go := plainGo) w (inl [wlan0 x64])
                (inl [wlan0 x65]) [] [EvTick (inl [wlan0 x65])] _ _ Hs Hc H0 H1)
    as (_ & Hpos & _ & Hchg & _).
  pose proof (watcher_callback_on_change (go := plainGo) w (inl [wlan0 x64])
                (inl [wlan0 x64]) [] [] _ _ Hs Hc H0 H0) as (_ & _ & _ & _ & Hsame).
  destruct Hchg as (_ & Hrest & Hone & _); [discriminate|].
  destruct Hsame as (_ & _ & Hnone & _); [reflexivity|].
  destruct Hpos as (_ & Hstart & _); [reflexivity|].
  split; [exact Hone|]. split; [rewrite Hrest; reflexivity|].
  split; [exact Hnone|].
  apply Hstart. discriminate.
Defined.

(** C7: the operating system fails to list the interfaces. *)
Lemma watcher_scan_failure_witness :
  let w := mkIPWatcher "192.168.1.100" (5 * second)%Z true ChanOpen false in
  let err := ErrWrap "failed to get network interfaces" (ErrOS "route ip+net: netlinkrib") in
  DetectLocalIP (go := plainGo) (inr (ErrOS "route ip+net: netlinkrib")) = inr err /\
  monitor (go := plainGo) w
    [EvTick (inr (ErrOS "route ip+net: netlinkrib")); EvTick (inl [wlan0 x65])]
    = (setCurrentIP w "192.168.1.101",
       [Scanned; Scanned; Called "192.168.1.100" "192.168.1.101"], Running) /\
  Start (go := plainGo) w (inr (ErrOS "route ip+net: netlinkrib"))
        [EvTick (inl [wlan0 x65])]
    = (w, [Scanned], Returned (Some err)).
Proof.
  intros w err.
  assert (Hd : DetectLocalIP (go := plainGo) (inr (ErrOS "route ip+net: netlinkrib"))
               = inr err) by reflexivity.
  split; [exact Hd|].
  pose proof (watcher_scan_failure (go := plainGo) w _ [EvTick (inl [wlan0 x65])]
                [EvTick (inl [wlan0 x65])] _ Hd) as (_ & Hcont & _ & Hinit).
  split; [rewrite Hcont; reflexivity | apply Hinit; reflexivity].
Defined.

(** C9, the write of [TestEnvWriter_Write_WithBackup]. *)
Lemma Write_backup_first_witness :
  let fs := mkFileSystem {[ ".env" := "OLD_VAR=old_value" ]} ∅ [] in
  files fs !! ".env" = Some "OLD_VAR=old_value" /\
  (".env" ∉ denied fs) /\ (".env.bak" ∉ denied fs) /\
  files (fst (Write (NewEnvWriter ".env") "2025-10-27 23:50:12"
                    [mkEnvVar "NEW_VAR" "new_value" true] fs)) !! ".env.bak"
    = Some "OLD_VAR=old_value".
Proof.
  intros fs.
  assert (Hold : files fs !! ".env" = Some "OLD_VAR=old_value")
    by apply lookup_singleton_eq.
  assert (Hp : ".env" ∉ denied fs) by apply not_elem_of_empty.
  assert (Hb : ".env.bak" ∉ denied fs) by apply not_elem_of_empty.
  repeat (split; [assumption|]).
  apply (proj1 (Write_backup_first ".env" "2025-10-27 23:50:12"
                  [mkEnvVar "NEW_VAR" "new_value" true] fs) _ Hold); assumption.
Defined.

End Examples.

(** ** Detection: scanner and selector together *)

Section DetectionProperties.

Context {go : GoStdlib}.

(** A candidate of the scanner carries one of the two classes the selector
    calls physical, or virtual. *)
Lemma candidate_class iface info :
  info ∈ candidatesFor iface -> isWifiOrEthernet info = negb (isVirtual info).
Proof.
  intros Hin. apply elem_of_candidatesFor in Hin as (addr & _ & _ & _ & a & b & c & d & _ & _ & ->).
  unfold isWifiOrEthernet, isVirtual; simpl.
  rewrite classifyInterface_cases.
  destruct (isVirtualName _); [reflexivity|]. destruct (isWifiName _); reflexivity.
Qed.

Lemma scan_class ifaces info :
  info ∈ scanInterfaces ifaces [] -> isWifiOrEthernet info = negb (isVirtual info).
Proof.
  rewrite scanInterfaces_concat, app_nil_l, elem_of_concat_map.
  intros (iface & _ & Hin). eapply candidate_class, Hin.
Qed.

Lemma find_ext_in (f g : NetworkInfo -> bool) l :
  (forall i, i ∈ l -> f i = g i) -> List.find f l = List.find g l.
Proof.
  induction l as [|i l IH]; intros H; [reflexivity|]. simpl.
  rewrite (H i) by apply list_elem_of_here.
  destruct (g i); [reflexivity|]. apply IH. intros j Hj. apply H.
  by apply list_elem_of_further.
Qed.

Lemma find_elem_of (f : NetworkInfo -> bool) l i :
  List.find f l = Some i -> i ∈ l /\ f i = true.
Proof.
  intros H. apply find_some in H as [H1 H2]. split; [by apply list_elem_of_In | exact H2].
Qed.

(** The scan and the selection of [DetectLocalIP] in one formula: the
    first candidate that is not virtual, else the first candidate. *)
Lemma DetectLocalIP_scan ifaces :
  DetectLocalIP (inl ifaces) =
    match List.find (fun i => negb (isVirtual i)) (scanInterfaces ifaces []) with
    | Some i => inl i
    | None =>
        match scanInterfaces ifaces [] with
        | i :: _ => inl i
        | [] => inr (ErrNew "no active network interfaces found")
        end
    end.
Proof.
  unfold DetectLocalIP, GetAllInterfaces.
  set (l := scanInterfaces ifaces []).
  assert (Hcl : forall i, i ∈ l -> isWifiOrEthernet i = negb (isVirtual i))
    by (intros i; apply scan_class).
  rewrite PrioritizeInterfaces_selectByPolicy. unfold selectByPolicy.
  rewrite (find_ext_in _ _ _ Hcl).
  destruct l as [|i0 l0] eqn:El; [reflexivity|].
  destruct (List.find (fun i => negb (isVirtual i)) (i0 :: l0)) as [i|] eqn:Hf; [reflexivity|].
  simpl in Hf |- *. destruct (isVirtual i0); [reflexivity | discriminate].
Qed.

(** X1. [DetectLocalIP] fails in two ways only: the operating system
    cannot list the interfaces, and its error comes back wrapped, or the
    scan finds no candidate.  Otherwise it returns one of the candidates
    of the scan, with an address [IsPrivateIP] accepts; its third error,
    for a selector that selects nothing, never occurs. *)
Theorem DetectLocalIP_outcome (os : list NetInterface + error) :
  (forall err, DetectLocalIP os = inr err ->
     (exists cause, os = inr cause /\
        err = ErrWrap "failed to get network interfaces" cause) \/
     (exists ifaces, os = inl ifaces /\ GetAllInterfaces os = inl [] /\
        err = ErrNew "no active network interfaces found")) /\
  (forall info, DetectLocalIP os = inl info ->
     exists ifaces candidates, os = inl ifaces /\
       GetAllInterfaces os = inl candidates /\ info ∈ candidates /\
       PrioritizeInterfaces candidates = Some info /\
       IsPrivateIP (IP_ info) = true /\
       Type_ info = classifyInterface (Interface info)) /\
  DetectLocalIP os <> inr (ErrNew "no suitable private IP address found").
Proof.
  destruct os as [ifaces|cause].
  2: { split; [|split]; try discriminate.
       intros err [= <-]. left. eauto. }
  assert (Hsel : forall info, DetectLocalIP (inl ifaces) = inl info ->
            info ∈ scanInterfaces ifaces [] /\
            PrioritizeInterfaces (scanInterfaces ifaces []) = Some info).
  { unfold DetectLocalIP, GetAllInterfaces.
    destruct (scanInterfaces ifaces []) as [|i0 l0] eqn:El; [discriminate|].
    destruct (PrioritizeInterfaces (i0 :: l0)) as [sel|] eqn:Hp; [|discriminate].
    intros info [= <-]. split; [|reflexivity].
    rewrite PrioritizeInterfaces_selectByPolicy in Hp. unfold selectByPolicy in Hp.
    destruct (List.find isWifiOrEthernet (i0 :: l0)) eqn:H1.
    { injection Hp as <-. eapply find_elem_of, H1. }
    destruct (List.find (fun i => negb (isVirtual i)) (i0 :: l0)) eqn:H2.
    { injection Hp as <-. eapply find_elem_of, H2. }
    eapply find_elem_of, Hp. }
  split; [|split].
  - intros err. rewrite DetectLocalIP_scan.
    destruct (List.find _ _); [discriminate|].
    destruct (scanInterfaces ifaces []) eqn:El; [|discriminate].
    intros [= <-]. right. exists ifaces. unfold GetAllInterfaces. rewrite El. auto.
  - intros info H. destruct (Hsel _ H) as [Hin Hp].
    exists ifaces, (scanInterfaces ifaces []).
    split; [reflexivity|]. split; [reflexivity|]. split; [exact Hin|]. split; [exact Hp|].
    rewrite scanInterfaces_concat, app_nil_l, elem_of_concat_map in Hin.
    destruct Hin as (iface & _ & Hin).
    apply elem_of_candidatesFor in Hin as (addr & _ & _ & _ & a & b & c & d & _ & Hpriv & ->).
    simpl. split; [|reflexivity].
    rewrite IsPrivateIP_dotted. by apply (privateOctets_inRFC1918 a b c d).
  - rewrite DetectLocalIP_scan. destruct (List.find _ _); [discriminate|].
    destruct (scanInterfaces ifaces []); discriminate.
Qed.

(** X2. With the classes the scanner assigns, the selection comes down to
    this: [DetectLocalIP] returns the first candidate in scan order that is
    not virtual, and the first candidate of all when every one is virtual.
    So a virtual interface is chosen only when there is no other
    candidate. *)
Theorem DetectLocalIP_first_physical (ifaces : list NetInterface) :
  exists candidates,
    GetAllInterfaces (inl ifaces) = inl candidates /\
    DetectLocalIP (inl ifaces) =
      match List.find (fun i => negb (isVirtual i)) candidates with
      | Some i => inl i
      | None =>
          match candidates with
          | i :: _ => inl i
          | [] => inr (ErrNew "no active network interfaces found")
          end
      end /\
    (forall info, DetectLocalIP (inl ifaces) = inl info -> isVirtual info = true ->
       Forall (fun i => isVirtual i = true) candidates).
Proof.
  exists (scanInterfaces ifaces []). split; [reflexivity|].
  split; [apply DetectLocalIP_scan|].
  intros info. rewrite DetectLocalIP_scan.
  destruct (List.find (fun i => negb (isVirtual i)) (scanInterfaces ifaces [])) as [i|] eqn:Hf.
  - intros [= <-] Hv. apply find_elem_of in Hf as [_ Hf]. rewrite Hv in Hf. discriminate.
  - intros _ _. apply find_none in Hf.
    eapply Forall_impl; [exact Hf|]. intros j Hj. by apply negb_false_iff in Hj.
Qed.

(** X3. The scan keeps the order in which the operating system lists the
    interfaces: the candidates of a list of interfaces are those of its
    front part followed by those of its rest.  An interface that is down,
    is loopback or cannot list its addresses adds nothing and does not
    disturb the scan of the others, and without an error of the operating
    system the scan itself never fails. *)
Theorem GetAllInterfaces_in_order (front rest : list NetInterface) (iface : NetInterface) :
  (exists c1 c2,
     GetAllInterfaces (inl front) = inl c1 /\ GetAllInterfaces (inl rest) = inl c2 /\
     GetAllInterfaces (inl (front ++ rest)) = inl (c1 ++ c2)) /\
  (~ isUp iface \/ isLoopback iface \/ (exists err, Addrs iface = inr err) ->
   GetAllInterfaces (inl (front ++ iface :: rest)) = GetAllInterfaces (inl (front ++ rest))) /\
  (forall err, GetAllInterfaces (inl front) <> inr err).
Proof.
  unfold GetAllInterfaces. split; [|split].
  - exists (scanInterfaces front []), (scanInterfaces rest []).
    split; [reflexivity|]. split; [reflexivity|].
    rewrite !scanInterfaces_concat, !app_nil_l, map_app, concat_app. reflexivity.
  - intros Hbad. f_equal.
    rewrite !scanInterfaces_concat, !app_nil_l, !map_app, !concat_app. simpl.
    replace (candidatesFor iface) with (@nil NetworkInfo); [reflexivity|].
    unfold candidatesFor, isUp, isLoopback in *.
    destruct (N.eqb_spec (N.land (Flags iface) FlagUp) 0) as [Hup|Hup]; [reflexivity|].
    destruct (N.eqb_spec (N.land (Flags iface) FlagLoopback) 0) as [Hlo|Hlo]; [|reflexivity].
    simpl. destruct Hbad as [H | [H | (err & ->)]]; [contradiction | contradiction | reflexivity].
  - discriminate.
Qed.

End DetectionProperties.

(** ** Watcher: whole runs *)

Section WatcherRunProperties.

Context {go : GoStdlib}.

Implicit Types (w : IPWatcher) (evs rest : list event).

Lemma checkIPChange_fields w os :
  Interval (stateOf (checkIPChange w os)) = Interval w /\
  OnChange (stateOf (checkIPChange w os)) = OnChange w /\
  stopCh (stateOf (checkIPChange w os)) = stopCh w /\
  stopped (stateOf (checkIPChange w os)) = stopped w.
Proof.
  unfold checkIPChange, stateOf.
  destruct (DetectLocalIP os); [|repeat split; reflexivity].
  destruct (negb _); [|repeat split; reflexivity].
  simpl. destruct (OnChange w) eqn:E; simpl; rewrite ?E; repeat split; reflexivity.
Qed.

Lemma checkIPChange_address w os :
  CurrentIP (stateOf (checkIPChange w os)) = addressAfter (CurrentIP w) [os].
Proof.
  unfold checkIPChange. simpl. destruct (DetectLocalIP os) as [info|]; [|reflexivity].
  destruct (String.eqb_spec (CurrentIP w) (IP_ info)) as [E|]; simpl; [exact E|].
  destruct (OnChange w); reflexivity.
Qed.

Lemma Stop_fields w :
  CurrentIP (fst (Stop w)) = CurrentIP w /\ Interval (fst (Stop w)) = Interval w /\
  OnChange (fst (Stop w)) = OnChange w.
Proof.
  unfold Stop. destruct (stopped w); [repeat split; reflexivity|]. simpl.
  destruct (close (stopCh w)); repeat split; reflexivity.
Qed.

Lemma Stop_consistent w :
  consistent w -> snd (Stop w) = None /\ consistent (fst (Stop w)) /\
                  stopCh (fst (Stop w)) = ChanClosed.
Proof.
  unfold consistent, Stop. intros [[Hs Hc] | [Hs Hc]]; rewrite Hs; simpl.
  - rewrite Hc. simpl. split; [reflexivity|]. split; [by right | reflexivity].
  - split; [reflexivity|]. split; [right; by split | exact Hc].
Qed.

Lemma checkIPChange_consistent w os :
  consistent w -> consistent (stateOf (checkIPChange w os)).
Proof.
  unfold consistent. destruct (checkIPChange_fields w os) as (_ & _ & -> & ->). trivial.
Qed.

Lemma run_eta (r : IPWatcher * list effect * outcome) :
  r = (stateOf r, traceOf r, outcomeOf r).
Proof. destruct r as [[w fx] out]. reflexivity. Qed.

Lemma monitor_concat w evs rest :
  monitor w (evs ++ rest) =
    match outcomeOf (monitor w evs) with
    | Running =>
        (stateOf (monitor (stateOf (monitor w evs)) rest),
         traceOf (monitor w evs) ++ traceOf (monitor (stateOf (monitor w evs)) rest),
         outcomeOf (monitor (stateOf (monitor w evs)) rest))
    | _ => monitor w evs
    end.
Proof.
  revert w. induction evs as [|ev evs IH]; intros w.
  - cbn. apply run_eta.
  - destruct ev as [err| |os|].
    + reflexivity.
    + simpl. destruct (stopCh w); solve [apply IH | reflexivity].
    + rewrite <- app_comm_cons, !monitor_tick, IH.
      destruct (monitor (stateOf (checkIPChange w os)) evs) as [[w1 fx1] [e| |msg]];
        unfold stateOf, traceOf, outcomeOf; simpl; rewrite ?app_assoc; reflexivity.
    + simpl. destruct (Stop w) as [w' [msg|]]; [reflexivity | apply IH].
Qed.

Lemma setCurrentIP_same w : setCurrentIP w (CurrentIP w) = w.
Proof. destruct w. reflexivity. Qed.

Lemma setCurrentIP_twice w ip ip' :
  setCurrentIP (setCurrentIP w ip) ip' = setCurrentIP w ip'.
Proof. reflexivity. Qed.

Lemma checkIPChange_state w os :
  stateOf (checkIPChange w os) = setCurrentIP w (addressAfter (CurrentIP w) [os]).
Proof.
  unfold checkIPChange. simpl. destruct (DetectLocalIP os) as [info|].
  - destruct (String.eqb_spec (CurrentIP w) (IP_ info)) as [E|]; simpl.
    + rewrite <- E. symmetry. apply setCurrentIP_same.
    + destruct (OnChange w); reflexivity.
  - symmetry. apply setCurrentIP_same.
Qed.

Lemma monitor_polls w polls :
  stateOf (monitor w (map EvTick polls)) =
    setCurrentIP w (addressAfter (CurrentIP w) polls) /\
  outcomeOf (monitor w (map EvTick polls)) = Running.
Proof.
  revert w. induction polls as [|os polls IH]; intros w.
  - split; [symmetry; apply setCurrentIP_same | reflexivity].
  - cbn [map]. rewrite monitor_tick. cbn [stateOf outcomeOf fst snd].
    destruct (IH (stateOf (checkIPChange w os))) as [-> ->].
    split; [|reflexivity].
    rewrite checkIPChange_state. simpl.
    destruct (DetectLocalIP os); reflexivity.
Qed.

Lemma DetectLocalIP_private os info :
  DetectLocalIP os = inl info -> IsPrivateIP (IP_ info) = true.
Proof.
  destruct os as [ifaces|]; [|discriminate]. rewrite DetectLocalIP_scan.
  intros H.
  assert (Hin : info ∈ scanInterfaces ifaces []).
  { destruct (List.find _ _) eqn:Hf.
    - injection H as <-. eapply find_elem_of, Hf.
    - destruct (scanInterfaces ifaces []); [discriminate|].
      injection H as <-. apply list_elem_of_here. }
  rewrite scanInterfaces_concat, app_nil_l, elem_of_concat_map in Hin.
  destruct Hin as (iface & _ & Hin).
  apply elem_of_candidatesFor in Hin as (addr & _ & _ & _ & a & b & c & d & _ & Hpriv & ->).
  simpl. rewrite IsPrivateIP_dotted. by apply (privateOctets_inRFC1918 a b c d).
Qed.

Lemma checkIPChange_private w os :
  IsPrivateIP (CurrentIP w) = true ->
  IsPrivateIP (CurrentIP (stateOf (checkIPChange w os))) = true.
Proof.
  intros H. rewrite checkIPChange_state. simpl.
  destruct (DetectLocalIP os) as [info|] eqn:Hd; [|exact H].
  eapply DetectLocalIP_private, Hd.
Qed.

Lemma monitor_private w evs :
  IsPrivateIP (CurrentIP w) = true ->
  IsPrivateIP (CurrentIP (stateOf (monitor w evs))) = true.
Proof.
  revert w. induction evs as [|ev evs IH]; intros w H; [exact H|].
  destruct ev as [err| |os|].
  - exact H.
  - simpl. destruct (stopCh w); solve [by apply IH | exact H].
  - rewrite monitor_tick. cbn [stateOf fst]. apply IH, checkIPChange_private, H.
  - simpl. destruct (Stop_fields w) as (Hip & _).
    destruct (Stop w) as [w' [msg|]]; simpl in Hip.
    + cbn. by rewrite Hip.
    + apply IH. by rewrite Hip.
Qed.

(** X5. After [Start] has detected the initial address, the address the
    watcher stores, and [GetCurrentIP] returns, is at any time one that
    [IsPrivateIP] accepts, whatever the interval is.  With a positive
    interval, over a stretch of polls it is the address of the last poll
    that detected one, a failed poll keeping the address stored before
    it, and [Start] is still running.  With an interval that is not
    positive no poll is served: [Start] panics when it makes its ticker,
    and the stored address is the initial one. *)
Theorem watcher_stored_address w os0 info0 polls evs :
  stopped w = false ->
  DetectLocalIP os0 = inl info0 ->
  IsPrivateIP (GetCurrentIP (stateOf (Start w os0 evs))) = true /\
  ((0 < Interval w)%Z ->
     GetCurrentIP (stateOf (Start w os0 (map EvTick polls))) =
       addressAfter (IP_ info0) polls /\
     outcomeOf (Start w os0 (map EvTick polls)) = Running) /\
  ((Interval w <= 0)%Z ->
     GetCurrentIP (stateOf (Start w os0 evs)) = IP_ info0 /\
     outcomeOf (Start w os0 evs) = Panicked "non-positive interval for NewTicker").
Proof.
  intros Hs Hd.
  assert (Hp : IsPrivateIP (IP_ info0) = true) by (eapply DetectLocalIP_private, Hd).
  split.
  { destruct (Z.lt_ge_cases 0 (Interval w)) as [Hi|Hi].
    - rewrite (Start_running _ _ _ _ Hs Hd Hi). cbn [stateOf fst]. unfold GetCurrentIP.
      apply (monitor_private (setCurrentIP w (IP_ info0))). exact Hp.
    - rewrite (Start_panics _ _ _ _ Hs Hd Hi). exact Hp. }
  split.
  - intros Hi. rewrite !(Start_running _ _ _ _ Hs Hd Hi).
    cbn [stateOf outcomeOf fst snd]. unfold GetCurrentIP.
    destruct (monitor_polls (setCurrentIP w (IP_ info0)) polls) as [-> ->].
    split; reflexivity.
  - intros Hi. rewrite (Start_panics _ _ _ _ Hs Hd Hi). split; reflexivity.
Qed.

Lemma checkIPChange_calls w os :
  OnChange w = true ->
  chained (CurrentIP w) (callbacks (traceOf (checkIPChange w os))) /\
  CurrentIP (stateOf (checkIPChange w os)) =
    lastAnnounced (CurrentIP w) (callbacks (traceOf (checkIPChange w os))).
Proof.
  intros Hc. unfold checkIPChange.
  destruct (DetectLocalIP os) as [info|]; [|by split].
  destruct (String.eqb_spec (CurrentIP w) (IP_ info)) as [E|E]; simpl; [by split|].
  rewrite Hc. simpl. split; [|reflexivity]. split; [reflexivity|]. split; [congruence | exact I].
Qed.

Lemma chained_app ip calls1 calls2 :
  chained ip calls1 -> chained (lastAnnounced ip calls1) calls2 ->
  chained ip (calls1 ++ calls2).
Proof.
  revert ip. induction calls1 as [|[o n] calls1 IH]; intros ip H1 H2; [exact H2|].
  destruct H1 as (-> & Hne & H1). simpl. repeat split; [exact Hne|].
  apply IH; assumption.
Qed.

Lemma lastAnnounced_app ip calls1 calls2 :
  lastAnnounced ip (calls1 ++ calls2) = lastAnnounced (lastAnnounced ip calls1) calls2.
Proof.
  revert ip. induction calls1 as [|[o n] calls1 IH]; intros ip; [reflexivity|]. apply IH.
Qed.

Lemma monitor_calls w evs :
  OnChange w = true ->
  chained (CurrentIP w) (callbacks (traceOf (monitor w evs))) /\
  CurrentIP (stateOf (monitor w evs)) =
    lastAnnounced (CurrentIP w) (callbacks (traceOf (monitor w evs))).
Proof.
  revert w. induction evs as [|ev evs IH]; intros w Hc; [by split|].
  destruct ev as [err| |os|].
  - by split.
  - simpl. destruct (stopCh w); solve [by apply IH | by split].
  - rewrite monitor_tick. cbn [stateOf traceOf fst snd].
    destruct (checkIPChange_calls w os Hc) as [H1 H2].
    destruct (IH (stateOf (checkIPChange w os))) as [H3 H4].
    { destruct (checkIPChange_fields w os) as (_ & -> & _). exact Hc. }
    rewrite callbacks_app, lastAnnounced_app, <- H2. split; [|exact H4].
    apply chained_app; [exact H1 | by rewrite <- H2].
  - simpl. destruct (Stop_fields w) as (Hip & _ & Hon).
    destruct (Stop w) as [w' [msg|]]; simpl in Hip, Hon.
    + cbn. by split.
    + rewrite <- Hip. apply IH. by rewrite Hon.
Qed.

(** X6. With a callback registered, the calls of a run form a chain that
    starts at the initial address: every call gets the address stored
    before it as old address and a different one as new address, the next
    call continues from there, and the address stored in the end is the
    one the last call announced. *)
Theorem watcher_callback_chain w os0 info0 evs :
  stopped w = false ->
  OnChange w = true ->
  DetectLocalIP os0 = inl info0 ->
  chained (IP_ info0) (callbacks (traceOf (Start w os0 evs))) /\
  GetCurrentIP (stateOf (Start w os0 evs)) =
    lastAnnounced (IP_ info0) (callbacks (traceOf (Start w os0 evs))).
Proof.
  intros Hs Hc Hd. destruct (Z.lt_ge_cases 0 (Interval w)) as [Hi|Hi].
  - rewrite (Start_running _ _ _ _ Hs Hd Hi).
    cbn [stateOf traceOf fst snd callbacks].
    apply (monitor_calls (setCurrentIP w (IP_ info0))). exact Hc.
  - rewrite (Start_panics _ _ _ _ Hs Hd Hi). by split.
Qed.

Lemma monitor_consistent w evs :
  consistent w ->
  consistent (stateOf (monitor w evs)) /\
  (forall msg, outcomeOf (monitor w evs) <> Panicked msg) /\
  (outcomeOf (monitor w evs) = Returned None -> stopped (stateOf (monitor w evs)) = true) /\
  (forall err, outcomeOf (monitor w evs) = Returned (Some err) -> EvCtxDone err ∈ evs) /\
  (outcomeOf (monitor w evs) = Running -> forall err, EvCtxDone err ∉ evs).
Proof.
  revert w. induction evs as [|ev evs IH]; intros w Hw.
  { cbn. repeat split; try discriminate; try assumption.
    intros _ err H. by apply elem_of_nil in H. }
  destruct ev as [err| |os|].
  - cbn. repeat split; try discriminate; try assumption.
    intros e [= <-]. apply list_elem_of_here.
  - simpl. destruct (stopCh w) eqn:Hc.
    1,2: destruct (IH w Hw) as (H1 & H2 & H3 & H4 & H5);
         (split; [exact H1|]); (split; [exact H2|]); (split; [exact H3|]);
         (split; [intros e He; apply list_elem_of_further, H4, He|]);
         intros Hr e He; apply elem_of_cons in He as [He|He]; [discriminate|];
         by apply (H5 Hr e).
    cbn. repeat split; try discriminate; try assumption.
    intros _. destruct Hw as [[_ Hw] | [Hw _]]; [congruence | exact Hw].
  - rewrite monitor_tick. cbn [stateOf outcomeOf fst snd].
    destruct (IH _ (checkIPChange_consistent w os Hw)) as (H1 & H2 & H3 & H4 & H5).
    split; [exact H1|]. split; [exact H2|]. split; [exact H3|].
    split; [intros e He; apply list_elem_of_further, H4, He|].
    intros Hr e He. apply elem_of_cons in He as [He|He]; [discriminate|].
    by apply (H5 Hr e).
  - simpl. destruct (Stop_consistent w Hw) as (Hn & Hw' & _).
    destruct (Stop w) as [w' [msg|]]; simpl in Hn, Hw'; [discriminate|].
    destruct (IH _ Hw') as (H1 & H2 & H3 & H4 & H5).
    split; [exact H1|]. split; [exact H2|]. split; [exact H3|].
    split; [intros e He; apply list_elem_of_further, H4, He|].
    intros Hr e He. apply elem_of_cons in He as [He|He]; [discriminate|].
    by apply (H5 Hr e).
Qed.

Lemma consistent_setCurrentIP w ip : consistent w -> consistent (setCurrentIP w ip).
Proof. trivial. Qed.

(** X7. A watcher made by [NewIPWatcher], with or without a callback, has
    its stop flag and its stop channel in step, and every run keeps them
    so: however often and whenever [Stop] is called while [Start] runs, no
    call closes a closed channel.  The one panic of a run is that of the
    ticker: [Start] panics exactly when the watcher is not stopped, the
    initial address is detected and the interval is not positive, and
    then with the message of [time.NewTicker]; with a positive interval
    no run ends in a panic.  [NewIPWatcher] replaces the zero interval by
    five seconds and keeps every other, so the watcher it makes has a
    positive interval exactly when it is given one that is not
    negative. *)
Theorem watcher_panic_is_the_ticker w os0 evs (interval : Z) (registered : bool) :
  consistent w ->
  consistent (setOnChange (NewIPWatcher interval) registered) /\
  Interval (setOnChange (NewIPWatcher interval) registered) =
    (if (interval =? 0)%Z then 5000000000%Z else interval) /\
  ((0 < Interval (setOnChange (NewIPWatcher interval) registered))%Z <->
   (0 <= interval)%Z) /\
  consistent (stateOf (Start w os0 evs)) /\
  (forall msg, outcomeOf (Start w os0 evs) = Panicked msg <->
     stopped w = false /\ (exists info, DetectLocalIP os0 = inl info) /\
     (Interval w <= 0)%Z /\ msg = "non-positive interval for NewTicker") /\
  ((0 < Interval w)%Z -> forall msg, outcomeOf (Start w os0 evs) <> Panicked msg) /\
  snd (Stop (stateOf (Start w os0 evs))) = None.
Proof.
  intros Hw. split; [by left|].
  split; [reflexivity|].
  split.
  { unfold NewIPWatcher, setOnChange, second. cbn [Interval].
    destruct (Z.eqb_spec interval 0); lia. }
  assert (H : consistent (stateOf (Start w os0 evs)) /\
              forall msg, outcomeOf (Start w os0 evs) = Panicked msg <->
                stopped w = false /\ (exists info, DetectLocalIP os0 = inl info) /\
                (Interval w <= 0)%Z /\ msg = "non-positive interval for NewTicker").
  { destruct (stopped w) eqn:Hs.
    { unfold Start. rewrite Hs. split; [exact Hw|].
      intros msg. split; [discriminate | intros (? & _); discriminate]. }
    destruct (DetectLocalIP os0) as [info|err] eqn:Hd.
    2:{ unfold Start. rewrite Hs, Hd. split; [exact Hw|].
        intros msg. split; [discriminate | intros (_ & (? & ?) & _); discriminate]. }
    destruct (Z.lt_ge_cases 0 (Interval w)) as [Hi|Hi].
    - rewrite (Start_running _ _ _ _ Hs Hd Hi). cbn [stateOf outcomeOf fst snd].
      destruct (monitor_consistent (setCurrentIP w (IP_ info)) evs) as (H1 & H2 & _);
        [by apply consistent_setCurrentIP|].
      split; [exact H1|]. intros msg. split; [intros H; by apply H2 in H|].
      intros (_ & _ & ? & _). lia.
    - rewrite (Start_panics _ _ _ _ Hs Hd Hi). cbn [stateOf outcomeOf fst snd].
      split; [by apply consistent_setCurrentIP|].
      intros msg. split.
      + intros [= <-]. split; [reflexivity|]. split; [by exists info|]. by split.
      + intros (_ & _ & _ & ->). reflexivity. }
  destruct H as [H1 H2]. split; [exact H1|]. split; [exact H2|].
  split; [|apply Stop_consistent, H1].
  intros Hi msg Hm. apply H2 in Hm as (_ & _ & ? & _). lia.
Qed.

(** X8. How a run ends.  [Start] returns nil only on a stopped watcher;
    it returns an error only when the initial detection fails, with that
    error, or when the context is done, with the context's error; and as
    long as it is running no context was done.  After a call of [Stop]
    from elsewhere, polls may still be served, and the next time the loop
    takes the stop channel [Start] returns nil. *)
Theorem watcher_run_ends w os0 evs polls rest :
  consistent w ->
  (outcomeOf (Start w os0 evs) = Returned None ->
   stopped (stateOf (Start w os0 evs)) = true) /\
  (forall err, outcomeOf (Start w os0 evs) = Returned (Some err) ->
     DetectLocalIP os0 = inr err \/ EvCtxDone err ∈ evs) /\
  (outcomeOf (Start w os0 evs) = Running -> forall err, EvCtxDone err ∉ evs) /\
  outcomeOf (monitor w (EvStop :: map EvTick polls ++ EvStopCh :: rest)) = Returned None.
Proof.
  intros Hw. split; [|split; [|split]].
  - unfold Start. destruct (stopped w) eqn:Hs; [intros _; exact Hs|].
    destruct (DetectLocalIP os0) as [info|err]; [|discriminate].
    destruct (NewTicker _); [discriminate|].
    destruct (monitor_consistent (setCurrentIP w (IP_ info)) evs) as (_ & _ & H & _);
      [by apply consistent_setCurrentIP|].
    destruct (monitor _ evs) as [[w' fx] out]. exact H.
  - intros e. unfold Start. destruct (stopped w); [discriminate|].
    destruct (DetectLocalIP os0) as [info|err]; [|intros [= <-]; by left].
    destruct (NewTicker _); [discriminate|].
    destruct (monitor_consistent (setCurrentIP w (IP_ info)) evs) as (_ & _ & _ & H & _);
      [by apply consistent_setCurrentIP|].
    destruct (monitor _ evs) as [[w' fx] out]. intros Ho. right. by apply H.
  - unfold Start. destruct (stopped w); [discriminate|].
    destruct (DetectLocalIP os0) as [info|err]; [|discriminate].
    destruct (NewTicker _); [discriminate|].
    destruct (monitor_consistent (setCurrentIP w (IP_ info)) evs) as (_ & _ & _ & _ & H);
      [by apply consistent_setCurrentIP|].
    destruct (monitor _ evs) as [[w' fx] out]. exact H.
  - simpl. destruct (Stop_consistent w Hw) as (Hn & Hw' & Hcl).
    destruct (Stop w) as [w' [msg|]]; simpl in Hn, Hw', Hcl; [discriminate|].
    rewrite monitor_concat. destruct (monitor_polls w' polls) as [Hst ->].
    cbn [outcomeOf snd]. rewrite Hst. simpl. rewrite Hcl. reflexivity.
Qed.

End WatcherRunProperties.

(** ** URL rewrite: nothing of [localhost] is left *)

Section RewriteLeavesNoLocalhost.

Import strings.

Implicit Types (s t r old new value newIP pat : string) (c : ascii).

Lemma noLocalhostChars_append s t :
  noLocalhostChars (s +:+ t) = noLocalhostChars s && noLocalhostChars t.
Proof.
  induction s as [|c s IH]; [reflexivity|].
  rewrite append_cons. simpl. rewrite IH, andb_assoc. reflexivity.
Qed.

Lemma noLocalhostChars_appendDecimal (x : byte) :
  noLocalhostChars (appendDecimal (Byte.to_N x)) = true.
Proof. destruct x; reflexivity. Qed.

Lemma noLocalhostChars_dotted (a b c d : byte) : noLocalhostChars (dotted a b c d) = true.
Proof.
  unfold dotted. rewrite !noLocalhostChars_append, !noLocalhostChars_appendDecimal.
  reflexivity.
Qed.

Lemma dotted_nonempty (a b c d : byte) : dotted a b c d <> EmptyString.
Proof.
  unfold dotted. destruct (appendDecimal_cons (Byte.to_N a)) as (c0 & t & ->).
  rewrite append_cons. discriminate.
Qed.

(** Text without letters of [localhost] in front changes nothing about
    where [localhost] occurs. *)
Lemma Contains_behind new s :
  noLocalhostChars new = true ->
  Contains (new +:+ s) "localhost" = Contains s "localhost".
Proof.
  intros Hn. induction new as [|c new IH]; [reflexivity|].
  simpl in Hn. apply andb_true_iff in Hn as [Hc Hn].
  rewrite append_cons.
  change (Contains (String c (new +:+ s)) "localhost")
    with (HasPrefix (String c (new +:+ s)) "localhost" || Contains (new +:+ s) "localhost").
  rewrite IH by exact Hn.
  replace (HasPrefix (String c (new +:+ s)) "localhost") with false; [reflexivity|].
  simpl. destruct (Ascii.eqb_spec c "l") as [->|]; [discriminate | reflexivity].
Qed.

Lemma Contains_drop x s sub : Contains (x +:+ s) sub = false -> Contains s sub = false.
Proof.
  induction x as [|c x IH]; [trivial|]. rewrite append_cons. intros H.
  apply IH. eapply Contains_tail, H.
Qed.

(** A replacement by text without letters of [localhost] completes no
    pattern made of such letters behind a byte that is kept. *)
Lemma HasPrefix_after_replace pat o old' new : forall c t,
  allLocalhostChars pat = true ->
  new <> EmptyString -> noLocalhostChars new = true ->
  HasPrefix (String c (replaceScan 0 t (String o old') new)) pat = true ->
  HasPrefix (String c t) pat = true.
Proof.
  induction pat as [|p pat IH]; intros c t Hpat Hne Hnew H; [reflexivity|].
  simpl in Hpat. apply andb_true_iff in Hpat as [Hp Hpat].
  simpl in H |- *. apply andb_true_iff in H as [Hc H]. rewrite Hc. simpl.
  destruct pat as [|p' pat']; [reflexivity|].
  destruct t as [|c' t']; [discriminate|].
  destruct (HasPrefix (String c' t') (String o old')) eqn:Hl.
  - apply HasPrefix_split in Hl as (r & Hr). rewrite Hr, replaceScan_token in H.
    destruct new as [|n0 new']; [congruence|].
    rewrite append_cons in H. simpl in H, Hnew, Hpat.
    apply andb_true_iff in H as [Hn0 _]. apply Ascii.eqb_eq in Hn0 as ->.
    apply andb_true_iff in Hnew as [Hn0 _]. apply andb_true_iff in Hpat as [Hp' _].
    rewrite Hp' in Hn0. discriminate.
  - rewrite replaceScan_byte in H by exact Hl.
    apply IH; assumption.
Qed.

Lemma replaceScan_no_localhost n o old' new : forall s,
  (String.length s <= n)%nat ->
  new <> EmptyString -> noLocalhostChars new = true ->
  (String o old' = "localhost" \/ Contains s "localhost" = false) ->
  Contains (replaceScan 0 s (String o old') new) "localhost" = false.
Proof.
  induction n as [|n IH]; intros s Hlen Hne Hnew Hs.
  { destruct s; [reflexivity | simpl in Hlen; lia]. }
  destruct s as [|c t]; [reflexivity|].
  destruct (HasPrefix (String c t) (String o old')) eqn:Hl.
  - apply HasPrefix_split in Hl as (r & Hr). rewrite Hr in *.
    rewrite replaceScan_token, Contains_behind by exact Hnew.
    apply IH; [|exact Hne | exact Hnew|].
    + rewrite length_append in Hlen. simpl in Hlen. lia.
    + destruct Hs as [Hs|Hs]; [by left | right]. eapply Contains_drop, Hs.
  - rewrite replaceScan_byte by exact Hl.
    change (Contains (String c ?x) ?sub) with (HasPrefix (String c x) sub || Contains x sub).
    rewrite IH; [| simpl in Hlen; lia | exact Hne | exact Hnew |].
    + rewrite orb_false_r.
      destruct (HasPrefix (String c (replaceScan 0 t (String o old') new)) "localhost")
        eqn:H; [|reflexivity].
      apply HasPrefix_after_replace in H; [|reflexivity | exact Hne | exact Hnew].
      destruct Hs as [Hs|Hs].
      * rewrite Hs in Hl. congruence.
      * rewrite (Contains_HasPrefix _ _ Hs) in H. discriminate.
    + destruct Hs as [Hs|Hs]; [by left | right]. eapply Contains_tail, Hs.
Qed.

(** X9. When the address is not empty and has none of the letters of
    [localhost], the rewritten value contains no [localhost] any more,
    whatever the value was; every address in dotted decimal notation, and
    so every address [DetectLocalIP] returns, is of that kind. *)
Theorem transformURL_no_localhost_left value newIP :
  newIP <> EmptyString ->
  noLocalhostChars newIP = true ->
  Contains (transformURL value newIP) "localhost" = false /\
  (forall a b c d : byte,
     Contains (transformURL value (dotted a b c d)) "localhost" = false).
Proof.
  assert (H : forall ip, ip <> EmptyString -> noLocalhostChars ip = true ->
                Contains (transformURL value ip) "localhost" = false).
  { intros ip Hne Hnew. rewrite transformURL_scan.
    eapply replaceScan_no_localhost; [reflexivity | exact Hne | exact Hnew |].
    right. eapply replaceScan_no_localhost; [reflexivity | exact Hne | exact Hnew |].
    by left. }
  intros Hne Hnew. split; [by apply H|].
  intros a b c d. apply H; [apply dotted_nonempty | apply noLocalhostChars_dotted].
Qed.

End RewriteLeavesNoLocalhost.

(** ** Start command: the collected variables *)

Section StartVariablesProperties.

Context {up : GoUpper}.

Implicit Types (vars : gmap string string) (key : string).


Lemma foldl_assign_lookup assignments : forall vars key,
  foldl assign vars assignments !! key =
    match lastAssigned key assignments with
    | Some v => Some v
    | None => vars !! key
    end.
Proof.
  induction assignments as [|[k v] rest IH]; intros vars key; [reflexivity|].
  simpl. rewrite IH. destruct (lastAssigned key rest); [reflexivity|].
  unfold assign; simpl. destruct (String.eqb_spec k key) as [->|Hne].
  - apply lookup_insert_eq.
  - by apply lookup_insert_ne.
Qed.

Lemma addPorts_foldl name ports vars :
  addPorts name ports vars =
    foldl assign vars (map (fun p => (dockerVarName name, localURL (docker.HostPort p))) ports).
Proof. revert vars. induction ports as [|p ports IH]; intros vars; [reflexivity|]. apply IH. Qed.

Lemma addContainers_foldl containers vars :
  addContainers containers vars = foldl assign vars (dockerAssignments containers).
Proof.
  revert vars. induction containers as [|c cs IH]; intros vars; [reflexivity|].
  simpl. unfold dockerAssignments in *. simpl. rewrite foldl_app, IH, addPorts_foldl.
  reflexivity.
Qed.

Lemma addServices_foldl services vars :
  addServices services vars = foldl assign vars (supabaseAssignments services).
Proof.
  revert vars. induction services as [|[n p] ss IH]; intros vars; [reflexivity|]. apply IH.
Qed.

Lemma collectVars_foldl projectConfig found :
  collectVars projectConfig found =
    foldl assign (Vars projectConfig) (detectedAssignments projectConfig found).
Proof.
  unfold collectVars, detectedAssignments. rewrite foldl_app.
  destruct (Docker _), (dockerAvailable found), (runningContainers found),
           (Supabase _), (supabaseStatus found);
    simpl; rewrite ?addContainers_foldl, ?addServices_foldl; reflexivity.
Qed.

Lemma lastAssigned_app key l1 l2 :
  lastAssigned key (l1 ++ l2) =
    match lastAssigned key l2 with
    | Some v => Some v
    | None => lastAssigned key l1
    end.
Proof.
  induction l1 as [|[k v] l1 IH]; simpl.
  - destruct (lastAssigned key l2); reflexivity.
  - rewrite IH. destruct (lastAssigned key l2); reflexivity.
Qed.

(** X10. The map [executeStart] collects holds, for every key, the value
    assigned to it last in the order configuration, containers (in the
    order listed, each port in turn), Supabase services: a later source
    overrides an earlier one, a container with several published ports
    keeps the last of them only, and no key of the configuration is lost.
    A detection that is switched off, unavailable or fails changes
    nothing. *)
Theorem collectVars_last_assignment projectConfig found key :
  collectVars projectConfig found !! key =
    match lastAssigned key (detectedAssignments projectConfig found) with
    | Some v => Some v
    | None => Vars projectConfig !! key
    end /\
  (is_Some (Vars projectConfig !! key) ->
   is_Some (collectVars projectConfig found !! key)) /\
  (forall name ports port vars,
     addPorts name (ports ++ [port]) vars =
       <[dockerVarName name := localURL (docker.HostPort port)]> (addPorts name ports vars) /\
     addPorts name (ports ++ [port]) vars !! dockerVarName name =
       Some (localURL (docker.HostPort port))) /\
  (Docker (AutoDetect projectConfig) = false \/ dockerAvailable found = false \/
   (exists err, runningContainers found = inr err) ->
   Supabase (AutoDetect projectConfig) = false \/
   (exists err, supabaseStatus found = inr err) ->
   collectVars projectConfig found = Vars projectConfig).
Proof.
  rewrite collectVars_foldl, foldl_assign_lookup.
  split; [reflexivity|]. split; [|split].
  - intros [v Hv]. destruct (lastAssigned _ _); [eauto | rewrite Hv; eauto].
  - intros name ports port vars. rewrite !addPorts_foldl, map_app, foldl_app. simpl.
    split; [reflexivity|]. apply lookup_insert_eq.
  - intros Hd Hs. unfold detectedAssignments.
    replace (if Docker (AutoDetect projectConfig) && dockerAvailable found
             then match runningContainers found with
                  | inl containers => dockerAssignments containers
                  | inr _ => []
                  end
             else []) with (@nil (string * string)).
    2: { destruct Hd as [-> | [-> | (err & ->)]]; rewrite ?andb_false_r; try reflexivity.
         destruct (_ && _); reflexivity. }
    destruct Hs as [-> | (err & ->)]; [reflexivity|].
    destruct (Supabase _); reflexivity.
Qed.

Lemma transformVars_map order ip :
  transformVars order ip =
    map (fun kv => {| Key := kv.1; Value := transformURL kv.2 ip; Managed := true |}) order.
Proof. induction order as [|[k v] rest IH]; simpl; [|rewrite IH]; reflexivity. Qed.

(** X11. Whatever order the [range] over the collected map takes, the
    variables handed to the merge are one per key of the map, every key
    once, each with the rewritten value of its key and marked managed. *)
Theorem transformVars_one_per_key (vars : gmap string string)
        (order : list (string * string)) (ip : string) :
  order ≡ₚ map_to_list vars ->
  NoDup (map Key (transformVars order ip)) /\
  Forall (fun v => Managed v = true) (transformVars order ip) /\
  length (transformVars order ip) = size vars /\
  (forall v, v ∈ transformVars order ip <->
     exists value, vars !! Key v = Some value /\
       v = {| Key := Key v; Value := transformURL value ip; Managed := true |}) /\
  (forall key value, vars !! key = Some value ->
     {| Key := key; Value := transformURL value ip; Managed := true |}
       ∈ transformVars order ip).
Proof.
  intros Hperm. rewrite transformVars_map.
  assert (Hin : forall k v, (k, v) ∈ order <-> vars !! k = Some v).
  { intros k v. rewrite Hperm. apply elem_of_map_to_list. }
  split; [|split; [|split; [|split]]].
  - rewrite map_map. simpl. change (map (fun x : string * string => x.1) order) with (order.*1).
    rewrite Hperm. apply NoDup_fst_map_to_list.
  - apply Forall_forall. intros v Hv. apply list_elem_of_fmap in Hv as (kv & -> & _). reflexivity.
  - rewrite length_map, Hperm. apply length_map_to_list.
  - intros v. rewrite list_elem_of_fmap. split.
    + intros ([k x] & -> & Hkv). simpl. exists x. split; [by apply Hin | reflexivity].
    + intros (value & Hv & Heq). exists (Key v, value). split; [exact Heq | by apply Hin].
  - intros key value Hv. apply list_elem_of_fmap. exists (key, value).
    split; [reflexivity | by apply Hin].
Qed.

End StartVariablesProperties.

(** ** Exit status *)

Section ExitProperties.

Import strings.

Lemma substring_HasPrefix p : forall s,
  String.eqb (substring 0 (String.length p) s) p = HasPrefix s p.
Proof.
  induction p as [|c p IH]; intros s.
  - destruct s; reflexivity.
  - destruct s as [|c' s]; [reflexivity|]. simpl. rewrite IH.
    destruct (Ascii.eqb c' c); reflexivity.
Qed.

Lemma containsLoop_cons count : forall i c s substr,
  containsLoop count (S i) (String c s) substr = containsLoop count i s substr.
Proof.
  induction count as [|count IH]; intros i c s substr; [reflexivity|].
  simpl. rewrite IH. reflexivity.
Qed.

Lemma HasPrefix_short p : forall s,
  (String.length s < String.length p)%nat -> HasPrefix s p = false.
Proof.
  induction p as [|c p IH]; intros s Hlen; [simpl in Hlen; lia|].
  destruct s as [|c' s]; [reflexivity|]. simpl in *.
  rewrite IH by lia. apply andb_false_r.
Qed.

Lemma Contains_short s : forall p,
  (String.length s < String.length p)%nat -> Contains s p = false.
Proof.
  induction s as [|c s IH]; intros p Hlen.
  - simpl. rewrite HasPrefix_short by exact Hlen. reflexivity.
  - change (Contains (String c s) p) with (HasPrefix (String c s) p || Contains s p).
    rewrite HasPrefix_short by exact Hlen. rewrite IH by (simpl in Hlen; lia).
    reflexivity.
Qed.

Lemma containsLoop_Contains s : forall substr,
  (String.length substr <= String.length s)%nat ->
  containsLoop (String.length s - String.length substr + 1) 0 s substr =
    Contains s substr.
Proof.
  induction s as [|c s IH]; intros substr Hlen.
  - destruct substr; [reflexivity | simpl in Hlen; lia].
  - change (Contains (String c s) substr)
      with (HasPrefix (String c s) substr || Contains s substr).
    destruct (Nat.le_gt_cases (String.length substr) (String.length s)) as [Hle|Hgt].
    + replace (String.length (String c s) - String.length substr + 1)%nat
        with (S (String.length s - String.length substr + 1)) by (simpl; lia).
      change (containsLoop (S ?n) 0 ?t ?p)
        with (if String.eqb (substring 0 (String.length p) t) p then true
              else containsLoop n 1 t p).
      rewrite substring_HasPrefix, containsLoop_cons, IH by exact Hle.
      destruct (HasPrefix (String c s) substr); reflexivity.
    + replace (String.length (String c s) - String.length substr + 1)%nat
        with 1%nat by (simpl in *; lia).
      change (containsLoop 1 0 ?t ?p)
        with (if String.eqb (substring 0 (String.length p) t) p then true else false).
      rewrite substring_HasPrefix, Contains_short by exact Hgt.
      destruct (HasPrefix (String c s) substr); reflexivity.
Qed.

Lemma HasPrefix_refl s : HasPrefix s s = true.
Proof. induction s as [|c s IH]; [reflexivity|]. simpl. by rewrite Ascii.eqb_refl. Qed.

Lemma Contains_prefix s p : HasPrefix s p = true -> Contains s p = true.
Proof. intros H. destruct s; simpl; rewrite H; reflexivity. Qed.

Lemma contains_Contains s substr : contains s substr = Contains s substr.
Proof.
  unfold contains.
  destruct (Nat.leb_spec (String.length substr) (String.length s)) as [Hle|Hgt].
  2: { rewrite Contains_short by exact Hgt. reflexivity. }
  rewrite andb_true_l.
  destruct (String.eqb_spec s substr) as [->|Hne].
  { rewrite Contains_prefix by apply HasPrefix_refl. reflexivity. }
  destruct substr as [|c substr].
  { rewrite Contains_prefix by reflexivity. reflexivity. }
  destruct s as [|c' s]; [simpl in Hle; lia|].
  change ((String.length (String c substr) =? 0)%nat) with false.
  change ((0 <? String.length (String c' s))%nat) with true.
  change ((0 <? String.length (String c substr))%nat) with true.
  rewrite !orb_false_l, !andb_true_l.
  unfold containsHelper.
  replace (Z.to_nat (Z.of_nat (String.length (String c' s)) -
                     Z.of_nat (String.length (String c substr)) + 1))
    with (String.length (String c' s) - String.length (String c substr) + 1)%nat by lia.
  apply containsLoop_Contains. exact Hle.
Qed.

Lemma Contains_split s : forall substr,
  Contains s substr = true <-> exists pre post, s = pre +:+ substr +:+ post.
Proof.
  induction s as [|c s IH]; intros substr.
  - split.
    + simpl. rewrite orb_false_r. intros H. apply HasPrefix_split in H as (r & H).
      exists EmptyString, r. exact H.
    + intros (pre & post & H). destruct pre; [|discriminate].
      rewrite append_nil_l in H. rewrite H. apply Contains_prefix, HasPrefix_append.
  - change (Contains (String c s) substr)
      with (HasPrefix (String c s) substr || Contains s substr).
    rewrite orb_true_iff, IH. split.
    + intros [H | (pre & post & ->)].
      * apply HasPrefix_split in H as (r & H). exists EmptyString, r. exact H.
      * exists (String c pre), post. reflexivity.
    + intros (pre & post & H). destruct pre as [|c' pre].
      * left. rewrite append_nil_l in H. rewrite H. apply HasPrefix_append.
      * right. rewrite append_cons in H. injection H as _ ->. eauto.
Qed.

Lemma upperByte_not_lower x c :
  (97 <=? byteval c) && (byteval c <=? 122) = true -> Ascii.eqb (upperByte x) c = false.
Proof.
  intros Hc. apply Ascii.eqb_neq. intros <-. revert Hc.
  destruct x as [[] [] [] [] [] [] [] []]; vm_compute; discriminate.
Qed.

Lemma Contains_upperBytes s c substr :
  (97 <=? byteval c) && (byteval c <=? 122) = true ->
  Contains (upperBytes s) (String c substr) = false.
Proof.
  intros Hc. induction s as [|x s IH]; [reflexivity|].
  change (upperBytes (String x s)) with (String (upperByte x) (upperBytes s)).
  change (Contains (String (upperByte x) (upperBytes s)) (String c substr))
    with (Ascii.eqb (upperByte x) c && HasPrefix (upperBytes s) substr
          || Contains (upperBytes s) (String c substr)).
  rewrite IH, upperByte_not_lower by exact Hc. reflexivity.
Qed.

(** X12. [contains] of package [main] is the plain substring test: it
    answers as [strings.Contains] does, that is, yes exactly when the
    string is the substring with something before and behind it.  It
    compares bytes as they are, so a substring that starts with a
    lower-case letter is never found in an upper-case string. *)
Theorem contains_is_substring_test (s substr : string) :
  contains s substr = Contains s substr /\
  (contains s substr = true <-> exists pre post, s = pre +:+ substr +:+ post) /\
  (forall c rest, (97 <=? byteval c) && (byteval c <=? 122) = true ->
     contains (upperBytes s) (String c rest) = false).
Proof.
  split; [apply contains_Contains|]. split.
  - rewrite contains_Contains. apply Contains_split.
  - intros c rest Hc. rewrite contains_Contains. by apply Contains_upperBytes.
Qed.

Lemma ExitCode_range {C} (e : LanupError C) : (1 <= ExitCode e <= 5)%Z.
Proof. unfold ExitCode. repeat case_match; lia. Qed.

Lemma getExitCode_range {E} `{GoError E} (err : E) : (1 <= getExitCode (Some err) <= 5)%Z.
Proof. unfold getExitCode. repeat case_match; lia. Qed.

(** X13. The exit status of the process.  [cmd.Execute] ends the process
    itself on every error: with the exit code of a [LanupError], with 1 on
    any other error; it returns only nil.  So the status is 0 exactly when
    the command succeeded, it lies between 1 and 5 otherwise, and the
    keyword table of [getExitCode] (which alone gives 0 for nil and 1 to 5
    for an error) never decides it: [main] reaches it with nil only. *)
Theorem main_exit_status {C} `{GoError C} (err : option (failure C)) :
  main err = match err with
             | None => 0
             | Some (Lanup e) => ExitCode e
             | Some (Other _) => 1
             end%Z /\
  (forall returned, Execute err = Return returned -> returned = None /\ err = None) /\
  (main err = 0%Z <-> err = None) /\
  (0 <= main err <= 5)%Z /\
  (forall e : failure C, (1 <= getExitCode (Some e) <= 5)%Z) /\
  (forall e : LanupError C,
     Code e = ErrNoNetwork -> main (Some (Lanup e)) = 3%Z) /\
  (forall e : LanupError C,
     (Code e < 1 \/ 6 <= Code e)%Z -> main (Some (Lanup e)) = 1%Z).
Proof.
  split; [|split; [|split; [|split; [|split; [|split]]]]].
  - destruct err as [[e|e]|]; reflexivity.
  - intros returned Hr. destruct err as [[e|e]|]; simpl in Hr; try discriminate.
    injection Hr as <-. split; reflexivity.
  - destruct err as [[e|e]|]; unfold main; simpl.
    + pose proof (ExitCode_range e). split; [lia | discriminate].
    + split; [lia | discriminate].
    + split; reflexivity.
  - destruct err as [[e|e]|]; unfold main; simpl; [|lia|lia].
    pose proof (ExitCode_range e). lia.
  - intros e. apply getExitCode_range.
  - intros e He. unfold main. simpl. unfold ExitCode. rewrite He. reflexivity.
  - intros e He. unfold main. simpl. unfold ExitCode, ErrNoNetwork, ErrInvalidConfig,
      ErrFileNotFound, ErrPermissionDenied, ErrInvalidURL, ErrDockerUnavailable.
    repeat case_match; lia.
Qed.

End ExitProperties.

(** ** Start command: one run *)

Section StartProperties.

Context {go : GoStdlib} {up : GoUpper} {out : logger.LogOutput}.

Lemma int64_small z : (- 2 ^ 63 <= z < 2 ^ 63)%Z -> int64 z = z.
Proof. intros Hz. unfold int64. rewrite Z.mod_small by lia. lia. Qed.

Lemma int64_range z : (- 2 ^ 63 <= int64 z < 2 ^ 63)%Z.
Proof.
  unfold int64. pose proof (Z.mod_pos_bound (z + 2 ^ 63) (2 ^ 64)%Z ltac:(lia)). lia.
Qed.

Lemma int64_congruent z : ((int64 z - z) mod 2 ^ 64 = 0)%Z.
Proof.
  unfold int64. rewrite (Z.mod_eq (z + 2 ^ 63) (2 ^ 64)) by lia.
  replace (z + 2 ^ 63 - 2 ^ 64 * ((z + 2 ^ 63) / 2 ^ 64) - 2 ^ 63 - z)%Z
    with ((- ((z + 2 ^ 63) / 2 ^ 64)) * 2 ^ 64)%Z by lia.
  apply Z.mod_mul. lia.
Qed.

Lemma int64_wrapped z : (2 ^ 63 <= z < 2 ^ 64)%Z -> int64 z = (z - 2 ^ 64)%Z.
Proof.
  intros Hz. unfold int64.
  replace (z + 2 ^ 63)%Z with ((z - 2 ^ 63) + 1 * 2 ^ 64)%Z by lia.
  rewrite Z.mod_add by lia. rewrite Z.mod_small by lia. lia.
Qed.

Lemma watchInterval_positive (cfg : GlobalConfig) :
  (0 < CheckInterval cfg)%Z ->
  watchInterval (Some cfg) = int64 (CheckInterval cfg * 1000000000).
Proof.
  intros Hc. unfold watchInterval.
  destruct (Z.ltb_spec 0 (CheckInterval cfg)); [reflexivity | lia].
Qed.

(** X14. The interval of the watcher of the watch mode, in nanoseconds:
    five seconds when no global configuration is loaded or its check
    interval is not positive; the configured number of seconds for a
    check interval from 1 to 9223372036, and [NewIPWatcher] keeps that
    interval.  From 9223372037 seconds on the product wraps around: the
    interval is the representative of the product in the signed 64-bit
    range and never the configured number of seconds.  From 9223372037
    to 18446744073 seconds it is the product less 2^64, which is
    negative; [NewIPWatcher] keeps it, and [Start] on that watcher, with
    the callback of the watch mode registered, panics in [time.NewTicker]
    as soon as the initial address is detected. *)
Theorem watchInterval_seconds (cfg : GlobalConfig) os0 info0 evs :
  watchInterval None = 5000000000%Z /\
  ((CheckInterval cfg <= 0)%Z -> watchInterval (Some cfg) = 5000000000%Z) /\
  ((1 <= CheckInterval cfg <= 9223372036)%Z ->
   watchInterval (Some cfg) = (CheckInterval cfg * 1000000000)%Z /\
   Interval (NewIPWatcher (watchInterval (Some cfg))) =
     (CheckInterval cfg * 1000000000)%Z) /\
  ((9223372037 <= CheckInterval cfg)%Z ->
   watchInterval (Some cfg) <> (CheckInterval cfg * 1000000000)%Z /\
   (- 2 ^ 63 <= watchInterval (Some cfg) < 2 ^ 63)%Z /\
   ((watchInterval (Some cfg) - CheckInterval cfg * 1000000000) mod 2 ^ 64 = 0)%Z) /\
  ((9223372037 <= CheckInterval cfg <= 18446744073)%Z ->
   watchInterval (Some cfg) = (CheckInterval cfg * 1000000000 - 2 ^ 64)%Z /\
   (watchInterval (Some cfg) < 0)%Z /\
   Interval (NewIPWatcher (watchInterval (Some cfg))) = watchInterval (Some cfg) /\
   (DetectLocalIP os0 = inl info0 ->
    Start (setOnChange (NewIPWatcher (watchInterval (Some cfg))) true) os0 evs =
      (setCurrentIP (setOnChange (NewIPWatcher (watchInterval (Some cfg))) true)
         (IP_ info0),
       [Scanned], Panicked "non-positive interval for NewTicker"))).
Proof.
  split; [reflexivity|]. split; [|split; [|split]].
  - intros Hle. unfold watchInterval.
    destruct (Z.ltb_spec 0 (CheckInterval cfg)); [lia | reflexivity].
  - intros Hr.
    assert (Hw : watchInterval (Some cfg) = (CheckInterval cfg * 1000000000)%Z).
    { rewrite watchInterval_positive by lia. apply int64_small. lia. }
    split; [exact Hw|]. rewrite Hw. unfold NewIPWatcher. cbn [Interval].
    destruct (Z.eqb_spec (CheckInterval cfg * 1000000000) 0) as [H0|]; [lia|].
    reflexivity.
  - intros Hr. rewrite watchInterval_positive by lia.
    pose proof (int64_range (CheckInterval cfg * 1000000000)) as Hrange.
    split; [lia|]. split; [exact Hrange | apply int64_congruent].
  - intros Hr.
    assert (Hw : watchInterval (Some cfg) = (CheckInterval cfg * 1000000000 - 2 ^ 64)%Z).
    { rewrite watchInterval_positive by lia. apply int64_wrapped. lia. }
    assert (Hneg : (watchInterval (Some cfg) < 0)%Z) by lia.
    assert (Hkeep : Interval (NewIPWatcher (watchInterval (Some cfg))) =
                    watchInterval (Some cfg)).
    { unfold NewIPWatcher. cbn [Interval].
      destruct (Z.eqb_spec (watchInterval (Some cfg)) 0); [lia | reflexivity]. }
    split; [exact Hw|]. split; [exact Hneg|]. split; [exact Hkeep|].
    intros Hd. apply Start_panics; [reflexivity | exact Hd |].
    change (Interval (setOnChange (NewIPWatcher (watchInterval (Some cfg))) true))
      with (Interval (NewIPWatcher (watchInterval (Some cfg)))).
    rewrite Hkeep. lia.
Qed.

Lemma Write_env_file path timestamp vars fs :
  let result := Write (NewEnvWriter path) timestamp vars fs in
  (snd result <> None -> files (fst result) !! path = files fs !! path) /\
  (snd result = None ->
   files (fst result) !! path = Some (formatEnvFile timestamp vars)) /\
  (exists done, written (fst result) = written fs ++ done /\
     Forall (fun w => w.1 = path \/ w.1 = path +:+ ".bak") done) /\
  denied (fst result) = denied fs.
Proof.
  unfold Write, Backup, ReadFile, WriteFile, os_WriteFile, backupPath, NewEnvWriter. simpl.
  destruct (files fs !! path) as [old|] eqn:Hold.
  - destruct (decide (path ∈ denied fs)) as [Hp|Hp]; simpl.
    { repeat split; try congruence. exists []. by rewrite app_nil_r. }
    destruct (decide (path +:+ ".bak" ∈ denied fs)) as [Hb|Hb]; simpl.
    { repeat split; try congruence. exists []. by rewrite app_nil_r. }
    rewrite (decide_False (P := path ∈ denied fs)) by exact Hp. simpl.
    repeat split; try congruence.
    + intros _. apply lookup_insert_eq.
    + eexists. rewrite <- app_assoc. split; [reflexivity|].
      constructor; [simpl; auto | constructor; [simpl; auto | constructor]].
  - destruct (decide (path ∈ denied fs)) as [Hp|Hp]; simpl.
    { repeat split; try congruence. exists []. by rewrite app_nil_r. }
    repeat split; try congruence.
    + intros _. apply lookup_insert_eq.
    + eexists. split; [reflexivity|]. constructor; [simpl; auto | constructor].
Qed.

Lemma logged_quiet (l : option logger.Logger) level msg fields fs :
  quiet l -> level <> logger.ERROR -> level <> logger.DEBUG \/ l = None ->
  logged l level msg fields fs = (l, fs).
Proof.
  intros [-> | (l' & -> & Hl)] Hlevel Hd; [reflexivity|].
  unfold logged, logger.log. rewrite Hl.
  destruct level; try reflexivity; try contradiction.
Qed.

Lemma logAll_quiet (l : option logger.Logger) entries fs :
  quiet l ->
  Forall (fun e => e.1.1 = logger.INFO \/ e.1.1 = logger.WARN) entries ->
  logAll l entries fs = (l, fs).
Proof.
  intros Hq. revert fs. induction entries as [|[[level msg] fields] rest IH];
    intros fs Hall; [reflexivity|].
  apply Forall_cons in Hall as [Hlevel Hall]. simpl in Hlevel. simpl.
  rewrite (logged_quiet l) by
    (try exact Hq; destruct Hlevel as [-> | ->]; (discriminate || (left; discriminate))).
  apply IH, Hall.
Qed.

Lemma detectionEntries_levels projectConfig found netInfo :
  Forall (fun e => e.1.1 = logger.INFO \/ e.1.1 = logger.WARN)
         (detectionEntries projectConfig found netInfo).
Proof.
  unfold detectionEntries. apply Forall_app.
  split; [constructor; [simpl; auto | constructor]|].
  apply Forall_app. split.
  - destruct (_ && _); [|constructor].
    destruct (runningContainers found); (constructor; [simpl; auto | constructor]).
  - destruct (Supabase _); [|constructor].
    destruct (supabaseStatus found); (constructor; [simpl; auto | constructor]).
Qed.

(** The stages of a run that has detected an address. *)
Lemma executeStart_stages
      (rangeVars : gmap string string -> list (string * string))
      (c : StartCmd) (projectConfig : ProjectConfig)
      (os : list NetInterface + error) (found : Detected)
      (existing : list EnvVar + fsError) (timestamp : string) (fs : FileSystem)
      (netInfo : NetworkInfo) :
  DetectLocalIP os = inl netInfo ->
  let before := logAll (logger c) (detectionEntries projectConfig found netInfo) fs in
  let transformedVars :=
    transformVars (rangeVars (collectVars projectConfig found)) (IP_ netInfo) in
  executeStart rangeVars c projectConfig os found existing timestamp fs =
    if NoEnv c || DryRun c then (setLogger c before.1, before.2, None)
    else
      match existing with
      | inr err =>
          (setLogger c before.1, before.2,
           Some (NewError ErrFileNotFound "Failed to read existing env file"
                          (Some (inr err))))
      | inl existingVars =>
          let write := Write (NewEnvWriter (Output projectConfig)) timestamp
                             (Merge transformedVars existingVars) before.2 in
          match write.2 with
          | Some err =>
              (setLogger c before.1, write.1,
               Some (NewError ErrPermissionDenied "Failed to write env file"
                              (Some (inr err))))
          | None =>
              let after := logAll before.1 [updatedEntry projectConfig transformedVars]
                                  write.1 in
              (setLogger c after.1, after.2, None)
          end
      end.
Proof.
  intros Hd. cbv zeta. unfold executeStart, detectionEntries, collectVars, updatedEntry.
  rewrite Hd.
  destruct (Docker (AutoDetect projectConfig)), (dockerAvailable found),
    (runningContainers found) as [containers|derr],
    (Supabase (AutoDetect projectConfig)), (supabaseStatus found) as [services|serr],
    (NoEnv c || DryRun c), existing as [existingVars|rerr];
    cbn [andb app logAll fst snd];
    repeat (match goal with
            | |- context [logged ?l ?lv ?m ?f ?fs0] =>
                is_var fs0; destruct (logged l lv m f fs0) as [? ?]
            | |- context [Write ?w ?t ?v ?fs0] =>
                is_var fs0; destruct (Write w t v fs0) as [? [?|]]
            end; cbn [fst snd logAll]);
    reflexivity.
Qed.

(** X15. One run of [executeStart].  When the detection of the address
    fails, the run fails with [ErrNoNetwork] and has touched and logged
    nothing.  Otherwise the logger, if there is one, is handed the
    entries of the detection, in the order of the calls, and the
    variables are collected and rewritten; with [--no-env] or
    [--dry-run] the run ends there, without an error.  A writing run
    then fails with [ErrFileNotFound] when the env file cannot be read
    and with [ErrPermissionDenied] when it cannot be written, the env
    file then being what it was before the write; when the write
    succeeds, the env file holds the text of the merge of the rewritten
    variables with the existing ones, one managed variable for every
    collected key, and the logger is handed one more entry.  A run
    fails in these three ways only (exit codes 3, 1 and 4).  With no
    logger, or one of level [ERROR], the files change through the env
    writer alone: none with [--no-env] or [--dry-run], the env file is
    as it was after a failing run, and all that is ever written is the
    env file and its backup. *)
Theorem executeStart_outcomes
        (rangeVars : gmap string string -> list (string * string))
        (Hrange : forall vars, rangeVars vars ≡ₚ map_to_list vars)
        (c : StartCmd) (projectConfig : ProjectConfig)
        (os : list NetInterface + error) (found : Detected)
        (existing : list EnvVar + fsError) (timestamp : string) (fs : FileSystem) :
  let run := executeStart rangeVars c projectConfig os found existing timestamp fs in
  let output := Output projectConfig in
  (forall err, DetectLocalIP os = inr err ->
     run = (c, fs, Some (NewError ErrNoNetwork "Failed to detect local IP address"
                                  (Some (inl err))))) /\
  (forall netInfo, DetectLocalIP os = inl netInfo ->
     let before := logAll (logger c) (detectionEntries projectConfig found netInfo) fs in
     let transformedVars :=
       transformVars (rangeVars (collectVars projectConfig found)) (IP_ netInfo) in
     (NoEnv c || DryRun c = true -> run = (setLogger c before.1, before.2, None)) /\
     (NoEnv c || DryRun c = false ->
      (forall err, existing = inr err ->
         run = (setLogger c before.1, before.2,
                Some (NewError ErrFileNotFound "Failed to read existing env file"
                               (Some (inr err))))) /\
      (forall existingVars, existing = inl existingVars ->
         let merged := Merge transformedVars existingVars in
         let write := Write (NewEnvWriter output) timestamp merged before.2 in
         (forall err, write.2 = Some err ->
            run = (setLogger c before.1, write.1,
                   Some (NewError ErrPermissionDenied "Failed to write env file"
                                  (Some (inr err)))) /\
            files write.1 !! output = files before.2 !! output) /\
         (write.2 = None ->
            let after := logAll before.1 [updatedEntry projectConfig transformedVars]
                                write.1 in
            run = (setLogger c after.1, after.2, None) /\
            files write.1 !! output = Some (formatEnvFile timestamp merged) /\
            forall key value, collectVars projectConfig found !! key = Some value ->
              {| Key := key; Value := transformURL value (IP_ netInfo); Managed := true |}
                ∈ merged)))) /\
  (forall e, snd run = Some e ->
     (Code e = ErrNoNetwork /\ ExitCode e = 3%Z /\ fst run = (c, fs) /\
      exists err, DetectLocalIP os = inr err) \/
     (Code e = ErrFileNotFound /\ ExitCode e = 1%Z /\ exists err, existing = inr err) \/
     (Code e = ErrPermissionDenied /\ ExitCode e = 4%Z /\
      exists err, Cause e = Some (inr err))) /\
  (quiet (logger c) ->
     (fst run).1 = c /\
     (NoEnv c || DryRun c = true -> (fst run).2 = fs) /\
     (snd run <> None -> files (fst run).2 !! output = files fs !! output) /\
     (exists done, written (fst run).2 = written fs ++ done /\
        Forall (fun w => w.1 = output \/ w.1 = output +:+ ".bak") done)).
Proof.
  intros run output. subst run output.
  destruct (DetectLocalIP os) as [netInfo|derr] eqn:Hdet.
  2: { assert (Hrun : executeStart rangeVars c projectConfig os found existing timestamp fs
                      = (c, fs, Some (NewError ErrNoNetwork
                                        "Failed to detect local IP address"
                                        (Some (inl derr))))).
       { unfold executeStart. rewrite Hdet. reflexivity. }
       rewrite Hrun. split; [|split; [|split]].
       - intros err [= <-]. reflexivity.
       - discriminate.
       - intros e [= <-]. left. repeat split; eauto.
       - intros _. cbn [fst snd]. split; [reflexivity|]. split; [reflexivity|].
         split; [reflexivity|]. exists []. by rewrite app_nil_r. }
  pose proof (executeStart_stages rangeVars c projectConfig os found existing timestamp fs
                netInfo Hdet) as Hrun.
  cbv zeta in Hrun.
  set (before := logAll (logger c) (detectionEntries projectConfig found netInfo) fs) in *.
  set (transformedVars :=
         transformVars (rangeVars (collectVars projectConfig found)) (IP_ netInfo)) in *.
  assert (Hmem : forall existingVars key value,
            collectVars projectConfig found !! key = Some value ->
            {| Key := key; Value := transformURL value (IP_ netInfo); Managed := true |}
              ∈ Merge transformedVars existingVars).
  { intros existingVars key value Hkv. unfold Merge. apply elem_of_app. left.
    subst transformedVars. rewrite transformVars_map, map_map. apply list_elem_of_fmap.
    exists (key, value). split; [reflexivity|].
    rewrite (Hrange _). by apply elem_of_map_to_list. }
  assert (Hsetl : quiet (logger c) -> setLogger c (logger c) = c).
  { intros _. destruct c. reflexivity. }
  assert (Hquiet : quiet (logger c) -> before = (logger c, fs)).
  { intros Hq. subst before. apply logAll_quiet; [exact Hq|].
    apply detectionEntries_levels. }
  split; [discriminate|].
  split.
  { intros netInfo' [= <-]. cbv zeta. fold before. fold transformedVars.
    split; [intros Hdry; rewrite Hrun, Hdry; reflexivity|].
    intros Hdry. rewrite Hdry in Hrun. split.
    - intros err ->. exact Hrun.
    - intros existingVars ->.
      destruct (Write_env_file (Output projectConfig) timestamp
                  (Merge transformedVars existingVars) before.2) as (Hfail & Hok & _ & _).
      cbv zeta in Hfail, Hok. split.
      + intros err Herr. rewrite Herr in Hrun. split; [exact Hrun|].
        apply Hfail. rewrite Herr. discriminate.
      + intros Hnone. rewrite Hnone in Hrun. split; [exact Hrun|].
        split; [by apply Hok|]. apply Hmem. }
  split.
  { intros e. rewrite Hrun. destruct (NoEnv c || DryRun c); [discriminate|].
    destruct existing as [existingVars|rerr].
    - destruct (Write _ timestamp _ before.2).2 as [werr|] eqn:HW; [|discriminate].
      intros [= <-]. right; right. repeat split; eauto.
    - intros [= <-]. right; left. repeat split; eauto. }
  intros Hq. rewrite (Hquiet Hq) in Hrun. cbn [fst snd] in Hrun. rewrite Hrun.
  destruct (NoEnv c || DryRun c).
  { cbn [fst snd]. split; [by apply Hsetl|]. split; [reflexivity|].
    split; [reflexivity|]. exists []. by rewrite app_nil_r. }
  destruct existing as [existingVars|rerr].
  2: { cbn [fst snd]. split; [by apply Hsetl|]. split; [discriminate|].
       split; [reflexivity|]. exists []. by rewrite app_nil_r. }
  destruct (Write_env_file (Output projectConfig) timestamp
              (Merge transformedVars existingVars) fs) as (Hfail & _ & Hdone & _).
  cbv zeta in Hfail, Hdone.
  destruct (Write _ timestamp _ fs).2 as [werr|] eqn:HW.
  - cbn [fst snd]. split; [by apply Hsetl|]. split; [discriminate|].
    split; [intros _; apply Hfail; discriminate | exact Hdone].
  - assert (Hup : Forall (fun e => e.1.1 = logger.INFO \/ e.1.1 = logger.WARN)
                         [updatedEntry projectConfig transformedVars]).
    { constructor; [left; reflexivity | constructor]. }
    rewrite (logAll_quiet _ _ _ Hq Hup).
    cbn [fst snd]. split; [by apply Hsetl|]. split; [discriminate|].
    split; [intros H; contradiction | exact Hdone].
Qed.

End StartProperties.

(** ** Project configuration, init and doctor *)

Section ConfigProperties.

Implicit Types (order : list (string * string)).

Lemma validateVars_None order :
  validateVars order = None <->
  forall key value, (key, value) ∈ order -> key <> "" /\ value <> "".
Proof.
  induction order as [|[k v] rest IH]; simpl.
  - split; [|reflexivity]. intros _ key value H. by apply elem_of_nil in H.
  - destruct (String.eqb_spec k "") as [->|Hk].
    { split; [discriminate|]. intros H. destruct (H "" v) as [Hc _]; [left|]. congruence. }
    destruct (String.eqb_spec v "") as [->|Hv].
    { split; [discriminate|]. intros H. destruct (H k "") as [_ Hc]; [left|]. congruence. }
    rewrite IH. split.
    + intros H key value Hin. apply elem_of_cons in Hin as [[= -> ->]|Hin]; auto.
    + intros H key value Hin. apply H. by right.
Qed.

Lemma ProjectConfig_Validate_None
      (rangeVars : gmap string string -> list (string * string))
      (Hrange : forall vars, rangeVars vars ≡ₚ map_to_list vars)
      (c : ProjectConfig) :
  ProjectConfig_Validate rangeVars c = None <->
  Output c <> "" /\
  forall key value, Vars c !! key = Some value -> key <> "" /\ value <> "".
Proof.
  unfold ProjectConfig_Validate.
  destruct (String.eqb_spec (Output c) "") as [Ho|Ho].
  { split; [discriminate | intros [H _]; congruence]. }
  rewrite validateVars_None. split.
  - intros H. split; [exact Ho|]. intros key value Hkv. apply H.
    rewrite (Hrange _). by apply elem_of_map_to_list.
  - intros [_ H] key value Hin. apply H.
    rewrite (Hrange _) in Hin. by apply elem_of_map_to_list in Hin.
Qed.

Lemma GetDefaultProjectConfig_valid
      (rangeVars : gmap string string -> list (string * string))
      (Hrange : forall vars, rangeVars vars ≡ₚ map_to_list vars) :
  ProjectConfig_Validate rangeVars GetDefaultProjectConfig = None.
Proof.
  apply (ProjectConfig_Validate_None rangeVars Hrange).
  split; [discriminate|]. intros key value. simpl.
  rewrite !lookup_insert_Some, lookup_empty.
  intros [[<- <-]|[_ [[<- <-]|[_ [[<- <-]|[_ [[<- <-]|[_ ?]]]]]]]];
    try (split; discriminate).
Qed.

(** X16. [ProjectConfig.Validate] accepts a configuration exactly when
    its output path is not empty and no variable has an empty key or an
    empty value, in whatever order the variables are visited; an empty
    output path is reported before any variable is looked at; the
    default configuration is accepted. *)
Theorem ProjectConfig_Validate_accepts
        (rangeVars : gmap string string -> list (string * string))
        (Hrange : forall vars, rangeVars vars ≡ₚ map_to_list vars)
        (c : ProjectConfig) :
  (ProjectConfig_Validate rangeVars c = None <->
   Output c <> "" /\
   forall key value, Vars c !! key = Some value -> key <> "" /\ value <> "") /\
  (Output c = "" ->
   ProjectConfig_Validate rangeVars c =
     Some (ErrNew "output file path cannot be empty")) /\
  ProjectConfig_Validate rangeVars GetDefaultProjectConfig = None.
Proof.
  split; [by apply ProjectConfig_Validate_None|]. split.
  - intros Ho. unfold ProjectConfig_Validate. rewrite Ho. reflexivity.
  - by apply GetDefaultProjectConfig_valid.
Qed.

(** X17. [lanup init].  Any format but [yaml] is refused with
    [ErrInvalidConfig] (exit code 2).  An existing [.lanup.yaml] is never
    overwritten without [--force]: the command fails with
    [ErrFileNotFound] (exit code 1) and nothing is touched.  No run
    touches a file other than [.lanup.yaml].  A run that succeeds has
    written the default configuration to [.lanup.yaml], whole.  A run
    that fails has changed nothing, with one exception: when the write
    fails after the file has been opened, [.lanup.yaml] is left with
    the bytes written by then, and the old content, if there was one
    and [--force] was given, is lost.  The only failure other than the
    two refusals is that of the save ([ErrPermissionDenied], exit code
    4), which for the default configuration is never a refusal by the
    validation. *)
Theorem InitCmd_Run_outcomes
        (rangeVars : gmap string string -> list (string * string))
        (Hrange : forall vars, rangeVars vars ≡ₚ map_to_list vars)
        (marshal : ProjectConfig -> string + error)
        (c : InitCmd) (outcome : writeOutcome) (fs : FileSystem) :
  let run := InitCmd_Run rangeVars marshal c outcome fs in
  (Format c <> "yaml" ->
   fst run = fs /\ exists e, snd run = Some e /\ Code e = ErrInvalidConfig /\
                             ExitCode e = 2%Z) /\
  (Format c = "yaml" -> is_Some (files fs !! ".lanup.yaml") -> Force c = false ->
   fst run = fs /\ exists e, snd run = Some e /\ Code e = ErrFileNotFound /\
                             ExitCode e = 1%Z) /\
  (forall path, path <> ".lanup.yaml" -> files (fst run) !! path = files fs !! path) /\
  denied (fst run) = denied fs /\
  (snd run <> None ->
   fst run = fs \/
   exists data n e,
     marshal GetDefaultProjectConfig = inl data /\
     outcome = WriteFailsAfter n /\ (".lanup.yaml" ∉ denied fs) /\
     (is_Some (files fs !! ".lanup.yaml") -> Force c = true) /\
     fst run = {| files := <[".lanup.yaml" := substring 0 n data]> (files fs);
                  denied := denied fs;
                  written := written fs ++ [(".lanup.yaml", substring 0 n data)] |} /\
     snd run = Some e /\ Code e = ErrPermissionDenied /\
     Cause e = Some (SaveWrite (ErrIO ".lanup.yaml"))) /\
  (outcome = WriteCompletes -> snd run <> None -> fst run = fs) /\
  (snd run = None ->
   outcome = WriteCompletes /\
   exists data, marshal GetDefaultProjectConfig = inl data /\
     fst run = {| files := <[".lanup.yaml" := data]> (files fs);
                  denied := denied fs;
                  written := written fs ++ [(".lanup.yaml", data)] |}) /\
  (forall e, snd run = Some e -> Code e = ErrPermissionDenied ->
     ExitCode e = 4%Z /\
     ((exists err, Cause e = Some (SaveMarshal err)) \/
      (exists err, Cause e = Some (SaveWrite err)))).
Proof.
  intros run. subst run. unfold InitCmd_Run.
  assert (Hsame : forall err : option (LanupError saveError),
    (forall path, path <> ".lanup.yaml" -> files (fs, err).1 !! path = files fs !! path) /\
    denied (fs, err).1 = denied fs /\
    (err <> None ->
     (fs, err).1 = fs \/
     exists data n e,
       marshal GetDefaultProjectConfig = inl data /\
       outcome = WriteFailsAfter n /\ (".lanup.yaml" ∉ denied fs) /\
       (is_Some (files fs !! ".lanup.yaml") -> Force c = true) /\
       (fs, err).1 = {| files := <[".lanup.yaml" := substring 0 n data]> (files fs);
                        denied := denied fs;
                        written := written fs ++ [(".lanup.yaml", substring 0 n data)] |} /\
       err = Some e /\ Code e = ErrPermissionDenied /\
       Cause e = Some (SaveWrite (ErrIO ".lanup.yaml"))) /\
    (outcome = WriteCompletes -> err <> None -> (fs, err).1 = fs)).
  { intros err. split; [reflexivity|]. split; [reflexivity|].
    split; [intros _; by left | reflexivity]. }
  destruct (String.eqb_spec (Format c) "yaml") as [Hy|Hy].
  2: { destruct (String.eqb_spec (Format c) "toml") as [Ht|Ht]; cbn [negb andb].
       - split; [|split; [|split; [|split; [|split; [|split; [|split]]]]]];
           try apply Hsame.
         + intros _. split; [reflexivity|]. eexists. split; [reflexivity|]. by split.
         + congruence.
         + discriminate.
         + intros e [= <-]. discriminate.
       - split; [|split; [|split; [|split; [|split; [|split; [|split]]]]]];
           try apply Hsame.
         + intros _. split; [reflexivity|]. eexists. split; [reflexivity|]. by split.
         + congruence.
         + discriminate.
         + intros e [= <-]. discriminate. }
  rewrite Hy. cbn [String.eqb Ascii.eqb Bool.eqb negb andb].
  change (String.eqb "yaml" "yaml") with true.
  change (String.eqb "yaml" "toml") with false. cbn [negb andb]. cbv zeta.
  destruct (bool_decide (is_Some (files fs !! ".lanup.yaml")) && negb (Force c)) eqn:Hex.
  { split; [|split; [|split; [|split; [|split; [|split; [|split]]]]]];
      try apply Hsame.
    - congruence.
    - intros _ _ _. split; [reflexivity|]. eexists. split; [reflexivity|]. by split.
    - discriminate.
    - intros e [= <-]. discriminate. }
  unfold SaveProjectConfig.
  change (String.eqb ".lanup.yaml" "") with false. cbv iota zeta.
  rewrite (GetDefaultProjectConfig_valid rangeVars Hrange).
  assert (Hno : is_Some (files fs !! ".lanup.yaml") -> Force c = false -> False).
  { intros Hs Hf. rewrite Hf in Hex. rewrite bool_decide_eq_true_2 in Hex by exact Hs.
    discriminate. }
  assert (Hforce : is_Some (files fs !! ".lanup.yaml") -> Force c = true).
  { intros Hs. destruct (Force c) eqn:Hf; [reflexivity|]. destruct (Hno Hs eq_refl). }
  destruct (marshal GetDefaultProjectConfig) as [data|merr].
  2: { split; [|split; [|split; [|split; [|split; [|split; [|split]]]]]];
         try apply Hsame.
       - congruence.
       - intros _ Hs Hf. destruct (Hno Hs Hf).
       - discriminate.
       - intros e [= <-] _. split; [reflexivity|]. left. eauto. }
  unfold os_WriteFile.
  destruct (decide (".lanup.yaml" ∈ denied fs)) as [Hd|Hd].
  { split; [|split; [|split; [|split; [|split; [|split; [|split]]]]]];
      try apply Hsame.
    - congruence.
    - intros _ Hs Hf. destruct (Hno Hs Hf).
    - discriminate.
    - intros e [= <-] _. split; [reflexivity|]. right. eauto. }
  destruct outcome as [|n]; cbn [fst snd].
  - split; [|split; [|split; [|split; [|split; [|split; [|split]]]]]].
    + congruence.
    + intros _ Hs Hf. destruct (Hno Hs Hf).
    + intros path Hp. cbn [files]. by rewrite lookup_insert_ne.
    + reflexivity.
    + congruence.
    + congruence.
    + intros _. split; [reflexivity|]. exists data. split; reflexivity.
    + discriminate.
  - split; [|split; [|split; [|split; [|split; [|split; [|split]]]]]].
    + congruence.
    + intros _ Hs Hf. destruct (Hno Hs Hf).
    + intros path Hp. cbn [files]. by rewrite lookup_insert_ne.
    + reflexivity.
    + intros _. right. exists data, n. eexists.
      split; [reflexivity|]. split; [reflexivity|]. split; [exact Hd|].
      split; [exact Hforce|]. split; [reflexivity|]. split; [reflexivity|].
      split; reflexivity.
    + discriminate.
    + discriminate.
    + intros e [= <-] _. split; [reflexivity|]. right. eauto.
Qed.

End ConfigProperties.

Section DoctorProperties.

Context {go : GoStdlib}.

Import doctor.

Lemma allPassed_forallb checks : forall passed,
  allPassed passed checks = passed && forallb Status checks.
Proof.
  induction checks as [|check rest IH]; intros passed; simpl.
  - by rewrite andb_true_r.
  - rewrite IH. destruct (Status check), passed; reflexivity.
Qed.

Lemma checkNetworkInterfaces_Status os :
  Status (checkNetworkInterfaces os) = true <->
  exists netInfo, DetectLocalIP os = inl netInfo.
Proof.
  unfold checkNetworkInterfaces. destruct (DetectLocalIP os) as [netInfo|err]; simpl.
  - split; eauto.
  - split; [discriminate|]. by intros [? [=]].
Qed.

Lemma checkDocker_Status found :
  Status (checkDocker found) = true <->
  dockerAvailable found = true /\
  exists containers, runningContainers found = inl containers.
Proof.
  unfold checkDocker. destruct (dockerAvailable found); simpl.
  2: { split; [discriminate|]. by intros [[=] _]. }
  destruct (runningContainers found) as [cs|err]; simpl.
  - destruct (length cs =? 0)%nat; simpl; split; eauto.
  - split; [discriminate|]. by intros [_ [? [=]]].
Qed.

Lemma checkSupabase_Status found :
  Status (checkSupabase found) = true <->
  exists services, supabaseStatus found = inl services /\ services <> [].
Proof.
  unfold checkSupabase. destruct (supabaseStatus found) as [[|s ss]|err]; simpl.
  - split; [discriminate|]. intros (ss & [= <-] & Hne). congruence.
  - split; [|reflexivity]. intros _. eexists. split; [reflexivity | discriminate].
  - split; [discriminate|]. by intros (ss & [=] & _).
Qed.

Lemma Run_passed os found :
  Run os found =
    if Status (checkNetworkInterfaces os) && Status (checkDocker found)
       && Status (checkSupabase found)
    then None else Some (NewError ErrNoNetwork "Health checks failed" None).
Proof.
  unfold Run. rewrite allPassed_forallb. simpl.
  destruct (Status (checkNetworkInterfaces os)), (Status (checkDocker found)),
    (Status (checkSupabase found)); reflexivity.
Qed.

(** X18. [lanup doctor] succeeds exactly when the address is detected,
    Docker is available and lists its containers, and Supabase reports at
    least one service.  Whichever check fails, the error is the same
    [LanupError] with code [ErrNoNetwork], message [Health checks failed]
    and no cause, whose exit code is 3: an unavailable Docker gives it
    also when the network check passes. *)
Theorem doctor_Run_outcomes (os : list NetInterface + error) (found : Detected) :
  (Run os found = None <->
   (exists netInfo, DetectLocalIP os = inl netInfo) /\
   dockerAvailable found = true /\
   (exists containers, runningContainers found = inl containers) /\
   (exists services, supabaseStatus found = inl services /\ services <> [])) /\
  (forall e, Run os found = Some e ->
     e = NewError ErrNoNetwork "Health checks failed" None /\ ExitCode e = 3%Z) /\
  (Status (checkNetworkInterfaces os) = true <->
   exists netInfo, DetectLocalIP os = inl netInfo) /\
  (dockerAvailable found = false ->
   Run os found = Some (NewError ErrNoNetwork "Health checks failed" None)).
Proof.
  rewrite Run_passed.
  split; [|split; [|split]].
  - pose proof (checkNetworkInterfaces_Status os) as Hn.
    pose proof (checkDocker_Status found) as Hd.
    pose proof (checkSupabase_Status found) as Hs.
    destruct (Status (checkNetworkInterfaces os)), (Status (checkDocker found)),
      (Status (checkSupabase found)); simpl; split; try discriminate; try tauto;
      intros (H1 & H2 & H3 & H4).
    + apply Hs in H4. discriminate.
    + assert (false = true) by (apply Hd; split; assumption). discriminate.
    + assert (false = true) by (apply Hd; split; assumption). discriminate.
    + apply Hn in H1. discriminate.
    + apply Hn in H1. discriminate.
    + apply Hn in H1. discriminate.
    + apply Hn in H1. discriminate.
  - intros e He. case_match; [discriminate|]. injection He as <-. split; reflexivity.
  - apply checkNetworkInterfaces_Status.
  - intros Hd. replace (Status (checkDocker found)) with false.
    + by rewrite andb_false_r.
    + unfold checkDocker. rewrite Hd. reflexivity.
Qed.

End DoctorProperties.

(** ** Tail of the log file *)

Section TailProperties.

Implicit Types (s data buffer : string) (lines : list string).

Lemma Split_nonempty s sep : Split s sep <> [].
Proof.
  destruct s as [|c t]; simpl; [discriminate|].
  destruct (Ascii.eqb c sep); [discriminate|]. destruct (Split t sep); discriminate.
Qed.

Lemma Split_cons c t sep :
  Split (String c t) sep =
    if Ascii.eqb c sep then EmptyString :: Split t sep
    else String c (hd EmptyString (Split t sep)) :: tail (Split t sep).
Proof.
  simpl. destruct (Ascii.eqb c sep); [reflexivity|].
  pose proof (Split_nonempty t sep). destruct (Split t sep); [congruence | reflexivity].
Qed.

Lemma Split_first s sep : forall first rest,
  Split s sep = first :: rest -> Split first sep = [first].
Proof.
  induction s as [|c t IH]; intros first rest H.
  - injection H as <- <-. reflexivity.
  - rewrite Split_cons in H. destruct (Ascii.eqb c sep) eqn:Hc.
    + injection H as <- _. reflexivity.
    + injection H as <- _. rewrite Split_cons, Hc.
      pose proof (Split_nonempty t sep).
      destruct (Split t sep) as [|f r] eqn:Ht; [congruence|]. simpl.
      rewrite (IH f r eq_refl). reflexivity.
Qed.

Lemma Split_app a sep : forall b first rest,
  Split b sep = first :: rest ->
  Split (a +:+ b) sep = Split (a +:+ first) sep ++ rest.
Proof.
  induction a as [|c a IH]; intros b first rest Hb.
  - rewrite !append_nil_l, Hb. rewrite (Split_first _ _ _ _ Hb). reflexivity.
  - rewrite !append_cons, !Split_cons. rewrite (IH b first rest Hb).
    destruct (Ascii.eqb c sep); [reflexivity|].
    pose proof (Split_nonempty (a +:+ first) sep).
    destruct (Split (a +:+ first) sep); [congruence | reflexivity].
Qed.

Lemma substring_dropBytes data : forall off size,
  (off + size <= String.length data)%nat ->
  substring off size data +:+ dropBytes (off + size) data = dropBytes off data.
Proof.
  induction data as [|c t IH]; intros off size Hle.
  - simpl in Hle. assert (off = 0%nat) by lia. assert (size = 0%nat) by lia.
    subst. reflexivity.
  - destruct off as [|off].
    + simpl. destruct size as [|size]; [reflexivity|].
      simpl. rewrite append_cons. f_equal.
      apply (IH 0%nat size). simpl in Hle. lia.
    + simpl. apply IH. simpl in Hle. lia.
Qed.

Lemma substring_whole data off :
  substring 0 off data +:+ dropBytes off data = data.
Proof.
  revert off. induction data as [|c t IH]; intros [|off]; simpl; try reflexivity.
  rewrite append_cons, IH. reflexivity.
Qed.

Lemma dropBytes_all data : dropBytes (String.length data) data = EmptyString.
Proof. induction data as [|c t IH]; [reflexivity | exact IH]. Qed.


Lemma tailState_suffix data lines buffer offset :
  tailState data lines buffer offset ->
  exists front, Split data newline = front ++ lines.
Proof.
  intros [Hle [[Hpos HS] | [-> [-> | ->]]]].
  - exists (Split (substring 0 (N.to_nat offset) data +:+ buffer) newline).
    rewrite <- (Split_app _ _ _ _ _ HS), substring_whole. reflexivity.
  - exists []. reflexivity.
  - exists (Split data newline). by rewrite app_nil_r.
Qed.

Lemma readChunks_tailState file data n : forall fuel lines buffer offset,
  holds file data ->
  tailState data lines buffer offset ->
  (N.to_nat offset < fuel)%nat ->
  exists lines' buffer' offset',
    readChunks fuel file n lines buffer offset = inl lines' /\
    tailState data lines' buffer' offset' /\
    (offset' = 0 \/ (n <= Z.of_nat (length lines'))%Z) /\
    ((String.length data <= N.to_nat bufferSize)%nat -> (0 < n)%Z ->
     data <> EmptyString -> lines = [] -> offset = N.of_nat (String.length data) ->
     lines' = Split data newline).
Proof.
  intros fuel. induction fuel as [|fuel IH]; intros lines buffer offset Hfile Hst Hfuel;
    [lia|].
  change (readChunks (S fuel) file n lines buffer offset) with
    (if (0 <? offset) && (Z.of_nat (length lines) <? n)%Z then
       let readSize := if offset <? bufferSize then offset else bufferSize in
       let offset := offset - readSize in
       match ReadAt file readSize offset with
       | inr err => inr err
       | inl chunk =>
           let buffer := chunk +:+ buffer in
           let allLines := Split buffer newline in
           if 0 <? offset
           then readChunks fuel file n (tail allLines ++ lines)
                           (hd EmptyString allLines) offset
           else readChunks fuel file n (allLines ++ lines) EmptyString offset
       end
     else inl lines).
  destruct (N.ltb_spec 0 offset) as [Hpos|Hzero]; simpl.
  2: { exists lines, buffer, offset. split; [reflexivity|]. split; [exact Hst|].
       split; [left; lia|]. intros _ _ Hne _ Hoff. destruct data; [congruence|].
       simpl in Hoff. lia. }
  destruct (Z.ltb_spec (Z.of_nat (length lines)) n) as [Hfew|Hmany].
  2: { exists lines, buffer, offset. split; [reflexivity|]. split; [exact Hst|].
       split; [right; lia|]. intros _ Hn _ -> _. simpl in Hmany. lia. }
  cbv zeta.
  set (readSize := if offset <? bufferSize then offset else bufferSize).
  assert (Hsize : 0 < readSize /\ readSize <= offset /\ readSize <= bufferSize).
  { subst readSize. unfold bufferSize in *.
    destruct (N.ltb_spec offset 4096); lia. }
  destruct Hst as [Hle [[_ HS] | [-> _]]]; [|lia].
  destruct Hfile as [Hstat Hread].
  rewrite Hread by lia.
  set (chunk := substring (N.to_nat (offset - readSize)) (N.to_nat readSize) data).
  assert (Hdrop : chunk +:+ dropBytes (N.to_nat offset) data =
                  dropBytes (N.to_nat (offset - readSize)) data).
  { subst chunk.
    assert (E : N.to_nat offset =
                (N.to_nat (offset - readSize) + N.to_nat readSize)%nat) by lia.
    rewrite E. apply substring_dropBytes. lia. }
  assert (Hall : Split (dropBytes (N.to_nat (offset - readSize)) data) newline =
                 Split (chunk +:+ buffer) newline ++ lines).
  { rewrite <- Hdrop. apply Split_app. exact HS. }
  pose proof (Split_nonempty (chunk +:+ buffer) newline) as Hne.
  destruct (N.ltb_spec 0 (offset - readSize)) as [Hmore|Hstart].
  - destruct (IH (tail (Split (chunk +:+ buffer) newline) ++ lines)
                (hd EmptyString (Split (chunk +:+ buffer) newline))
                (offset - readSize)) as (lines' & buffer' & offset' & Hrun & Hst' & Hend & _).
    + split; assumption.
    + split; [lia|]. left. split; [exact Hmore|]. rewrite Hall.
      destruct (Split (chunk +:+ buffer) newline); [congruence | reflexivity].
    + lia.
    + exists lines', buffer', offset'. split; [exact Hrun|]. split; [exact Hst'|].
      split; [exact Hend|]. intros Hsmall _ _ _ Hoff. subst offset. unfold bufferSize in *.
      exfalso. subst readSize. destruct (N.ltb_spec (N.of_nat (String.length data)) 4096); lia.
  - assert (Hz : offset - readSize = 0) by lia.
    destruct (IH (Split (chunk +:+ buffer) newline ++ lines) EmptyString
                (offset - readSize)) as (lines' & buffer' & offset' & Hrun & Hst' & Hend & _).
    + split; assumption.
    + split; [lia|]. right. split; [exact Hz|]. left. rewrite <- Hall, Hz. reflexivity.
    + lia.
    + exists lines', buffer', offset'. split; [exact Hrun|]. split; [exact Hst'|].
      split; [exact Hend|]. intros _ _ _ _ _.
      (* one more turn from offset 0 changes nothing *)
      rewrite Hz in Hrun. destruct fuel as [|fuel']; simpl in Hrun.
      * injection Hrun as <-. rewrite <- Hall, Hz. reflexivity.
      * injection Hrun as <-. rewrite <- Hall, Hz. reflexivity.
Qed.

Lemma lastn_nil {A} k : lastn k (@nil A) = [].
Proof. unfold lastn. by rewrite drop_nil. Qed.

Lemma lastn_zero {A} (l : list A) : lastn 0 l = [].
Proof. unfold lastn. rewrite Nat.sub_0_r. apply drop_all. Qed.

Lemma lastn_snoc {A} k (l : list A) x : lastn (S k) (l ++ [x]) = lastn k l ++ [x].
Proof.
  unfold lastn. rewrite length_app. simpl.
  replace (length l + 1 - S k)%nat with (length l - k)%nat by lia.
  rewrite drop_app_le by lia. reflexivity.
Qed.

Lemma lastn_length {A} k (l : list A) : length (lastn k l) = Nat.min k (length l).
Proof. unfold lastn. rewrite length_drop. lia. Qed.

Lemma lastn_suffix {A} k (l : list A) : exists front, l = front ++ lastn k l.
Proof. exists (take (length l - k) l). unfold lastn. by rewrite take_drop. Qed.

Lemma printedLines_app l1 l2 : printedLines (l1 ++ l2) = printedLines l1 ++ printedLines l2.
Proof. unfold printedLines. by rewrite filter_app, map_app. Qed.

Lemma collectLines_full n reversed result :
  (n <= Z.of_nat (length result))%Z -> collectLines n reversed result = result.
Proof.
  intros Hn. destruct reversed as [|line rest]; [reflexivity|]. simpl.
  destruct (Z.ltb_spec (Z.of_nat (length result)) n); [lia | reflexivity].
Qed.

Lemma printedLines_one line :
  printedLines [line] =
    if String.eqb line EmptyString then []
    else [line +:+ String newline EmptyString].
Proof.
  unfold printedLines. destruct (String.eqb_spec line EmptyString) as [->|Hline].
  - rewrite filter_cons_False by (intros H; by apply H). reflexivity.
  - rewrite filter_cons_True by exact Hline. reflexivity.
Qed.

Lemma collectLines_lastn n reversed : forall result,
  collectLines n reversed result =
    lastn (Z.to_nat n - length result) (printedLines (rev reversed)) ++ result.
Proof.
  induction reversed as [|line rest IH]; intros result.
  - change (printedLines (rev [])) with (@nil string). by rewrite lastn_nil.
  - change (collectLines n (line :: rest) result) with
      (if (Z.of_nat (length result) <? n)%Z then
         collectLines n rest
           (if negb (String.eqb line EmptyString)
            then (line +:+ String newline EmptyString) :: result
            else result)
       else result).
    change (rev (line :: rest)) with (rev rest ++ [line]).
    destruct (Z.ltb_spec (Z.of_nat (length result)) n) as [Hlt|Hge].
    2: { replace (Z.to_nat n - length result)%nat with 0%nat by lia.
         by rewrite lastn_zero. }
    rewrite printedLines_app, printedLines_one, IH.
    destruct (String.eqb line EmptyString); cbn [negb].
    + by rewrite app_nil_r.
    + replace (Z.to_nat n - length result)%nat
        with (S (Z.to_nat n - length ((line +:+ String newline EmptyString) :: result)))%nat
        by (cbn [length]; lia).
      rewrite lastn_snoc, <- app_assoc. reflexivity.
Qed.

(** X19. [readLastNLines] on a file that holds [data] and can be read
    returns the last lines of some tail of the file that starts at a
    line: a run of consecutive non-empty lines of [data] up to its last
    one, each with its newline, empty lines left out, at most [n] of them
    and none for [n <= 0].  For a file of at most 4096 bytes these are
    the last [n] non-empty lines of the file, or all if there are fewer. *)
Theorem readLastNLines_tail (file : File) (data : string) (n : Z) :
  holds file data ->
  exists result,
    readLastNLines file n = inl result /\
    (exists front, printedLines (Split data newline) = front ++ result) /\
    (Z.of_nat (length result) <= Z.max 0 n)%Z /\
    ((String.length data <= 4096)%nat ->
     result = lastn (Z.to_nat n) (printedLines (Split data newline))).
Proof.
  intros Hfile. unfold readLastNLines. rewrite (proj1 Hfile).
  destruct (readChunks_tailState file data n (S (N.to_nat (N.of_nat (String.length data))))
              [] EmptyString (N.of_nat (String.length data)) Hfile)
    as (lines & buffer & offset & Hrun & Hst & Hend & Hsmall).
  { split; [lia|]. destruct data as [|c t].
    - right. split; [reflexivity|]. by right.
    - left. split; [simpl; lia|]. rewrite Nat2N.id, dropBytes_all. reflexivity. }
  { lia. }
  rewrite Hrun. eexists. split; [reflexivity|].
  rewrite collectLines_lastn, app_nil_r, rev_involutive. simpl. rewrite Nat.sub_0_r.
  split; [|split].
  - destruct (tailState_suffix _ _ _ _ Hst) as (front & ->).
    rewrite printedLines_app.
    destruct (lastn_suffix (Z.to_nat n) (printedLines lines)) as (mid & Hmid).
    exists (printedLines front ++ mid). rewrite <- app_assoc, <- Hmid. reflexivity.
  - rewrite lastn_length. lia.
  - intros Hlen. destruct (Z.ltb_spec 0 n) as [Hn|Hn].
    2: { replace (Z.to_nat n) with 0%nat by lia. by rewrite !lastn_zero. }
    destruct data as [|c t].
    + simpl in Hrun. injection Hrun as <-.
      change (Split EmptyString newline) with [EmptyString].
      rewrite printedLines_one. reflexivity.
    + rewrite Hsmall; try reflexivity; try discriminate; try assumption.
Qed.

End TailProperties.

(** ** The listing of [docker ps] *)

Section NumeralProperties.

Import strings.

Implicit Types (s t : string) (c : ascii).

Lemma isDigit_value c : isDigit c = true -> byteval c - 48 <= 9.
Proof.
  unfold isDigit. intros H. apply andb_true_iff in H as [H1 H2].
  apply N.leb_le in H1, H2. lia.
Qed.

Lemma decimalValue_ge s : forall n, n <= decimalValue n s.
Proof.
  induction s as [|c t IH]; intros n; simpl; [lia|].
  specialize (IH (n * 10 + (byteval c - 48))). lia.
Qed.

Lemma atoiDigits_value s : forall n,
  allChars isDigit s = true ->
  atoiDigits (Z.of_N n) s = Some (Z.of_N (decimalValue n s)).
Proof.
  induction s as [|c t IH]; intros n Hd; [reflexivity|].
  simpl in Hd. apply andb_true_iff in Hd as [Hc Ht].
  pose proof (isDigit_value c Hc) as Hv.
  assert (H48 : 48 <= byteval c).
  { unfold isDigit in Hc. apply andb_true_iff in Hc as [H1 _]. by apply N.leb_le in H1. }
  change (atoiDigits (Z.of_N n) (String c t)) with
    (let ch := (byteval c + 256 - 48) mod 256 in
     if 9 <? ch then None else atoiDigits (Z.of_N n * 10 + Z.of_N ch) t).
  cbv zeta.
  replace ((byteval c + 256 - 48) mod 256) with (byteval c - 48).
  2: { replace (byteval c + 256 - 48) with ((byteval c - 48) + 1 * 256) by lia.
       rewrite N.Div0.mod_add. symmetry. apply N.mod_small. lia. }
  destruct (N.ltb_spec 9 (byteval c - 48)) as [Hgt|_]; [lia|].
  replace (Z.of_N n * 10 + Z.of_N (byteval c - 48))%Z
    with (Z.of_N (n * 10 + (byteval c - 48))) by lia.
  rewrite IH by exact Ht. reflexivity.
Qed.

Lemma parseUintLoop_value s : forall n,
  allChars isDigit s = true ->
  decimalValue n s < 2 ^ 64 ->
  parseUintLoop n s = (decimalValue n s, None).
Proof.
  induction s as [|c t IH]; intros n Hd Hlt; [reflexivity|].
  simpl in Hd. apply andb_true_iff in Hd as [Hc Ht].
  pose proof (isDigit_value c Hc) as Hv.
  pose proof (decimalValue_ge t (n * 10 + (byteval c - 48))) as Hge.
  change (decimalValue n (String c t)) with (decimalValue (n * 10 + (byteval c - 48)) t)
    in Hlt |- *.
  change (parseUintLoop n (String c t)) with
    (if isDigit c then
       let d := byteval c - 48 in
       if 18446744073709551615 / 10 + 1 <=? n then (18446744073709551615, Some ErrRange)
       else
         let n' := n * 10 in
         let n1 := (n' + d) mod 2 ^ 64 in
         if (n1 <? n') || (18446744073709551615 <? n1)
         then (18446744073709551615, Some ErrRange)
         else parseUintLoop n1 t
     else (0, Some ErrSyntax)).
  rewrite Hc. cbv zeta.
  assert (H64 : 2 ^ 64 = 18446744073709551616) by reflexivity.
  assert (Hcut : 18446744073709551615 / 10 + 1 = 1844674407370955162) by reflexivity.
  rewrite Hcut.
  destruct (N.leb_spec 1844674407370955162 n) as [Hbig|Hsmall]; [lia|].
  rewrite (N.mod_small (n * 10 + (byteval c - 48))) by lia.
  destruct (N.ltb_spec (n * 10 + (byteval c - 48)) (n * 10)) as [H1|_]; [lia|].
  destruct (N.ltb_spec 18446744073709551615 (n * 10 + (byteval c - 48))) as [H2|_]; [lia|].
  simpl. apply IH; assumption.
Qed.

Lemma isDigit_not_sign c : isDigit c = true ->
  Ascii.eqb c "-" = false /\ Ascii.eqb c "+" = false.
Proof.
  intros H. split; apply Ascii.eqb_neq; intros ->; discriminate.
Qed.

(** [strconv.Atoi] on a numeral without sign whose value [int] holds. *)
Lemma Atoi_digits s :
  s <> EmptyString -> allChars isDigit s = true -> decimalValue 0 s < 2 ^ 63 ->
  Atoi s = (Z.of_N (decimalValue 0 s), None).
Proof.
  intros Hne Hd Hv. destruct s as [|c t]; [congruence|].
  assert (Hc : isDigit c = true) by (simpl in Hd; by apply andb_true_iff in Hd as [? _]).
  destruct (isDigit_not_sign c Hc) as [Hm Hp].
  unfold Atoi.
  destruct ((0 <? String.length (String c t))%nat &&
            (String.length (String c t) <? 19)%nat).
  - rewrite Hm, Hp. cbn [orb]. change (String.length (String c t) <? 1)%nat with false.
    cbv iota. pose proof (atoiDigits_value (String c t) 0 Hd) as Hf.
    change (Z.of_N 0) with 0%Z in Hf. rewrite Hf. reflexivity.
  - unfold ParseInt. rewrite Hm, Hp. cbn [orb negb andb]. unfold ParseUint.
    assert (H63 : 2 ^ 63 < 2 ^ 64) by reflexivity.
    rewrite (parseUintLoop_value (String c t) 0 Hd) by lia.
    destruct (N.leb_spec (2 ^ 63) (decimalValue 0 (String c t))); [lia | reflexivity].
Qed.

Lemma allChars_append p s t : allChars p (s +:+ t) = allChars p s && allChars p t.
Proof.
  induction s as [|c s IH]; [reflexivity|].
  rewrite append_cons. simpl. rewrite IH. by rewrite andb_assoc.
Qed.

Lemma allChars_impl (p q : ascii -> bool) s :
  (forall c, p c = true -> q c = true) -> allChars p s = true -> allChars q s = true.
Proof.
  intros Hpq. induction s as [|c s IH]; [reflexivity|]. simpl.
  intros H. apply andb_true_iff in H as [Hc Hs]. by rewrite (Hpq c Hc), IH.
Qed.

Lemma string_of_uint_digits d : allChars isDigit (NilEmpty.string_of_uint d) = true.
Proof. induction d; simpl; try reflexivity; exact IHd. Qed.

Lemma decimalValue_of_uint_acc d : forall acc,
  decimalValue (Npos acc) (NilEmpty.string_of_uint d) = Npos (Pos.of_uint_acc d acc).
Proof.
  induction d; intros acc; simpl; try reflexivity; rewrite <- IHd; f_equal; lia.
Qed.

Lemma decimalValue_of_uint d : decimalValue 0 (NilEmpty.string_of_uint d) = Pos.of_uint d.
Proof.
  induction d; simpl; try reflexivity; try exact IHd;
    apply (decimalValue_of_uint_acc d 1) || apply (decimalValue_of_uint_acc d).
Qed.

Lemma formatInt_numeral (n : Z) :
  (0 <= n)%Z ->
  formatInt n <> EmptyString /\
  allChars isDigit (formatInt n) = true /\
  decimalValue 0 (formatInt n) = Z.to_N n.
Proof.
  intros Hn. unfold formatInt. destruct n as [|p|p]; [by repeat split| |lia].
  simpl. pose proof (DecimalPos.Unsigned.to_uint_nonnil p) as Hnil.
  pose proof (DecimalPos.Unsigned.of_to p) as Hof.
  destruct (Pos.to_uint p) as [|d|d|d|d|d|d|d|d|d|d] eqn:E; [congruence|..];
    (split; [discriminate|]);
    (split; [apply (string_of_uint_digits (_ d)) |]);
    rewrite <- Hof; apply (decimalValue_of_uint (_ d)).
Qed.

(** [strconv.Atoi] reads back what [%d] prints. *)
Lemma Atoi_formatInt (n : Z) : (0 <= n < 2 ^ 63)%Z -> Atoi (formatInt n) = (n, None).
Proof.
  intros Hn. destruct (formatInt_numeral n) as (Hne & Hd & Hv); [lia|].
  rewrite Atoi_digits; try assumption.
  - rewrite Hv. f_equal. lia.
  - rewrite Hv. change (2 ^ 63) with (Z.to_N (2 ^ 63)). lia.
Qed.

End NumeralProperties.

Section ListingProperties.

Import strings.

Context {sp : GoSpace}.

Implicit Types (s t r : string) (c : ascii).

(** *** Trimming *)

Lemma trimStop_solid s :
  s <> EmptyString -> allChars solid s = true -> trimStop s = Kept s.
Proof.
  induction s as [|c t IH]; [congruence|]. intros _ H.
  simpl in H. apply andb_true_iff in H as [Hc Ht].
  unfold solid in Hc. apply andb_true_iff in Hc as [Ha Hs]. apply negb_true_iff in Hs.
  simpl. destruct t as [|c' t'].
  - simpl. rewrite Ha, Hs. reflexivity.
  - rewrite IH by (discriminate || exact Ht). reflexivity.
Qed.

Lemma trimStop_app_Kept s t r : trimStop t = Kept r -> trimStop (s +:+ t) = Kept (s +:+ r).
Proof.
  intros Ht. induction s as [|c s IH]; [exact Ht|].
  rewrite !append_cons. simpl. rewrite IH. reflexivity.
Qed.

Lemma TrimSpace_Kept c t r :
  solid c = true -> trimStop (String c t) = Kept r -> TrimSpace (String c t) = r.
Proof.
  intros Hc Hk. unfold solid in Hc. apply andb_true_iff in Hc as [Ha Hs].
  apply negb_true_iff in Hs.
  change (TrimSpace (String c t)) with
    (if negb (isASCIIbyte c) then trimFuncSpace (String c t)
     else if asciiSpace c then TrimSpace t
     else match trimStop (String c t) with
          | AllSpace => EmptyString
          | Kept r => r
          | Wide r => trimRightFuncSpace r
          end).
  rewrite Ha, Hs, Hk. reflexivity.
Qed.

Lemma TrimSpace_solid s : allChars solid s = true -> TrimSpace s = s.
Proof.
  destruct s as [|c t]; [reflexivity|]. intros H.
  apply TrimSpace_Kept.
  - simpl in H. by apply andb_true_iff in H as [? _].
  - apply trimStop_solid; [discriminate | exact H].
Qed.

Lemma TrimSpace_space s : TrimSpace (String " " s) = TrimSpace s.
Proof. reflexivity. Qed.

(** *** Splitting *)

Lemma Split_free s sep :
  allChars (fun c => negb (Ascii.eqb c sep)) s = true -> Split s sep = [s].
Proof.
  induction s as [|c t IH]; [reflexivity|]. simpl. intros H.
  apply andb_true_iff in H as [Hc Ht]. apply negb_true_iff in Hc.
  rewrite Hc, IH by exact Ht. reflexivity.
Qed.

Lemma Split_sep s t sep :
  allChars (fun c => negb (Ascii.eqb c sep)) s = true ->
  Split (s +:+ String sep t) sep = s :: Split t sep.
Proof.
  induction s as [|c s IH]; intros H.
  - rewrite append_nil_l. simpl. by rewrite Ascii.eqb_refl.
  - simpl in H. apply andb_true_iff in H as [Hc Hs]. apply negb_true_iff in Hc.
    rewrite append_cons. simpl. rewrite Hc, IH by exact Hs. reflexivity.
Qed.

(** *** The expression of the port mappings *)

Lemma substring_consumed s t :
  substring 0 (String.length (s +:+ t) - String.length t) (s +:+ t) = s.
Proof.
  rewrite length_append.
  replace (String.length s + String.length t - String.length t)%nat
    with (String.length s) by lia.
  induction s as [|c s IH].
  - destruct t; reflexivity.
  - rewrite append_cons. simpl. f_equal. exact IH.
Qed.

Lemma dropBytes_append s t : dropBytes (String.length s) (s +:+ t) = t.
Proof. induction s as [|c s IH]; [by destruct t | exact IH]. Qed.

Lemma matchHere_Lit {A} text s caps (k : string -> list string -> option A) :
  matchHere (Lit text) (text +:+ s) caps k = k s caps.
Proof. simpl. by rewrite HasPrefix_append, dropBytes_append. Qed.

Lemma matchHere_Lit_fails {A} text s caps (k : string -> list string -> option A) :
  HasPrefix s text = false -> matchHere (Lit text) s caps k = None.
Proof. intros H. simpl. by rewrite H. Qed.

(** The digits of a numeral are taken as a whole when what follows the
    expression matches behind them. *)
Lemma plusLoop_digits {A} s : forall t (k : string -> option A) m,
  s <> EmptyString -> allChars isDigit s = true ->
  k t = Some m ->
  (forall c t', t = String c t' -> isDigit c = false) ->
  plusLoop isDigit (s +:+ t) k = Some m.
Proof.
  induction s as [|c s IH]; intros t k m Hne Hd Hk Hstop; [congruence|].
  simpl in Hd. apply andb_true_iff in Hd as [Hc Hs].
  rewrite append_cons. simpl. rewrite Hc.
  destruct s as [|c' s'].
  - rewrite append_nil_l.
    destruct t as [|c0 t0]; [simpl; exact Hk|].
    simpl. rewrite (Hstop c0 t0 eq_refl). exact Hk.
  - rewrite (IH t k m); [reflexivity | discriminate | exact Hs | exact Hk | exact Hstop].
Qed.

(** Where no digit run is followed by what the expression wants next,
    there is no match. *)
Lemma plusLoop_fails {A} class s : forall (k : string -> option A),
  (forall n, k (dropBytes n s) = None) -> plusLoop class s k = None.
Proof.
  induction s as [|c t IH]; intros k Hk; [reflexivity|].
  simpl. destruct (class c); [|reflexivity].
  rewrite IH.
  - apply (Hk 1%nat).
  - intros n. apply (Hk (S n)).
Qed.



Lemma allChars_dropBytes p n : forall s,
  allChars p s = true -> allChars p (dropBytes n s) = true.
Proof.
  induction n as [|n IH]; intros s H; [by destruct s|].
  destruct s as [|c t]; [reflexivity|]. simpl in H |- *.
  apply andb_true_iff in H as [_ Ht]. by apply IH.
Qed.

Lemma HasPrefix_arrow s : allChars noArrow s = true -> HasPrefix s "->" = false.
Proof.
  destruct s as [|a [|b t]]; simpl; intros H.
  - reflexivity.
  - apply andb_false_r.
  - apply andb_true_iff in H as [_ H]. apply andb_true_iff in H as [Hb _].
    unfold noArrow in Hb. apply negb_true_iff in Hb. rewrite Hb.
    by rewrite andb_false_r.
Qed.

Lemma portTail_fails {A} s caps (k : string -> list string -> option A) :
  allChars noArrow s = true -> matchHere portTail s caps k = None.
Proof.
  intros Hs. unfold portTail. cbn [matchHere].
  apply plusLoop_fails. intros n.
  rewrite HasPrefix_arrow by (by apply allChars_dropBytes). reflexivity.
Qed.

Lemma portColon_fails {A} s caps (k : string -> list string -> option A) :
  allChars noArrow s = true -> matchHere portColon s caps k = None.
Proof.
  intros Hs. unfold portColon.
  change (matchHere (Seq (Opt (Lit ":")) portTail) s caps k) with
    (match (if HasPrefix s ":" then matchHere portTail (dropBytes 1 s) caps k else None) with
     | Some m => Some m
     | None => matchHere portTail s caps k
     end).
  rewrite (portTail_fails s) by exact Hs.
  rewrite (portTail_fails (dropBytes 1 s)) by (by apply allChars_dropBytes).
  by destruct (HasPrefix s ":").
Qed.

Lemma portRegex_parts : portRegex = Seq (Opt (Alt (Lit "0.0.0.0") (Lit ":::"))) portColon.
Proof. reflexivity. Qed.

Lemma matchHere_portRegex {A} s caps (k : string -> list string -> option A) :
  matchHere portRegex s caps k =
    match (match (if HasPrefix s "0.0.0.0"
                  then matchHere portColon (dropBytes 7 s) caps k else None) with
           | Some m => Some m
           | None => if HasPrefix s ":::"
                     then matchHere portColon (dropBytes 3 s) caps k else None
           end) with
    | Some m => Some m
    | None => matchHere portColon s caps k
    end.
Proof. reflexivity. Qed.

Lemma portRegex_fails {A} s caps (k : string -> list string -> option A) :
  allChars noArrow s = true -> matchHere portRegex s caps k = None.
Proof.
  intros Hs. rewrite matchHere_portRegex.
  rewrite (portColon_fails s) by exact Hs.
  rewrite (portColon_fails (dropBytes 7 s)) by (by apply allChars_dropBytes).
  rewrite (portColon_fails (dropBytes 3 s)) by (by apply allChars_dropBytes).
  by destruct (HasPrefix s "0.0.0.0"), (HasPrefix s ":::").
Qed.

Lemma FindStringSubmatch_eq re s :
  FindStringSubmatch re s =
    match matchHere re s []
            (fun rest caps =>
               Some (substring 0 (String.length s - String.length rest) s :: caps)) with
    | Some matches => matches
    | None =>
        match s with
        | EmptyString => []
        | String _ t => FindStringSubmatch re t
        end
    end.
Proof. destruct s; reflexivity. Qed.

(** A text without [>] holds no port mapping. *)
Lemma FindStringSubmatch_no_arrow s :
  allChars noArrow s = true -> FindStringSubmatch portRegex s = [].
Proof.
  induction s as [|c t IH]; intros Hs; rewrite FindStringSubmatch_eq, portRegex_fails
    by exact Hs; [reflexivity|].
  apply IH. simpl in Hs. by apply andb_true_iff in Hs as [_ ?].
Qed.

Lemma isDigit_eqb d x : isDigit d = true -> isDigit x = false -> Ascii.eqb d x = false.
Proof. intros Hd Hx. apply Ascii.eqb_neq. intros ->. congruence. Qed.


Lemma mappingText_digit (h c p rest : string) :
  h <> EmptyString -> allChars isDigit h = true ->
  exists d t, mappingText h c p rest = String d t /\ isDigit d = true /\
    HasPrefix t ".0.0.0" = false.
Proof.
  intros Hne Hd. destruct h as [|d h']; [congruence|].
  simpl in Hd. apply andb_true_iff in Hd as [Hd Hh'].
  exists d, (h' +:+ "->" +:+ c +:+ "/" +:+ p +:+ rest).
  split; [reflexivity|]. split; [exact Hd|].
  destruct h' as [|d' h''].
  - reflexivity.
  - simpl in Hh'. apply andb_true_iff in Hh' as [Hd' _].
    rewrite append_cons. simpl. by rewrite (isDigit_eqb d' "."%char Hd' eq_refl).
Qed.

Lemma portTail_matches {A} (h c p rest : string) caps (k : string -> list string -> option A) m :
  h <> EmptyString -> allChars isDigit h = true ->
  c <> EmptyString -> allChars isDigit c = true ->
  p = "tcp" \/ p = "udp" ->
  k rest (caps ++ [h] ++ [c] ++ [p]) = Some m ->
  matchHere portTail (mappingText h c p rest) caps k = Some m.
Proof.
  intros Hh Hhd Hc Hcd Hp Hk. unfold portTail, mappingText.
  cbn [matchHere].
  apply plusLoop_digits; [exact Hh | exact Hhd | | by intros ? ? [= <- _]].
  rewrite substring_consumed.
  change ("->" +:+ c +:+ "/" +:+ p +:+ rest) with ("->" +:+ (c +:+ "/" +:+ p +:+ rest)).
  rewrite HasPrefix_append, dropBytes_append.
  apply plusLoop_digits; [exact Hc | exact Hcd | | by intros ? ? [= <- _]].
  rewrite substring_consumed.
  change ("/" +:+ p +:+ rest) with ("/" +:+ (p +:+ rest)).
  rewrite HasPrefix_append, dropBytes_append.
  destruct Hp as [-> | ->].
  - rewrite HasPrefix_append, dropBytes_append, substring_consumed.
    rewrite <- !app_assoc. rewrite Hk. reflexivity.
  - replace (HasPrefix ("udp" +:+ rest) "tcp") with false by reflexivity.
    rewrite HasPrefix_append, dropBytes_append, substring_consumed.
    rewrite <- !app_assoc. rewrite Hk. reflexivity.
Qed.

Lemma portRegex_matches {A} (addr h c p rest : string) (k : string -> list string -> option A) m :
  addr ∈ ["0.0.0.0:"; ":::"; ":"; ""] ->
  h <> EmptyString -> allChars isDigit h = true ->
  c <> EmptyString -> allChars isDigit c = true ->
  p = "tcp" \/ p = "udp" ->
  k rest ([h] ++ [c] ++ [p]) = Some m ->
  matchHere portRegex (addr +:+ mappingText h c p rest) [] k = Some m.
Proof.
  intros Ha Hh Hhd Hc Hcd Hp Hk.
  pose proof (portTail_matches h c p rest [] k m Hh Hhd Hc Hcd Hp Hk) as Htail.
  destruct (mappingText_digit h c p rest Hh Hhd) as (d & t & HT & Hd & Hdots).
  rewrite HT in *.
  assert (Hcolon : matchHere portColon (String d t) [] k = Some m).
  { unfold portColon.
    change (matchHere (Seq (Opt (Lit ":")) portTail) (String d t) [] k) with
      (match (if HasPrefix (String d t) ":"
              then matchHere portTail (dropBytes 1 (String d t)) [] k else None) with
       | Some m => Some m
       | None => matchHere portTail (String d t) [] k
       end).
    replace (HasPrefix (String d t) ":") with false.
    - exact Htail.
    - simpl. by rewrite (isDigit_eqb d ":"%char Hd eq_refl). }
  assert (Hcolon' : matchHere portColon (String ":" (String d t)) [] k = Some m).
  { unfold portColon.
    change (matchHere (Seq (Opt (Lit ":")) portTail) (String ":" (String d t)) [] k) with
      (match matchHere portTail (String d t) [] k with
       | Some m => Some m
       | None => matchHere portTail (String ":" (String d t)) [] k
       end).
    by rewrite Htail. }
  rewrite matchHere_portRegex.
  repeat (apply elem_of_cons in Ha as [-> | Ha]); [| | | |by apply elem_of_nil in Ha].
  - change ("0.0.0.0:" +:+ String d t) with ("0.0.0.0" +:+ String ":" (String d t)).
    rewrite HasPrefix_append.
    replace (dropBytes 7 ("0.0.0.0" +:+ String ":" (String d t)))
      with (String ":" (String d t)) by reflexivity.
    rewrite Hcolon'. reflexivity.
  - replace (HasPrefix (":::" +:+ String d t) "0.0.0.0") with false by reflexivity.
    rewrite HasPrefix_append.
    replace (dropBytes 3 (":::" +:+ String d t)) with (String d t) by reflexivity.
    rewrite Hcolon. reflexivity.
  - change (":" +:+ String d t) with (String ":" (String d t)).
    replace (HasPrefix (String ":" (String d t)) "0.0.0.0") with false by reflexivity.
    replace (HasPrefix (String ":" (String d t)) ":::") with false.
    + exact Hcolon'.
    + simpl. by rewrite (isDigit_eqb d ":"%char Hd eq_refl).
  - rewrite append_nil_l.
    replace (HasPrefix (String d t) "0.0.0.0") with false.
    2: { change (HasPrefix (String d t) "0.0.0.0")
           with (Ascii.eqb d "0" && HasPrefix t ".0.0.0").
         by rewrite Hdots, andb_false_r. }
    replace (HasPrefix (String d t) ":::") with false.
    + exact Hcolon.
    + simpl. by rewrite (isDigit_eqb d ":"%char Hd eq_refl).
Qed.

(** The match on the text of a published port: the whole text and its
    three groups. *)
Lemma FindStringSubmatch_published (addr h c p : string) :
  addr ∈ ["0.0.0.0:"; ":::"; ":"; ""] ->
  h <> EmptyString -> allChars isDigit h = true ->
  c <> EmptyString -> allChars isDigit c = true ->
  p = "tcp" \/ p = "udp" ->
  FindStringSubmatch portRegex (addr +:+ mappingText h c p EmptyString) =
    [addr +:+ mappingText h c p EmptyString; h; c; p].
Proof.
  intros Ha Hh Hhd Hc Hcd Hp. rewrite FindStringSubmatch_eq.
  erewrite portRegex_matches; try eassumption; [reflexivity|].
  cbv beta. simpl String.length. rewrite Nat.sub_0_r.
  pose proof (substring_consumed (addr +:+ mappingText h c p EmptyString) EmptyString) as Hs.
  rewrite append_nil_r in Hs. simpl String.length in Hs. rewrite Nat.sub_0_r in Hs.
  rewrite Hs. reflexivity.
Qed.

(** *** The ports column *)

Lemma portMappings_cons part rest :
  portMappings (part :: rest) =
    let matches := FindStringSubmatch portRegex (TrimSpace part) in
    if (length matches =? 4)%nat then
      {| docker.HostPort := fst (Atoi (nth 1 matches EmptyString));
         docker.ContainerPort := fst (Atoi (nth 2 matches EmptyString));
         docker.Protocol := nth 3 matches EmptyString |}
        :: portMappings rest
    else portMappings rest.
Proof. reflexivity. Qed.

Lemma portMappings_spaced texts :
  portMappings (map (String " ") texts) = portMappings texts.
Proof.
  induction texts as [|x rest IH]; [reflexivity|].
  change (map (String " ") (x :: rest)) with (String " " x :: map (String " ") rest).
  rewrite !portMappings_cons, TrimSpace_space, IH. reflexivity.
Qed.

Lemma itemChar_solid c : itemChar c = true -> solid c = true.
Proof.
  unfold itemChar, fieldChar. intros H.
  apply andb_true_iff in H as [H _]. by apply andb_true_iff in H as [? _].
Qed.

Lemma isDigit_itemChar c : isDigit c = true -> itemChar c = true.
Proof.
  intros H. unfold isDigit in H. apply andb_true_iff in H as [H1 H2].
  apply N.leb_le in H1, H2. revert H1 H2.
  destruct c as [[] [] [] [] [] [] [] []]; vm_compute; intros H1 H2;
    try reflexivity; exfalso; (by apply H1) || (by apply H2).
Qed.

Lemma itemText_chars i :
  wellFormedItem i ->
  itemText i <> EmptyString /\ allChars itemChar (itemText i) = true.
Proof.
  destruct i as [addr m|text]; simpl.
  - intros (Ha & Hh & Hc & Hp).
    destruct (formatInt_numeral (docker.HostPort m)) as (Hne & Hd & _); [lia|].
    destruct (formatInt_numeral (docker.ContainerPort m)) as (_ & Hd' & _); [lia|].
    split.
    + intros H. apply (f_equal String.length) in H.
      rewrite !length_append in H. destruct (formatInt (docker.HostPort m)); [congruence|].
      simpl in H. lia.
    + rewrite !allChars_append.
      rewrite (allChars_impl _ _ _ isDigit_itemChar Hd).
      rewrite (allChars_impl _ _ _ isDigit_itemChar Hd').
      repeat (apply elem_of_cons in Ha as [-> | Ha]); [| | | |by apply elem_of_nil in Ha];
        repeat (apply elem_of_cons in Hp as [-> | Hp]); try (by apply elem_of_nil in Hp);
        reflexivity.
  - intros [Hne Hc]. split; [exact Hne|].
    eapply allChars_impl; [|exact Hc]. intros c H. by apply andb_true_iff in H as [? _].
Qed.

(** What the loop makes of the text of one entry. *)
Lemma portMappings_item i rest :
  wellFormedItem i ->
  portMappings (itemText i :: rest) =
    match i with
    | Published _ m => m :: portMappings rest
    | Exposed _ => portMappings rest
    end.
Proof.
  intros Hwf. destruct (itemText_chars i Hwf) as [Hne Hchars].
  rewrite portMappings_cons.
  rewrite TrimSpace_solid by (eapply allChars_impl; [apply itemChar_solid | exact Hchars]).
  destruct i as [addr m|text]; simpl in Hwf |- *.
  - destruct Hwf as (Ha & Hh & Hc & Hp).
    destruct (formatInt_numeral (docker.HostPort m)) as (Hhne & Hhd & _); [lia|].
    destruct (formatInt_numeral (docker.ContainerPort m)) as (Hcne & Hcd & _); [lia|].
    assert (Hp' : docker.Protocol m = "tcp" \/ docker.Protocol m = "udp").
    { repeat (apply elem_of_cons in Hp as [Hp | Hp]); auto. by apply elem_of_nil in Hp. }
    pose proof (FindStringSubmatch_published addr _ _ _ Ha Hhne Hhd Hcne Hcd Hp') as Hm.
    unfold mappingText in Hm. rewrite append_nil_r in Hm. rewrite Hm.
    cbn [length Nat.eqb nth]. rewrite !Atoi_formatInt by assumption.
    destruct m; reflexivity.
  - destruct Hwf as [_ Hc].
    rewrite FindStringSubmatch_no_arrow; [reflexivity|].
    eapply allChars_impl; [|exact Hc]. intros c H. by apply andb_true_iff in H as [_ ?].
Qed.

Lemma portMappings_items items :
  Forall wellFormedItem items ->
  portMappings (map itemText items) = publishedPorts items.
Proof.
  induction 1 as [|i items Hi _ IH]; [reflexivity|].
  change (map itemText (i :: items)) with (itemText i :: map itemText items).
  rewrite portMappings_item, IH by exact Hi. by destruct i.
Qed.

Lemma joinWith_cons sep x y rest :
  joinWith sep (x :: y :: rest) = x +:+ sep +:+ joinWith sep (y :: rest).
Proof. reflexivity. Qed.

Lemma Split_joinWith_comma texts :
  Forall (fun t => allChars itemChar t = true) texts ->
  Split (joinWith ", " texts) "," =
    match texts with
    | [] => [EmptyString]
    | x :: rest => x :: map (String " ") rest
    end.
Proof.
  assert (Hfree : forall t, allChars itemChar t = true ->
            allChars (fun c => negb (Ascii.eqb c ",")) t = true).
  { intros t. apply allChars_impl. intros c H. unfold itemChar in H.
    by apply andb_true_iff in H as [_ ?]. }
  induction 1 as [|x rest Hx Hrest IH]; [reflexivity|].
  destruct rest as [|y rest'].
  - simpl. by rewrite Split_free by (by apply Hfree).
  - rewrite joinWith_cons.
    change (", " +:+ joinWith ", " (y :: rest'))
      with (String "," (String " " (joinWith ", " (y :: rest')))).
    rewrite Split_sep by (by apply Hfree).
    rewrite Split_cons, IH. reflexivity.
Qed.

(** The column of a list of entries is trimmed to itself. *)
Lemma joinWith_Kept sep texts :
  Forall (fun t => t <> EmptyString /\ allChars solid t = true) texts ->
  texts <> [] ->
  trimStop (joinWith sep texts) = Kept (joinWith sep texts) /\
  exists c t, joinWith sep texts = String c t /\ solid c = true.
Proof.
  induction 1 as [|x rest [Hne Hx] Hrest IH]; [congruence|]. intros _.
  destruct rest as [|y rest'].
  - simpl. split; [by apply trimStop_solid|].
    destruct x as [|c t]; [congruence|]. exists c, t. split; [reflexivity|].
    simpl in Hx. by apply andb_true_iff in Hx as [? _].
  - rewrite joinWith_cons. destruct IH as [IH _]; [discriminate|]. split.
    + apply trimStop_app_Kept. by apply trimStop_app_Kept.
    + destruct x as [|c t]; [congruence|]. eexists c, _. split; [apply append_cons|].
      simpl in Hx. by apply andb_true_iff in Hx as [? _].
Qed.

Lemma items_solid items :
  Forall wellFormedItem items ->
  Forall (fun t => t <> EmptyString /\ allChars solid t = true) (map itemText items).
Proof.
  intros H. apply Forall_fmap. eapply Forall_impl; [exact H|].
  intros i Hi. destruct (itemText_chars i Hi) as [Hne Hc]. split; [exact Hne|].
  eapply allChars_impl; [apply itemChar_solid | exact Hc].
Qed.

Lemma parsePortMappings_column items :
  Forall wellFormedItem items ->
  parsePortMappings (portsColumn items) = publishedPorts items.
Proof.
  intros Hwf. unfold parsePortMappings, portsColumn.
  destruct items as [|i items]; [reflexivity|].
  destruct (joinWith_Kept ", " (map itemText (i :: items)) (items_solid _ Hwf))
    as (Hk & c & t & Hct & Hc); [discriminate|].
  rewrite Hct in Hk |- *. rewrite (TrimSpace_Kept c t _ Hc Hk).
  change (String.eqb (String c t) "") with false. cbv iota. rewrite <- Hct.
  rewrite Split_joinWith_comma.
  2: { apply Forall_fmap. eapply Forall_impl; [exact Hwf|].
       intros j Hj. apply (itemText_chars j Hj). }
  change (map itemText (i :: items)) with (itemText i :: map itemText items).
  inversion Hwf as [|? ? Hi Hitems]; subst.
  rewrite portMappings_item by exact Hi.
  rewrite portMappings_spaced, portMappings_items by exact Hitems.
  by destruct i.
Qed.

(** X20. [parsePortMappings] reads a ports column of [docker ps] back:
    for a column of entries separated by a comma and a space, each
    either a published port ([0.0.0.0:], [:::], [:] or nothing in front
    of [host->container/tcp] or [.../udp], the ports below 2^63) or an
    exposed port (a text without space, comma, bar or [>]), it returns
    the published ports, in their order, with the numbers printed; the
    exposed ports give nothing, and neither does the empty column. *)
Theorem parsePortMappings_listing (items : list portItem) :
  Forall wellFormedItem items ->
  parsePortMappings (portsColumn items) = publishedPorts items /\
  (length (parsePortMappings (portsColumn items)) <= length items)%nat /\
  parsePortMappings EmptyString = [].
Proof.
  intros Hwf. rewrite parsePortMappings_column by exact Hwf.
  split; [reflexivity|]. split; [|reflexivity].
  unfold publishedPorts. clear Hwf. induction items as [|[?|?] items IH]; cbn in *; lia.
Qed.

(** *** The listing *)



Lemma fieldChar_free c :
  fieldChar c = true -> negb (Ascii.eqb c "|") = true /\ lineChar c = true.
Proof.
  destruct c as [[] [] [] [] [] [] [] []]; vm_compute; intros H; split;
    reflexivity || discriminate.
Qed.

Lemma columnChar_free c :
  columnChar c = true -> negb (Ascii.eqb c "|") = true /\ lineChar c = true.
Proof.
  destruct c as [[] [] [] [] [] [] [] []]; vm_compute; intros H; split;
    reflexivity || discriminate.
Qed.

Lemma column_chars items :
  Forall wellFormedItem items -> allChars columnChar (portsColumn items) = true.
Proof.
  unfold portsColumn.
  induction 1 as [|i items Hi Hitems IH]; [reflexivity|].
  assert (Hc : allChars columnChar (itemText i) = true).
  { eapply allChars_impl; [|apply (itemText_chars i Hi)].
    intros c H. unfold columnChar. by rewrite H. }
  destruct items as [|j items']; [exact Hc|].
  change (map itemText (i :: j :: items'))
    with (itemText i :: itemText j :: map itemText items').
  rewrite joinWith_cons, !allChars_append, Hc. simpl. exact IH.
Qed.

Lemma psLine_fields l :
  wellFormedListed l ->
  Split (psLine l) "|" = [listedID l; listedName l; portsColumn (listedPorts l)].
Proof.
  intros (Hid & Hname & Hports). unfold psLine.
  change ("|" +:+ listedName l +:+ "|" +:+ portsColumn (listedPorts l))
    with (String "|" (listedName l +:+ String "|" (portsColumn (listedPorts l)))).
  rewrite Split_sep.
  2: { eapply allChars_impl; [|exact Hid]. intros c H. apply (fieldChar_free c H). }
  rewrite Split_sep.
  2: { eapply allChars_impl; [|exact Hname]. intros c H. apply (fieldChar_free c H). }
  rewrite Split_free; [reflexivity|].
  eapply allChars_impl; [|apply (column_chars _ Hports)].
  intros c H. apply (columnChar_free c H).
Qed.

Lemma psLine_chars l :
  wellFormedListed l -> allChars lineChar (psLine l) = true.
Proof.
  intros (Hid & Hname & Hports). unfold psLine. rewrite !allChars_append.
  rewrite (allChars_impl fieldChar lineChar _ (fun c H => proj2 (fieldChar_free c H)) Hid).
  rewrite (allChars_impl fieldChar lineChar _ (fun c H => proj2 (fieldChar_free c H)) Hname).
  rewrite (allChars_impl columnChar lineChar _ (fun c H => proj2 (columnChar_free c H))
             (column_chars _ Hports)).
  reflexivity.
Qed.

Lemma psLine_Kept l :
  wellFormedListed l ->
  trimStop (psLine l) = Kept (psLine l) /\
  exists c t, psLine l = String c t /\ solid c = true.
Proof.
  intros (Hid & Hname & Hports). unfold psLine. split.
  - apply trimStop_app_Kept.
    change ("|" +:+ listedName l +:+ "|" +:+ portsColumn (listedPorts l))
      with (String "|" (listedName l +:+ "|" +:+ portsColumn (listedPorts l))).
    change (String "|" ?x) with ("|" +:+ x).
    apply trimStop_app_Kept, trimStop_app_Kept.
    destruct (listedPorts l) as [|i items] eqn:E.
    + reflexivity.
    + change ("|" +:+ portsColumn (i :: items)) with ("|" +:+ portsColumn (i :: items)).
      apply trimStop_app_Kept.
      apply (joinWith_Kept ", " (map itemText (i :: items)) (items_solid _ Hports)).
      discriminate.
  - destruct (listedID l) as [|c t].
    + eexists "|"%char, _. split; reflexivity.
    + eexists c, _. split; [apply append_cons|].
      simpl in Hid. apply andb_true_iff in Hid as [Hc _].
      unfold fieldChar in Hc. by apply andb_true_iff in Hc as [? _].
Qed.

Lemma trimStop_app_AllSpace s t : trimStop t = AllSpace -> trimStop (s +:+ t) = trimStop s.
Proof.
  intros Ht. induction s as [|c s IH]; [exact Ht|].
  rewrite append_cons. simpl. rewrite IH. reflexivity.
Qed.

Lemma joinWith_trimStop sep texts :
  Forall (fun t => trimStop t = Kept t) texts -> texts <> [] ->
  trimStop (joinWith sep texts) = Kept (joinWith sep texts).
Proof.
  induction 1 as [|x rest Hx Hrest IH]; [congruence|]. intros _.
  destruct rest as [|y rest']; [exact Hx|].
  rewrite joinWith_cons. apply trimStop_app_Kept, trimStop_app_Kept, IH. discriminate.
Qed.

Lemma Split_joinWith_newline texts :
  Forall (fun t => allChars lineChar t = true) texts -> texts <> [] ->
  Split (joinWith (String newline EmptyString) texts) newline = texts.
Proof.
  induction 1 as [|x rest Hx Hrest IH]; [congruence|]. intros _.
  destruct rest as [|y rest'].
  - simpl. by apply Split_free.
  - rewrite joinWith_cons.
    change (String newline EmptyString +:+ joinWith (String newline EmptyString) (y :: rest'))
      with (String newline (joinWith (String newline EmptyString) (y :: rest'))).
    rewrite Split_sep by exact Hx. rewrite IH by discriminate. reflexivity.
Qed.

Lemma psOutput_join l ls :
  psOutput (l :: ls) =
    joinWith (String newline EmptyString) (map psLine (l :: ls)) +:+
    String newline EmptyString.
Proof.
  revert l. induction ls as [|l' ls IH]; intros l; [reflexivity|].
  change (psOutput (l :: l' :: ls)) with (psLine l +:+ String newline (psOutput (l' :: ls))).
  rewrite IH.
  change (map psLine (l :: l' :: ls)) with (psLine l :: psLine l' :: map psLine ls).
  rewrite joinWith_cons, !append_assoc. reflexivity.
Qed.

Lemma dockerServices_cons line rest :
  dockerServices (line :: rest) =
    let parts := Split line "|" in
    if (length parts <? 3)%nat then dockerServices rest
    else
      {| docker.ContainerID := TrimSpace (nth 0 parts EmptyString);
         docker.Name := TrimSpace (nth 1 parts EmptyString);
         docker.Ports := parsePortMappings (nth 2 parts EmptyString) |}
        :: dockerServices rest.
Proof. reflexivity. Qed.

Lemma dockerServices_lines ls :
  Forall wellFormedListed ls -> dockerServices (map psLine ls) = map serviceOf ls.
Proof.
  induction 1 as [|l ls Hl _ IH]; [reflexivity|].
  change (map psLine (l :: ls)) with (psLine l :: map psLine ls).
  rewrite dockerServices_cons, psLine_fields by exact Hl.
  cbv zeta. cbn [length Nat.ltb Nat.leb nth].
  destruct Hl as (Hid & Hname & Hports).
  rewrite !TrimSpace_solid, parsePortMappings_column, IH; try assumption.
  - reflexivity.
  - eapply allChars_impl; [|exact Hname]. intros c H. unfold fieldChar in H.
    by apply andb_true_iff in H as [? _].
  - eapply allChars_impl; [|exact Hid]. intros c H. unfold fieldChar in H.
    by apply andb_true_iff in H as [? _].
Qed.

Lemma ParseDockerPS_output ls :
  Forall wellFormedListed ls -> ParseDockerPS (psOutput ls) = inl (map serviceOf ls).
Proof.
  intros Hwf. destruct ls as [|l ls]; [reflexivity|].
  unfold ParseDockerPS. rewrite psOutput_join.
  set (J := joinWith (String newline EmptyString) (map psLine (l :: ls))).
  assert (HJ : trimStop J = Kept J).
  { apply joinWith_trimStop; [|discriminate]. apply Forall_fmap.
    eapply Forall_impl; [exact Hwf|]. intros x Hx. apply (psLine_Kept x Hx). }
  assert (Hfirst : exists c t, J = String c t /\ solid c = true).
  { inversion Hwf as [|? ? Hl _]; subst.
    destruct (psLine_Kept l Hl) as (_ & c & t & Hct & Hc).
    subst J. change (map psLine (l :: ls)) with (psLine l :: map psLine ls).
    destruct (map psLine ls) as [|y rest].
    - exists c, t. split; [exact Hct | exact Hc].
    - rewrite joinWith_cons, Hct. eexists c, _. split; [apply append_cons | exact Hc]. }
  destruct Hfirst as (c & t & Hct & Hc).
  assert (Htrim : TrimSpace (J +:+ String newline EmptyString) = J).
  { rewrite Hct, append_cons. apply TrimSpace_Kept; [exact Hc|].
    rewrite <- append_cons, <- Hct.
    rewrite trimStop_app_AllSpace by reflexivity. exact HJ. }
  rewrite Htrim. rewrite Hct at 1. change (String.eqb (String c t) "") with false.
  cbv iota. subst J. rewrite Split_joinWith_newline.
  - by rewrite dockerServices_lines.
  - apply Forall_fmap. eapply Forall_impl; [exact Hwf|]. intros x Hx.
    by apply psLine_chars.
  - discriminate.
Qed.

(** X21. [ParseDockerPS] reads the listing of [docker ps] back: for
    containers whose id and name are made of ASCII bytes other than
    space and bar and whose ports column is as for X20, the output of
    one line [id|name|ports] per container gives these containers, in
    their order, each with its published ports.  [ParseDockerPS] never
    returns an error, so [GetRunningContainers] fails only when Docker is
    not available or the run of [docker ps] fails. *)
Theorem ParseDockerPS_listing (ls : list listed) :
  Forall wellFormedListed ls ->
  ParseDockerPS (psOutput ls) = inl (map serviceOf ls) /\
  (forall output, exists services, ParseDockerPS output = inl services) /\
  (forall available ps err,
     GetRunningContainers available ps = inr err ->
     (available = false /\ err = ErrNew "docker is not available") \/
     (exists cause, ps = inr cause /\
        err = ErrWrap "failed to execute docker ps" cause)).
Proof.
  intros Hwf. split; [by apply ParseDockerPS_output|]. split.
  - intros output. unfold ParseDockerPS.
    destruct (String.eqb (TrimSpace output) ""); eauto.
  - intros available ps err. unfold GetRunningContainers.
    destruct available; simpl.
    + destruct ps as [out|cause].
      * unfold ParseDockerPS. destruct (String.eqb (TrimSpace out) ""); discriminate.
      * intros [= <-]. right. eauto.
    + intros [= <-]. left. split; reflexivity.
Qed.

End ListingProperties.

(** ** Further examples *)

(** X5: two polls on a wifi interface, the second of which fails. *)
Lemma watcher_stored_address_witness :
  let w := mkIPWatcher "" (5 * second)%Z false ChanOpen false in
  let os0 := inl [wlan0 x64] in
  stopped w = false /\
  DetectLocalIP (go := plainGo) os0 = inl (mkNetworkInfo "192.168.1.100" "wlan0" "wifi") /\
  GetCurrentIP (stateOf (Start (go := plainGo) w os0
                   (map EvTick [inl [wlan0 x65]; inr (ErrOS "route ip+net: netlinkrib")])))
    = "192.168.1.101".
Proof.
  intros w os0.
  assert (Hs : stopped w = false) by reflexivity.
  assert (H0 : DetectLocalIP (go := plainGo) os0
               = inl (mkNetworkInfo "192.168.1.100" "wlan0" "wifi")) by reflexivity.
  repeat (split; [assumption|]).
  pose proof (watcher_stored_address (go := plainGo) w os0 _
                [inl [wlan0 x65]; inr (ErrOS "route ip+net: netlinkrib")] [] Hs H0)
    as (_ & Hlast & _).
  destruct Hlast as [Hlast _]; [reflexivity|].
  rewrite Hlast. reflexivity.
Defined.

(** X6: the address changes once. *)
Lemma watcher_callback_chain_witness :
  let w := mkIPWatcher "" (5 * second)%Z true ChanOpen false in
  let os0 := inl [wlan0 x64] in
  stopped w = false /\ OnChange w = true /\
  DetectLocalIP (go := plainGo) os0 = inl (mkNetworkInfo "192.168.1.100" "wlan0" "wifi") /\
  chained "192.168.1.100"
    (callbacks (traceOf (Start (go := plainGo) w os0 [EvTick (inl [wlan0 x65])]))).
Proof.
  intros w os0.
  assert (Hs : stopped w = false) by reflexivity.
  assert (Hc : OnChange w = true) by reflexivity.
  assert (H0 : DetectLocalIP (go := plainGo) os0
               = inl (mkNetworkInfo "192.168.1.100" "wlan0" "wifi")) by reflexivity.
  repeat (split; [assumption|]).
  exact (proj1 (watcher_callback_chain (go := plainGo) w os0 _
                  [EvTick (inl [wlan0 x65])] Hs Hc H0)).
Defined.

(** X7: [Stop] is called while the watcher runs, and again after it;
    and a watcher made with an interval of minus one second. *)
Lemma watcher_panic_is_the_ticker_witness :
  let w := NewIPWatcher 0 in
  let w' := NewIPWatcher (- second) in
  consistent w /\ consistent w' /\
  snd (Stop (stateOf (Start (go := plainGo) w (inl [wlan0 x64])
                        [EvStop; EvTick (inl [wlan0 x65]); EvStop; EvStopCh]))) = None /\
  outcomeOf (Start (go := plainGo) w' (inl [wlan0 x64]) [EvTick (inl [wlan0 x65])])
    = Panicked "non-positive interval for NewTicker".
Proof.
  intros w w'.
  assert (Hw : consistent w) by (left; split; reflexivity).
  assert (Hw' : consistent w') by (left; split; reflexivity).
  split; [exact Hw|]. split; [exact Hw'|].
  split.
  - exact (proj2 (proj2 (proj2 (proj2 (proj2 (proj2
      (watcher_panic_is_the_ticker (go := plainGo) w (inl [wlan0 x64])
         [EvStop; EvTick (inl [wlan0 x65]); EvStop; EvStopCh] 0 false Hw))))))).
  - apply (proj1 (proj2 (proj2 (proj2 (proj2
      (watcher_panic_is_the_ticker (go := plainGo) w' (inl [wlan0 x64])
         [EvTick (inl [wlan0 x65])] 0 false Hw'))))) "non-positive interval for NewTicker").
    split; [reflexivity|]. split; [eexists; reflexivity|]. split; [vm_compute; discriminate | reflexivity].
Defined.

(** X8: a poll is served between the call of [Stop] and the return. *)
Lemma watcher_run_ends_witness :
  let w := setCurrentIP (NewIPWatcher 0) "192.168.1.100" in
  consistent w /\
  outcomeOf (monitor (go := plainGo) w
               (EvStop :: map EvTick [inl [wlan0 x65]] ++ EvStopCh :: []))
    = Returned None.
Proof.
  intros w.
  assert (Hw : consistent w) by (left; split; reflexivity).
  split; [exact Hw|].
  exact (proj2 (proj2 (proj2 (watcher_run_ends (go := plainGo) w (inl [wlan0 x64]) []
     [inl [wlan0 x65]] [] Hw)))).
Defined.

(** X9: a URL of the default configuration. *)
Lemma transformURL_no_localhost_left_witness :
  "192.168.1.100" <> EmptyString /\
  noLocalhostChars "192.168.1.100" = true /\
  strings.Contains (transformURL "http://localhost:3000" "192.168.1.100") "localhost"
    = false.
Proof.
  assert (Hne : "192.168.1.100" <> EmptyString) by discriminate.
  assert (Hno : noLocalhostChars "192.168.1.100" = true) by reflexivity.
  repeat (split; [assumption|]).
  exact (proj1 (transformURL_no_localhost_left "http://localhost:3000" "192.168.1.100"
                  Hne Hno)).
Defined.

(** X11: a map of one variable. *)
Lemma transformVars_one_per_key_witness :
  let vars : gmap string string := {[ "API_URL" := "http://localhost:8000" ]} in
  let order := [("API_URL", "http://localhost:8000")] in
  order ≡ₚ map_to_list vars /\
  length (transformVars order "192.168.1.100") = size vars.
Proof.
  intros vars order.
  assert (Hp : order ≡ₚ map_to_list vars).
  { subst vars order. rewrite map_to_list_singleton. reflexivity. }
  split; [exact Hp|].
  exact (proj1 (proj2 (proj2 (transformVars_one_per_key vars order "192.168.1.100" Hp)))).
Defined.

(** X15: no interface can be listed; and a dry run with a logger of
    level [INFO]. *)
Lemma executeStart_outcomes_witness :
  let l := logger.mkLogger logger.INFO "lanup.log" 5242880 5 false false true 0 in
  let c := mkStartCmd false false true true (Some l) in
  let projectConfig :=
    mkProjectConfig {[ "API_URL" := "http://localhost:8000" ]} ".env"
                    (mkAutoDetectConfig false false) in
  let found := mkDetected false (inr (ErrNew "docker is not available"))
                 (inr (ErrNew "supabase CLI is not installed or not available in PATH")) in
  let fs := mkFileSystem ∅ ∅ [] in
  let cause := ErrWrap "failed to get network interfaces" (ErrOS "route ip+net: netlinkrib") in
  (forall vars : gmap string string, map_to_list vars ≡ₚ map_to_list vars) /\
  DetectLocalIP (go := plainGo) (inr (ErrOS "route ip+net: netlinkrib")) = inr cause /\
  executeStart (go := plainGo) (up := plainUpper) (out := plainLog) map_to_list c
               projectConfig (inr (ErrOS "route ip+net: netlinkrib")) found (inl [])
               "2025-10-27 23:50:12" fs
    = (c, fs, Some (NewError ErrNoNetwork "Failed to detect local IP address"
                             (Some (inl cause)))) /\
  DetectLocalIP (go := plainGo) (inl [wlan0 x64])
    = inl (mkNetworkInfo "192.168.1.100" "wlan0" "wifi") /\
  written (executeStart (go := plainGo) (up := plainUpper) (out := plainLog) map_to_list c
             projectConfig (inl [wlan0 x64]) found (inl []) "2025-10-27 23:50:12" fs).1.2
    = [("lanup.log", "Detected IP" +:+ String "010" EmptyString)].
Proof.
  intros l c projectConfig found fs cause.
  assert (Hrange : forall vars : gmap string string, map_to_list vars ≡ₚ map_to_list vars)
    by reflexivity.
  assert (Hd : DetectLocalIP (go := plainGo) (inr (ErrOS "route ip+net: netlinkrib"))
               = inr cause) by reflexivity.
  assert (Hd' : DetectLocalIP (go := plainGo) (inl [wlan0 x64])
                = inl (mkNetworkInfo "192.168.1.100" "wlan0" "wifi")) by reflexivity.
  split; [exact Hrange|]. split; [exact Hd|].
  split.
  { exact (proj1 (executeStart_outcomes (go := plainGo) (up := plainUpper) (out := plainLog)
                    map_to_list Hrange c projectConfig
                    (inr (ErrOS "route ip+net: netlinkrib")) found (inl [])
                    "2025-10-27 23:50:12" fs) cause Hd). }
  split; [exact Hd'|].
  rewrite (proj1 (proj1 (proj2 (executeStart_outcomes (go := plainGo) (up := plainUpper)
                    (out := plainLog) map_to_list Hrange c projectConfig
                    (inl [wlan0 x64]) found (inl []) "2025-10-27 23:50:12" fs)) _ Hd')
                 eq_refl).
  reflexivity.
Defined.

(** X16: the default configuration. *)
Lemma ProjectConfig_Validate_accepts_witness :
  (forall vars : gmap string string, map_to_list vars ≡ₚ map_to_list vars) /\
  ProjectConfig_Validate map_to_list GetDefaultProjectConfig = None.
Proof.
  assert (Hrange : forall vars : gmap string string, map_to_list vars ≡ₚ map_to_list vars)
    by reflexivity.
  split; [exact Hrange|].
  exact (proj2 (proj2 (ProjectConfig_Validate_accepts map_to_list Hrange
                         GetDefaultProjectConfig))).
Defined.

(** X17: a configuration file is in place and [--force] is not given;
    and with [--force], a write that fails after seven bytes. *)
Lemma InitCmd_Run_outcomes_witness :
  let c := mkInitCmd "yaml" false in
  let forced := mkInitCmd "yaml" true in
  let fs := mkFileSystem {[ ".lanup.yaml" := "output: .env" ]} ∅ [] in
  let marshal := fun _ : ProjectConfig => inl "output: .env.local" in
  (forall vars : gmap string string, map_to_list vars ≡ₚ map_to_list vars) /\
  Format c = "yaml" /\ is_Some (files fs !! ".lanup.yaml") /\ Force c = false /\
  fst (InitCmd_Run map_to_list marshal c WriteCompletes fs) = fs /\
  InitCmd_Run map_to_list marshal forced (WriteFailsAfter 7) fs =
    ({| files := <[".lanup.yaml" := "output:"]> (files fs);
        denied := ∅;
        written := [(".lanup.yaml", "output:")] |},
     Some (NewError ErrPermissionDenied "Failed to create configuration file"
                    (Some (SaveWrite (ErrIO ".lanup.yaml"))))).
Proof.
  intros c forced fs marshal.
  assert (Hrange : forall vars : gmap string string, map_to_list vars ≡ₚ map_to_list vars)
    by reflexivity.
  assert (Hy : Format c = "yaml") by reflexivity.
  assert (Hex : is_Some (files fs !! ".lanup.yaml")).
  { exists "output: .env". apply lookup_singleton_eq. }
  assert (Hf : Force c = false) by reflexivity.
  repeat (split; [assumption|]).
  split.
  { exact (proj1 (proj1 (proj2 (InitCmd_Run_outcomes map_to_list Hrange marshal c
                                  WriteCompletes fs)) Hy Hex Hf)). }
  unfold InitCmd_Run, SaveProjectConfig.
  change (String.eqb (Format forced) "yaml") with true.
  change (String.eqb (Format forced) "toml") with false.
  cbn [negb andb Force forced]. rewrite andb_false_r.
  rewrite (GetDefaultProjectConfig_valid map_to_list Hrange).
  reflexivity.
Defined.

(** X19: a log of three lines and an empty one. *)
Lemma readLastNLines_tail_witness :
  let data := "first" +:+ String newline (String newline
              ("second" +:+ String newline ("third" +:+ String newline EmptyString))) in
  holds (fileOf data) data /\
  readLastNLines (fileOf data) 2 =
    inl ["second" +:+ String newline EmptyString; "third" +:+ String newline EmptyString].
Proof.
  intros data.
  assert (Hfile : holds (fileOf data) data) by (split; [reflexivity | intros; reflexivity]).
  split; [exact Hfile|].
  destruct (readLastNLines_tail (fileOf data) data 2 Hfile)
    as (result & Hrun & _ & _ & Hsmall).
  rewrite Hrun, Hsmall; [reflexivity | vm_compute; lia].
Defined.

(** X20: the column of [TestParsePortMappings_VariousFormats], mixed
    formats. *)
Lemma parsePortMappings_listing_witness :
  let items := [Published "0.0.0.0:" (docker.mkPortMapping 8080 80 "tcp");
                Exposed "9000/tcp";
                Published ":::" (docker.mkPortMapping 8443 443 "tcp")] in
  Forall wellFormedItem items /\
  parsePortMappings (sp := plainSpace) "0.0.0.0:8080->80/tcp, 9000/tcp, :::8443->443/tcp"
    = [docker.mkPortMapping 8080 80 "tcp"; docker.mkPortMapping 8443 443 "tcp"].
Proof.
  intros items.
  assert (Hwf : Forall wellFormedItem items).
  { repeat constructor; simpl; rewrite ?elem_of_cons; auto; lia. }
  split; [exact Hwf|].
  exact (proj1 (parsePortMappings_listing (sp := plainSpace) items Hwf)).
Defined.

(** X21: two containers, the second with an exposed port only. *)
Lemma ParseDockerPS_listing_witness :
  let ls := [mkListed "c3d4e5f6a1b2" "supabase-kong"
               [Published "0.0.0.0:" (docker.mkPortMapping 54321 8000 "tcp");
                Published "0.0.0.0:" (docker.mkPortMapping 54320 8443 "tcp")];
             mkListed "d4e5f6a1b2c3" "supabase-auth" [Exposed "9999/tcp"]] in
  Forall wellFormedListed ls /\
  ParseDockerPS (sp := plainSpace)
    ("c3d4e5f6a1b2|supabase-kong|0.0.0.0:54321->8000/tcp, 0.0.0.0:54320->8443/tcp" +:+
     String newline ("d4e5f6a1b2c3|supabase-auth|9999/tcp" +:+ String newline EmptyString))
    = inl [docker.mkDockerService "c3d4e5f6a1b2" "supabase-kong"
             [docker.mkPortMapping 54321 8000 "tcp"; docker.mkPortMapping 54320 8443 "tcp"];
           docker.mkDockerService "d4e5f6a1b2c3" "supabase-auth" []].
Proof.
  intros ls.
  assert (Hwf : Forall wellFormedListed ls).
  { repeat constructor; simpl; rewrite ?elem_of_cons; auto; lia. }
  split; [exact Hwf|].
  exact (proj1 (ParseDockerPS_listing (sp := plainSpace) ls Hwf)).
Defined.
